(** * The correspondence notebook of Harmonic Surface Networks

    A shallow embedding of [correspondence.ipynb]: the settings, the
    dataset cell, the [Net] module with its [forward] pass, the [train]
    and [test] functions and the epoch loop.

    The notebook is orchestration code.  Every tensor computation is done
    by a library (torch, torch_geometric, the [nn] and [transforms]
    packages of the repository), so the embedding keeps the notebook's
    own control flow and data flow as Rocq code and turns each library
    call into a _call_ of a small free monad.  An _environment_ answers
    the calls; running a program under an environment yields the result
    together with the trace of the calls that were made.  Theorems about
    the notebook's data flow hold for every environment; theorems about
    tensor shapes hold for every environment that meets the layers'
    shape contract. *)

From Stdlib Require Import ZArith QArith List Lia.
From stdpp Require Import base gmap strings list.

Set Implicit Arguments.
Open Scope Z_scope.

(** ** Python values *)

Module Py.

(** The exceptions that the notebook's own statements can raise. *)
Inductive exn : Type :=
| IndexError
| AttributeError
| TypeError
| RuntimeError
| ValueError
| ZeroDivisionError.

Inductive result (A : Type) : Type :=
| Ok (a : A)
| Raised (e : exn).
Arguments Ok {A} a.
Arguments Raised {A} e.

Definition bind {A B} (r : result A) (f : A -> result B) : result B :=
  match r with
  | Ok a => f a
  | Raised e => Raised e
  end.

(** [a / b] on two ints: a float, or [ZeroDivisionError].  Floats are
    idealised as rationals. *)
Definition truediv (a b : Z) : result Q :=
  if b =? 0 then Raised ZeroDivisionError
  else Ok (inject_Z a / inject_Z b)%Q.

(** [l[i]] for a non-negative index. *)
Definition index {A} (l : list A) (i : nat) : result A :=
  match l !! i with
  | Some a => Ok a
  | None => Raised IndexError
  end.

(** [range(n)] *)
Definition range (n : nat) : list Z := map Z.of_nat (seq 0 n).

(** [enumerate(l)] *)
Definition enumerate {A} (l : list A) : list (Z * A) :=
  combine (range (length l)) l.

End Py.

Abbreviation Ok := Py.Ok.
Abbreviation Raised := Py.Raised.

(** ** Tensors

    A tensor is its shape and its elements in row-major order; the
    element type stands for the dtype ([Q] for floating point, [Z] for
    [torch.long], [bool] for the masks that comparisons return). *)

Record tensor (A : Type) : Type := Tensor {
  shape : list nat;
  data : list A
}.
Arguments Tensor {A} shape data.

Definition numel (s : list nat) : nat := fold_right Nat.mul 1%nat s.

Definition well_formed {A} (t : tensor A) : Prop :=
  length (data t) = numel (shape t).

Module Torch.

(** [torch.arange(n, dtype=torch.long)] *)
Definition arange (n : nat) : tensor Z :=
  Tensor [n] (map Z.of_nat (seq 0 n)).

(** Index of the first maximal element of a non-empty list. *)
Fixpoint argmax_from (best : Q) (besti : nat) (i : nat) (l : list Q) : nat :=
  match l with
  | [] => besti
  | x :: l' =>
      if Qle_bool x best then argmax_from best besti (S i) l'
      else argmax_from x i (S i) l'
  end.

Definition argmax (l : list Q) : nat :=
  match l with
  | [] => 0%nat
  | x :: l' => argmax_from x 0 1 l'
  end.

Fixpoint maximum_from (best : Q) (l : list Q) : Q :=
  match l with
  | [] => best
  | x :: l' => if Qle_bool x best then maximum_from best l' else maximum_from x l'
  end.

Definition maximum (l : list Q) : Q :=
  match l with
  | [] => 0%Q
  | x :: l' => maximum_from x l'
  end.

(** The elements [t[v, 0..n-1, r]] of a tensor of shape [v_ :: n :: rest],
    where [inner] is the number of elements of [rest]. *)
Definition lane (d : list Q) (n inner v r : nat) : list Q :=
  map (fun j => nth (v * n * inner + j * inner + r)%nat d 0%Q) (seq 0 n).

(** [t.max(1)]: the maxima along dimension 1 and their indices.  A
    tensor with fewer than two dimensions has no dimension 1, and an
    empty dimension cannot be reduced: both raise [IndexError]. *)
Definition max1 (t : tensor Q) : Py.result (tensor Q * tensor Z) :=
  match shape t with
  | v :: n :: rest =>
      if (n =? 0)%nat then Raised Py.IndexError
      else
        let inner := numel rest in
        let lanes :=
          flat_map (fun i => map (fun r => lane (data t) n inner i r) (seq 0 inner))
                   (seq 0 v) in
        Ok (Tensor (v :: rest) (map maximum lanes),
            Tensor (v :: rest) (map (fun l => Z.of_nat (argmax l)) lanes))
  | _ => Raised Py.IndexError
  end.

(** Broadcasting of two shapes, on the reversed shapes: dimensions are
    aligned from the last one, and two sizes are compatible when they
    are equal or one of them is 1. *)
Fixpoint broadcast_rev (a b : list nat) : option (list nat) :=
  match a, b with
  | [], _ => Some b
  | _, [] => Some a
  | x :: a', y :: b' =>
      match broadcast_rev a' b' with
      | None => None
      | Some s =>
          if (x =? y)%nat then Some (x :: s)
          else if (x =? 1)%nat then Some (y :: s)
          else if (y =? 1)%nat then Some (x :: s)
          else None
      end
  end.

Definition broadcast_shapes (a b : list nat) : option (list nat) :=
  match broadcast_rev (rev a) (rev b) with
  | Some s => Some (rev s)
  | None => None
  end.

(** Row-major position, in an operand of reversed shape [ra], of the
    element that is broadcast to position [i] of the result of reversed
    shape [rs]. *)
Fixpoint source_index (ra rs : list nat) (i : nat) : nat :=
  match ra, rs with
  | x :: ra', d :: rs' =>
      ((if (x =? 1)%nat then 0 else i mod d) + x * source_index ra' rs' (i / d))%nat
  | _, _ => 0%nat
  end.

(** [a.eq(b)] on two long tensors: element-wise equality after
    broadcasting; shapes that cannot be broadcast raise. *)
Definition eq (a b : tensor Z) : Py.result (tensor bool) :=
  match broadcast_shapes (shape a) (shape b) with
  | None => Raised Py.RuntimeError
  | Some s =>
      Ok (Tensor s
            (map (fun i =>
                    nth (source_index (rev (shape a)) (rev s) i) (data a) 0
                    =? nth (source_index (rev (shape b)) (rev s) i) (data b) 0)
                 (seq 0 (numel s))))
  end.

(** [m.sum().item()] on a mask: the number of [True] elements. *)
Definition sum_item (m : tensor bool) : Z :=
  Z.of_nat (length (List.filter (fun b : bool => b) (data m))).

End Torch.

(** ** Mesh samples

    A [torch_geometric] [Data] object is a store of named tensors
    ([pos], [edge_index], [precomp], [connection], ...).  The dtype of
    the stored tensors plays no role in the notebook, which only hands
    them on to the layers. *)

Abbreviation Data := (gmap string (tensor Q)).

(** [data.<name>]; an absent attribute makes the statement that uses it
    fail.  (For the fields that [torch_geometric] predefines, [pos] and
    [edge_index], an absent field reads [None] and it is the layer
    given that [None] which fails: the run ends at the same call, with
    another exception.) *)
Definition getattr_result (d : Data) (name : string) : Py.result (tensor Q) :=
  match d !! name with
  | Some t => Ok t
  | None => Raised Py.AttributeError
  end.

(** [data.num_nodes]: the size of the first dimension of [pos].  (For
    a sample without [pos], which the mesh datasets of the notebook do
    not hold, [torch_geometric] falls back on other fields.) *)
Definition data_num_nodes (d : Data) : Py.result nat :=
  match d !! "pos" with
  | Some t =>
      match shape t with
      | n :: _ => Ok n
      | [] => Raised Py.IndexError
      end
  | None => Raised Py.TypeError
  end.

(** ** Settings (second code cell) *)

Definition max_order : nat := 1.
Definition n_rings : nat := 2.
Definition nf : list nat := [16; 32]%nat.
Definition ratios : list Q := [1; 25 # 100]%Q.
Definition batch_size : nat := 1.
Definition remeshed : bool := true.
Definition faust_dir : string := if remeshed then "FAUST_5k" else "FAUST".
Definition radii : list Q :=
  if remeshed then [7 # 100; 14 # 100]%Q else [1 # 10; 2 # 10]%Q.

(** [l[i]] on the constant lists of the settings. *)
Definition at_nat (l : list nat) (i : nat) : nat := nth i l 0%nat.
Definition at_Q (l : list Q) (i : nat) : Q := nth i l 0%Q.

(** ** Objects of the libraries, as the notebook constructs them *)

(** [T.Compose((MultiscaleRadiusGraph(ratios, radii, loop, flow), VectorHeat()))] *)
Record pre_transform_t : Type := PreTransform {
  pt_ratios : list Q;
  pt_radii : list Q;
  pt_loop : bool;
  pt_flow : string
}.

(** [T.Compose((ScaleMask(k), FilterNeighbours(radius), HarmonicPrecomp(n_rings, max_order, max_r)))] *)
Record scale_transform_t : Type := ScaleTransform {
  st_scale : nat;
  st_radius : Q;
  st_n_rings : nat;
  st_max_order : nat;
  st_max_r : Q
}.

(** [nn.Linear(in_features, out_features)] *)
Record Linear_t : Type := Linear {
  in_features : nat;
  out_features : nat
}.

(** [HarmonicResNetBlock(in_channels, out_channels, max_order, n_rings,
    prev_order=..., last_layer=...)] *)
Record HarmonicResNetBlock_t : Type := HarmonicResNetBlock {
  in_channels : nat;
  out_channels : nat;
  rb_max_order : nat;
  rb_n_rings : nat;
  prev_order : nat;
  last_layer : bool
}.

(** [ParallelTransportPool(coarse_lvl, transform)] *)
Record ParallelTransportPool_t : Type := ParallelTransportPool {
  coarse_lvl : nat;
  pool_transform : scale_transform_t
}.

(** [ParallelTransportUnpool(from_lvl)] *)
Record ParallelTransportUnpool_t : Type := ParallelTransportUnpool {
  from_lvl : nat
}.

(** A [DataLoader] object, with the arguments it was built from. *)
Record DataLoader_t : Type := DataLoader {
  dataset : list Data;
  dl_batch_size : nat;
  dl_shuffle : bool
}.

(** [DataLoader(dataset, batch_size=..., shuffle=...)], the constructor:
    a loader that shuffles draws from a random sampler, which refuses
    an empty dataset with [ValueError]; a loader that does not shuffle
    accepts any dataset. *)
Definition DataLoader_init (dataset : list Data) (batch_size : nat) (shuffle : bool)
  : Py.result DataLoader_t :=
  if shuffle && (length dataset =? 0)%nat then Raised Py.ValueError
  else Ok (DataLoader dataset batch_size shuffle).

(** A value of an optimizer's parameter group, a dict from option names
    to such values. *)
Inductive hyper : Type :=
| HFloat (q : Q)
| HPair (a b : Q)
| HBool (b : bool)
| HParams.

Abbreviation param_group := (gmap string hyper).

(** What [print] is given. *)
Inductive message : Type :=
| EpochMessage (epoch : Z)      (* 'Epoch {}'.format(epoch) *)
| TestMessage (test_acc : Q).   (* 'Test: {:.6f}'.format(test_acc) *)

(** ** Library calls

    One constructor per library function or method that the notebook
    calls, with the arguments the notebook passes.  [Iter] stands for a
    whole pass over a loader ([for data in loader]) and is answered
    with the batches of the pass; [Step] and [ZeroGrad] are the methods
    of the optimizer, given its parameter groups. *)

Inductive Op : Type :=
(* datasets and loaders *)
| FAUST (root : string) (train : bool) (pre_transform : pre_transform_t)
| Iter (loader : DataLoader_t)
| DataTo (d : Data) (device : string)
| ModuleTo (device : string)
(* layers and functions used by Net.forward *)
| CallLinear (l : Linear_t) (x : tensor Q)
| Relu (x : tensor Q)
| ZerosLike (x : tensor Q)
| Stack (xs : list (tensor Q)) (dim : Z)
| Unsqueeze (x : tensor Q) (dim : Z)
| Transform (t : scale_transform_t) (d : Data)
| CallResNetBlock (l : HarmonicResNetBlock_t)
    (x edge_index precomp connection : tensor Q)
| CallPool (l : ParallelTransportPool_t) (x : tensor Q) (d : Data)
| CallUnpool (l : ParallelTransportUnpool_t) (x : tensor Q) (d : Data)
| Cat (xs : list (tensor Q)) (dim : Z)
| Magnitudes (x : tensor Q) (keepdim : bool)
| SumDim (x : tensor Q) (dim : Z)
| Dropout (x : tensor Q) (training : bool)
| LogSoftmax (x : tensor Q) (dim : Z)
(* optimisation *)
| ZeroGrad (groups : list param_group)
| NllLoss (input : tensor Q) (target : tensor Z)
| Backward (loss : tensor Q)
| Step (groups : list param_group)
(* console *)
| Print (m : message).

(** What a call returns. *)
Inductive value : Type :=
| VNone
| VTensor (t : tensor Q)
| VData (d : Data)
| VPooled (x : tensor Q) (d d_pooled : Data)
| VDataset (l : list Data).

(** ** Programs *)

Inductive Prog (R : Type) : Type :=
| Ret (r : R)
| Raise (e : Py.exn)
| Call (o : Op) (k : value -> Prog R).
Arguments Ret {R} r.
Arguments Raise {R} e.
Arguments Call {R} o k.

Fixpoint bind {A B} (p : Prog A) (f : A -> Prog B) : Prog B :=
  match p with
  | Ret a => f a
  | Raise e => Raise e
  | Call o k => Call o (fun v => bind (k v) f)
  end.

Notation "x <- p ;; q" := (bind p (fun x => q))
  (at level 100, p at next level, right associativity).
Notation "p ;;; q" := (bind p (fun _ => q))
  (at level 100, right associativity).

Definition lift {A} (r : Py.result A) : Prog A :=
  match r with
  | Ok a => Ret a
  | Raised e => Raise e
  end.

(** A call whose result is used as a tensor, a mesh sample, ...: a value
    of another kind makes the statement fail. *)
Definition call_tensor (o : Op) : Prog (tensor Q) :=
  Call o (fun v => match v with VTensor t => Ret t | _ => Raise Py.TypeError end).

Definition call_data (o : Op) : Prog Data :=
  Call o (fun v => match v with VData d => Ret d | _ => Raise Py.TypeError end).

Definition call_pooled (o : Op) : Prog (tensor Q * Data * Data) :=
  Call o (fun v => match v with
                   | VPooled x d dp => Ret (x, d, dp)
                   | _ => Raise Py.TypeError
                   end).

Definition call_dataset (o : Op) : Prog (list Data) :=
  Call o (fun v => match v with VDataset l => Ret l | _ => Raise Py.TypeError end).

Definition call_unit (o : Op) : Prog unit :=
  Call o (fun _ => Ret tt).

(** [for x in l: body(x)] *)
Fixpoint for_each {A} (l : list A) (body : A -> Prog unit) : Prog unit :=
  match l with
  | [] => Ret tt
  | x :: l' => body x ;;; for_each l' body
  end.

(** [for x in l: s = body(x, s)], for a loop that updates variables. *)
Fixpoint for_fold {A S} (l : list A) (body : A -> S -> Prog S) (s : S) : Prog S :=
  match l with
  | [] => Ret s
  | x :: l' => s' <- body x s ;; for_fold l' body s'
  end.

(** ** Environments and runs *)

Record env (St : Type) : Type := Env {
  answer : Op -> St -> Py.result (value * St)
}.

Definition event : Type := Op * value.

(** Running a program: the calls made, each with its answer, and the
    result, or the exception that ended the run. *)
Fixpoint run {St R} (E : env St) (p : Prog R) (s : St)
  : list event * Py.result (R * St) :=
  match p with
  | Ret r => ([], Ok (r, s))
  | Raise e => ([], Raised e)
  | Call o k =>
      match answer E o s with
      | Raised e => ([], Raised e)
      | Ok (v, s') =>
          let '(tr, res) := run E (k v) s' in ((o, v) :: tr, res)
      end
  end.

(** ** The notebook *)

(** *** Dataset cell *)

Definition path : string := String.append "data/" faust_dir.

Definition pre_transform : pre_transform_t :=
  PreTransform ratios radii true "target_to_source".

Definition scale0_transform : scale_transform_t :=
  ScaleTransform 0 (at_Q radii 0) n_rings max_order (at_Q radii 0).

Definition scale1_transform : scale_transform_t :=
  ScaleTransform 1 (at_Q radii 1) n_rings max_order (at_Q radii 1).

(** *** Network architecture cell *)

(** The attributes that [Net.__init__] sets, and the [training] flag
    that every [nn.Module] carries (set at construction, switched by
    [model.train()] and [model.eval()]). *)
Record Net : Type := MkNet {
  lin0 : Linear_t;
  resnet_block11 : HarmonicResNetBlock_t;
  resnet_block12 : HarmonicResNetBlock_t;
  pool : ParallelTransportPool_t;
  resnet_block21 : HarmonicResNetBlock_t;
  resnet_block22 : HarmonicResNetBlock_t;
  resnet_block31 : HarmonicResNetBlock_t;
  resnet_block32 : HarmonicResNetBlock_t;
  unpool : ParallelTransportUnpool_t;
  resnet_block41 : HarmonicResNetBlock_t;
  resnet_block42 : HarmonicResNetBlock_t;
  lin3 : Linear_t;
  lin4 : Linear_t;
  training : bool
}.

(** Modelled from the spec: the class [HarmonicResNetBlock] is not in the
    notebook.  A block built without [prev_order] accepts the full
    multi-order stream of the block before it. *)
Definition default_prev_order (max_order : nat) : nat := max_order.

(** Modelled from the spec: the class [HarmonicResNetBlock] is not in the
    notebook.  A block built without [last_layer] is not marked as the
    last layer. *)
Definition default_last_layer : bool := false.

(** [Net.__init__], with the global [num_nodes] it reads. *)
Definition Net_init (num_nodes : nat) : Net :=
  {| lin0 := Linear 3 (at_nat nf 0);
     resnet_block11 :=
       HarmonicResNetBlock (at_nat nf 0) (at_nat nf 0) max_order n_rings
         0 default_last_layer;
     resnet_block12 :=
       HarmonicResNetBlock (at_nat nf 0) (at_nat nf 0) max_order n_rings
         (default_prev_order max_order) default_last_layer;
     pool := ParallelTransportPool 1 scale1_transform;
     resnet_block21 :=
       HarmonicResNetBlock (at_nat nf 0) (at_nat nf 1) max_order n_rings
         (default_prev_order max_order) default_last_layer;
     resnet_block22 :=
       HarmonicResNetBlock (at_nat nf 1) (at_nat nf 1) max_order n_rings
         (default_prev_order max_order) default_last_layer;
     resnet_block31 :=
       HarmonicResNetBlock (at_nat nf 1) (at_nat nf 1) max_order n_rings
         (default_prev_order max_order) default_last_layer;
     resnet_block32 :=
       HarmonicResNetBlock (at_nat nf 1) (at_nat nf 1) max_order n_rings
         (default_prev_order max_order) default_last_layer;
     unpool := ParallelTransportUnpool 1;
     resnet_block41 :=
       HarmonicResNetBlock (at_nat nf 1 + at_nat nf 0) (at_nat nf 0) max_order n_rings
         (default_prev_order max_order) default_last_layer;
     resnet_block42 :=
       HarmonicResNetBlock (at_nat nf 0) (at_nat nf 0) max_order n_rings
         (default_prev_order max_order) true;
     lin3 := Linear (at_nat nf 0) 256;
     lin4 := Linear 256 num_nodes;
     training := true |}.

(** [block(x, *attributes)] *)
Definition call_block (l : HarmonicResNetBlock_t) (x : tensor Q)
    (attributes : tensor Q * tensor Q * tensor Q) : Prog (tensor Q) :=
  let '(edge_index, precomp, connection) := attributes in
  call_tensor (CallResNetBlock l x edge_index precomp connection).

(** [(d.edge_index, d.precomp, d.connection)] *)
Definition attributes_of (d : Data) : Prog (tensor Q * tensor Q * tensor Q) :=
  edge_index <- lift (getattr_result d "edge_index") ;;
  precomp <- lift (getattr_result d "precomp") ;;
  connection <- lift (getattr_result d "connection") ;;
  Ret (edge_index, precomp, connection).

(** [Net.forward] *)
Definition forward (self : Net) (data : Data) : Prog (tensor Q) :=
  x <- lift (getattr_result data "pos") ;;
  x <- call_tensor (CallLinear (lin0 self) x) ;;
  x <- call_tensor (Relu x) ;;
  z <- call_tensor (ZerosLike x) ;;
  x <- call_tensor (Stack [x; z] (-1)) ;;
  x <- call_tensor (Unsqueeze x 1) ;;
  (* Stack 1 *)
  data_scale0 <- call_data (Transform scale0_transform data) ;;
  attributes <- attributes_of data_scale0 ;;
  x <- call_block (resnet_block11 self) x attributes ;;
  x_prepool <- call_block (resnet_block12 self) x attributes ;;
  (* Pooling *)
  pooled <- call_pooled (CallPool (pool self) x_prepool data) ;;
  let '(x, data, data_pooled) := pooled in
  (* Stack 2 *)
  attributes_pooled <- attributes_of data_pooled ;;
  x <- call_block (resnet_block21 self) x attributes_pooled ;;
  x <- call_block (resnet_block22 self) x attributes_pooled ;;
  (* Stack 3 *)
  x <- call_block (resnet_block31 self) x attributes_pooled ;;
  x <- call_block (resnet_block32 self) x attributes_pooled ;;
  (* Unpooling *)
  x <- call_tensor (CallUnpool (unpool self) x data) ;;
  x <- call_tensor (Cat [x; x_prepool] 2) ;;
  (* Stack 4 *)
  x <- call_block (resnet_block41 self) x attributes ;;
  x <- call_block (resnet_block42 self) x attributes ;;
  (* Head *)
  x <- call_tensor (Magnitudes x false) ;;
  x <- call_tensor (SumDim x 1) ;;
  x <- call_tensor (CallLinear (lin3 self) x) ;;
  x <- call_tensor (Relu x) ;;
  x <- call_tensor (Dropout x (training self)) ;;
  x <- call_tensor (CallLinear (lin4 self) x) ;;
  call_tensor (LogSoftmax x 1).

(** *** Training cells *)

Definition device : string := "cuda".

(** [torch.optim.Adam(params, lr=lr)]: one parameter group, holding the
    given learning rate and Adam's defaults. *)
Definition Adam (lr : Q) : list param_group :=
  [ <["params" := HParams]>
    (<["lr" := HFloat lr]>
    (<["betas" := HPair (9 # 10) (999 # 1000)]>
    (<["eps" := HFloat (1 # 100000000)]>
    (<["weight_decay" := HFloat 0]>
    (<["amsgrad" := HBool false]> ∅))))) ].

(** The global variables of the notebook that the later cells use.
    [optimizer] is the optimizer's [param_groups]. *)
Record Notebook : Type := MkNotebook {
  train_dataset : list Data;
  test_dataset : list Data;
  train_loader : DataLoader_t;
  test_loader : DataLoader_t;
  num_nodes : nat;
  model : Net;
  optimizer : list param_group;
  target : tensor Z
}.

Definition set_training (b : bool) (m : Net) : Net :=
  {| lin0 := lin0 m;
     resnet_block11 := resnet_block11 m; resnet_block12 := resnet_block12 m;
     pool := pool m;
     resnet_block21 := resnet_block21 m; resnet_block22 := resnet_block22 m;
     resnet_block31 := resnet_block31 m; resnet_block32 := resnet_block32 m;
     unpool := unpool m;
     resnet_block41 := resnet_block41 m; resnet_block42 := resnet_block42 m;
     lin3 := lin3 m; lin4 := lin4 m;
     training := b |}.

Definition with_model (m : Net) (nb : Notebook) : Notebook :=
  {| train_dataset := train_dataset nb; test_dataset := test_dataset nb;
     train_loader := train_loader nb; test_loader := test_loader nb;
     num_nodes := num_nodes nb; model := m;
     optimizer := optimizer nb; target := target nb |}.

Definition with_optimizer (groups : list param_group) (nb : Notebook) : Notebook :=
  {| train_dataset := train_dataset nb; test_dataset := test_dataset nb;
     train_loader := train_loader nb; test_loader := test_loader nb;
     num_nodes := num_nodes nb; model := model nb;
     optimizer := groups; target := target nb |}.

(** The dataset cell and the optimizer cell. *)
Definition setup : Prog Notebook :=
  train_dataset <- call_dataset (FAUST path true pre_transform) ;;
  test_dataset <- call_dataset (FAUST path false pre_transform) ;;
  train_loader <- lift (DataLoader_init train_dataset batch_size true) ;;
  test_loader <- lift (DataLoader_init test_dataset batch_size false) ;;
  first <- lift (Py.index train_dataset 0) ;;
  num_nodes <- lift (data_num_nodes first) ;;
  let model := Net_init num_nodes in
  call_unit (ModuleTo device) ;;;
  let optimizer := Adam (1 # 100) in
  let target := Torch.arange num_nodes in
  Ret (MkNotebook train_dataset test_dataset train_loader test_loader
         num_nodes model optimizer target).

(** [for param_group in groups: param_group['lr'] = lr] *)
Definition set_lr (lr : Q) (groups : list param_group) : list param_group :=
  map (fun param_group : param_group => <["lr" := HFloat lr]> param_group) groups.

(** The body of the batch loop of [train].  [progressbar.progressbar]
    yields the items of the iterable it wraps; iterating over a loader
    is one call that returns the batches of the pass. *)
Definition train_batch (nb : Notebook) (data : Data) : Prog unit :=
  data <- call_data (DataTo data device) ;;
  call_unit (ZeroGrad (optimizer nb)) ;;;
  out <- forward (model nb) data ;;
  loss <- call_tensor (NllLoss out (target nb)) ;;
  call_unit (Backward loss) ;;;
  call_unit (Step (optimizer nb)).

(** [train(epoch)] *)
Definition train (epoch : Z) (nb : Notebook) : Prog Notebook :=
  let nb := with_model (set_training true (model nb)) nb in
  let nb :=
    if epoch =? 60 then with_optimizer (set_lr (1 # 1000) (optimizer nb)) nb
    else nb in
  batches <- call_dataset (Iter (train_loader nb)) ;;
  for_each batches (train_batch nb) ;;;
  Ret nb.

(** [for epoch in epochs: print('Epoch {}'.format(epoch)); train(epoch)] *)
Definition epoch_loop (epochs : list Z) (nb : Notebook) : Prog Notebook :=
  for_fold epochs
    (fun epoch nb => call_unit (Print (EpochMessage epoch)) ;;; train epoch nb)
    nb.

(** The cell "Train for 100 epochs". *)
Definition train_all (nb : Notebook) : Prog Notebook :=
  epoch_loop (Py.range 100) nb.

(** *** Testing cells *)

(** The body of the loop of [test]. *)
Definition test_batch (nb : Notebook) (item : Z * Data) (correct : Z) : Prog Z :=
  let '(i, data) := item in
  data <- call_data (DataTo data device) ;;
  out <- forward (model nb) data ;;
  m <- lift (Torch.max1 out) ;;
  let pred := snd m in
  mask <- lift (Torch.eq pred (target nb)) ;;
  Ret (correct + Torch.sum_item mask).

(** [test()]: the accuracy, and the notebook with the model switched to
    evaluation mode. *)
Definition test (nb : Notebook) : Prog (Q * Notebook) :=
  let nb := with_model (set_training false (model nb)) nb in
  let correct := 0 in
  batches <- call_dataset (Iter (test_loader nb)) ;;
  correct <- for_fold (Py.enumerate batches) (test_batch nb) correct ;;
  acc <- lift (Py.truediv correct
                 (Z.of_nat (length (test_dataset nb)) * Z.of_nat (num_nodes nb))) ;;
  Ret (acc, nb).

(** The whole notebook, top to bottom. *)
Definition notebook : Prog Notebook :=
  nb <- setup ;;
  nb <- train_all nb ;;
  r <- test nb ;;
  let '(test_acc, nb) := r in
  call_unit (Print (TestMessage test_acc)) ;;;
  Ret nb.

(** ** The shape contract of the libraries

    What the notebook relies on when it wires the layers together: the
    shape of what each call returns, as a function of the shapes it is
    given.  A feature tensor of the network has the layout
    [[vertices; streams; channels; 2]]: one stream per rotation order,
    and a last axis for the real and imaginary parts. *)

Module Contract.

(** A dimension argument, counted from the end when negative, among
    [n] positions. *)
Definition norm_dim (dim : Z) (n : nat) : option nat :=
  if (0 <=? dim) && (dim <? Z.of_nat n) then Some (Z.to_nat dim)
  else if (- Z.of_nat n <=? dim) && (dim <? 0) then Some (Z.to_nat (dim + Z.of_nat n))
  else None.

Definition insert_at (i x : nat) (s : list nat) : list nat :=
  take i s ++ x :: drop i s.

Definition remove_at (i : nat) (s : list nat) : list nat :=
  take i s ++ drop (S i) s.

Definition same_shapes (xs : list (tensor Q)) (s : list nat) : bool :=
  forallb (fun x => bool_decide (shape x = s)) xs.

(** [torch.stack(xs, dim)]: a new axis of size [len(xs)]. *)
Definition stack_shape (xs : list (tensor Q)) (dim : Z) : option (list nat) :=
  match xs with
  | [] => None
  | x :: _ =>
      if same_shapes xs (shape x) then
        match norm_dim dim (S (length (shape x))) with
        | Some i => Some (insert_at i (length xs) (shape x))
        | None => None
        end
      else None
  end.

(** [torch.cat(xs, dim)]: the sizes along [dim] add up, the other sizes
    agree. *)
Definition cat_shape (xs : list (tensor Q)) (dim : Z) : option (list nat) :=
  match xs with
  | [] => None
  | x :: _ =>
      match norm_dim dim (length (shape x)) with
      | Some i =>
          if forallb (fun y => bool_decide (length (shape y) = length (shape x)
                                             /\ remove_at i (shape y) = remove_at i (shape x))) xs
          then Some (take i (shape x)
                       ++ fold_right Nat.add 0%nat (map (fun y => nth i (shape y) 0%nat) xs)
                       :: drop (S i) (shape x))
          else None
      | None => None
      end
  end.

(** [nn.Linear]: the last axis goes from [in_features] to
    [out_features]. *)
Definition linear_shape (l : Linear_t) (s : list nat) : option (list nat) :=
  match rev s with
  | d :: r => if (d =? in_features l)%nat then Some (rev (out_features l :: r)) else None
  | [] => None
  end.

(** Modelled from the spec: the class [HarmonicResNetBlock] is not in
    the notebook.  A residual block maps a feature tensor to a new
    feature tensor of the specified output width, over the same
    vertices, with one stream per rotation order up to [max_order]; it
    accepts [prev_order + 1] streams of [in_channels] channels. *)
Definition block_shape (l : HarmonicResNetBlock_t) (s : list nat) : option (list nat) :=
  match s with
  | [v; streams; c; 2%nat] =>
      if (streams =? S (prev_order l))%nat && (c =? in_channels l)%nat
      then Some [v; S (rb_max_order l); out_channels l; 2%nat]
      else None
  | _ => None
  end.

(** Modelled from the spec: the class [ParallelTransportUnpool] is not
    in the notebook.  Unpooling broadcasts the coarse features back to
    the vertices of the mesh sample it is given; streams and channels
    are kept. *)
Definition unpool_shape (s : list nat) (d : Data) : option (list nat) :=
  match s, data_num_nodes d with
  | [_; streams; c; 2%nat], Ok v => Some [v; streams; c; 2%nat]
  | _, _ => None
  end.

(** Modelled from the spec: the function [magnitudes] is not in the
    notebook.  It takes the magnitude of each complex feature, which
    removes the last axis (or keeps it with size 1). *)
Definition magnitudes_shape (s : list nat) (keepdim : bool) : option (list nat) :=
  match rev s with
  | 2%nat :: r => Some (rev (if keepdim then 1%nat :: r else r))
  | _ => None
  end.

(** [x.sum(dim)] *)
Definition sum_shape (s : list nat) (dim : Z) : option (list nat) :=
  match norm_dim dim (length s) with
  | Some i => Some (remove_at i s)
  | None => None
  end.

(** [F.nll_loss(input, target)]: one row of class scores per target
    label; the mean loss is a scalar. *)
Definition nll_loss_shape (input : list nat) (target : list nat) : option (list nat) :=
  match input, target with
  | [v; _], [v'] => if (v =? v')%nat then Some [] else None
  | _, _ => None
  end.

(** The shape of the tensor a call returns; [None] for the calls that
    return something else, and where the shapes given do not fit. *)
Definition out_shape (o : Op) : option (list nat) :=
  match o with
  | CallLinear l x => linear_shape l (shape x)
  | Relu x | ZerosLike x | Dropout x _ => Some (shape x)
  | LogSoftmax x dim =>
      match norm_dim dim (length (shape x)) with
      | Some _ => Some (shape x)
      | None => None
      end
  | Stack xs dim => stack_shape xs dim
  | Unsqueeze x dim =>
      match norm_dim dim (S (length (shape x))) with
      | Some i => Some (insert_at i 1 (shape x))
      | None => None
      end
  | CallResNetBlock l x _ _ _ => block_shape l (shape x)
  | CallUnpool _ x d => unpool_shape (shape x) d
  | Cat xs dim => cat_shape xs dim
  | Magnitudes x keepdim => magnitudes_shape (shape x) keepdim
  | SumDim x dim => sum_shape (shape x) dim
  | NllLoss input target => nll_loss_shape (shape input) (shape target)
  | _ => None
  end.

Definition returns_tensor (o : Op) : bool :=
  match o with
  | CallLinear _ _ | Relu _ | ZerosLike _ | Dropout _ _ | LogSoftmax _ _
  | Stack _ _ | Unsqueeze _ _ | CallResNetBlock _ _ _ _ _ | CallUnpool _ _ _
  | Cat _ _ | Magnitudes _ _ | SumDim _ _ | NllLoss _ _ => true
  | _ => false
  end.

(** A mesh sample: [pos] holds three coordinates per vertex. *)
Definition mesh (d : Data) : Prop :=
  exists t v, d !! "pos" = Some t /\ shape t = [v; 3%nat].

(** A mesh sample that a scale transform has processed. *)
Definition has_attributes (d : Data) : Prop :=
  is_Some (d !! "edge_index") /\ is_Some (d !! "precomp")
  /\ is_Some (d !! "connection").

Definition same_pos (b d : Data) : Prop := b !! "pos" = d !! "pos".

(** The calls that succeed: those whose arguments fit. *)
Definition applicable (o : Op) : Prop :=
  match o with
  | CallPool _ x d => exists v streams c, shape x = [v; streams; c; 2%nat]
  | Iter loader => dl_batch_size loader = 1%nat
  | _ => if returns_tensor o then is_Some (out_shape o) else True
  end.

(** Modelled from the spec: the dataset class [FAUST] is not in the
    notebook.  A dataset is a collection of mesh samples. *)
Definition dataset_meets (v : value) : Prop :=
  exists l, v = VDataset l /\ Forall mesh l.

(** Iterating over a [DataLoader] with [batch_size = 1]: one batch per
    sample, with the tensors of the sample, in the order of the dataset
    unless the loader shuffles. *)
Definition loader_meets (loader : DataLoader_t) (v : value) : Prop :=
  exists batches samples,
    v = VDataset batches /\ Forall2 same_pos batches samples
    /\ samples ≡ₚ dataset loader
    /\ (dl_shuffle loader = false -> samples = dataset loader).

(** Modelled from the spec: the transform classes are not in the
    notebook.  A scale transform maps a mesh sample to an augmented
    mesh sample by attaching new named fields: the edges of the scale
    and the precomputed operator data. *)
Definition transform_meets (d : Data) (v : value) : Prop :=
  exists d', v = VData d' /\ has_attributes d' /\ same_pos d' d.

(** Modelled from the spec: the class [ParallelTransportPool] is not in
    the notebook.  Pooling returns the pooled features (fewer or as
    many vertices, the same streams and channels), the updated mesh
    sample (over the vertices of the one given) and the pooled mesh
    sample with the coarse scale's edges and operator data. *)
Definition pool_meets (x : tensor Q) (d : Data) (v : value) : Prop :=
  exists x' d' dp v',
    v = VPooled x' d' dp
    /\ shape x' = v' :: tail (shape x) /\ well_formed x'
    /\ data_num_nodes d' = data_num_nodes d
    /\ has_attributes dp.

(** What a call that succeeds returns. *)
Definition meets (o : Op) (v : value) : Prop :=
  match o with
  | FAUST _ _ _ => dataset_meets v
  | Iter loader => loader_meets loader v
  | DataTo d _ => v = VData d
  | Transform _ d => transform_meets d v
  | CallPool _ x d => pool_meets x d v
  | _ =>
      if returns_tensor o then
        match out_shape o with
        | Some s => exists r, v = VTensor r /\ shape r = s /\ well_formed r
        | None => True
        end
      else True
  end.

(** An environment that honours the contract: every call whose
    arguments fit succeeds and returns what the contract says. *)
Definition respects {St} (E : env St) : Prop :=
  forall o s, applicable o ->
    exists v s', answer E o s = Ok (v, s') /\ meets o v.

End Contract.

(** ** A reference environment

    An executable environment that honours the contract, used to run
    the notebook on concrete datasets.  It counts the calls it answers;
    the tensors it returns have the shape the contract prescribes and
    arbitrary contents; its pooling keeps a quarter of the vertices. *)

Module Reference.

Definition fill (s : list nat) : tensor Q :=
  Tensor s (map (fun i => inject_Z ((Z.of_nat i * 7) mod 5)) (seq 0 (numel s))).

Definition attach (scale : nat) (d : Data) : Data :=
  <["edge_index" := fill [2; scale]%nat]>
    (<["precomp" := fill [scale; 2; 2]%nat]>
       (<["connection" := fill [scale; 2]%nat]> d)).

Definition pooled_sample (v : nat) (d : Data) : Data :=
  attach 1 (<["pos" := fill [v; 3]%nat]> d).

Definition reply (train_set test_set : list Data) (o : Op) : Py.result value :=
  match o with
  | FAUST _ train _ => Ok (VDataset (if train then train_set else test_set))
  | Iter loader =>
      if (dl_batch_size loader =? 1)%nat
      then Ok (VDataset (if dl_shuffle loader then rev (dataset loader)
                         else dataset loader))
      else Raised Py.RuntimeError
  | DataTo d _ => Ok (VData d)
  | Transform t d => Ok (VData (attach (st_scale t) d))
  | CallPool _ x d =>
      match shape x with
      | [v; streams; c; 2%nat] =>
          let v' := ((v + 3) / 4)%nat in
          Ok (VPooled (fill [v'; streams; c; 2%nat])
                (<["cluster" := fill [v]]> d)
                (pooled_sample v' d))
      | _ => Raised Py.RuntimeError
      end
  | ModuleTo _ | ZeroGrad _ | Backward _ | Step _ | Print _ => Ok VNone
  | _ =>
      match Contract.out_shape o with
      | Some s => Ok (VTensor (fill s))
      | None => Raised Py.RuntimeError
      end
  end.

Definition environment (train_set test_set : list Data) : env nat :=
  Env (fun o count =>
         match reply train_set test_set o with
         | Ok v => Ok (v, S count)
         | Raised e => Raised e
         end).

(** A mesh sample with [v] vertices. *)
Definition sample (v : nat) : Data := <["pos" := fill [v; 3]%nat]> ∅.

End Reference.

(** ** Traces

    [holds good partial p Q]: under every environment, the trace of a run
    of [p] that returns satisfies [good] and the result satisfies [Q]; the
    trace of a run that an exception cuts short satisfies [partial]. *)

Definition holds (good partial : list event -> Prop) {R} (p : Prog R)
    (Q : R -> Prop) : Prop :=
  forall St (E : env St) (s : St),
    match run E p s with
    | (tr, Ok (r, _)) => good tr /\ Q r
    | (tr, Raised _) => partial tr
    end.

(** [always P p Q]: every call of every run of [p] satisfies [P]. *)
Definition always (P : event -> Prop) {R} (p : Prog R) (Q : R -> Prop) : Prop :=
  holds (Forall P) (Forall P) p Q.

(** The calls that [Net.forward] makes. *)
Definition layer_call (ev : event) : Prop :=
  match fst ev with
  | CallLinear _ _ | Relu _ | ZerosLike _ | Stack _ _ | Unsqueeze _ _
  | Transform _ _ | CallResNetBlock _ _ _ _ _ | CallPool _ _ _
  | CallUnpool _ _ _ | Cat _ _ | Magnitudes _ _ | SumDim _ _ | Dropout _ _
  | LogSoftmax _ _ => True
  | _ => False
  end.

(** The notebook's variables after the dataset and optimizer cells, for
    given datasets and vertex count. *)
Definition initial (train_set test_set : list Data) (n : nat) : Notebook :=
  MkNotebook train_set test_set
    (DataLoader train_set batch_size true) (DataLoader test_set batch_size false)
    n (Net_init n) (Adam (1 # 100)) (Torch.arange n).

(** The library calls that [train] makes when the optimizer's parameter
    groups are [groups] and the target is [tgt]: it iterates over the
    training loader and moves batches to the device; it runs the layers
    of the network; it calls [zero_grad], [nll_loss], [backward] and
    [step].  [zero_grad] and [backward] write the gradients of the
    model's parameters, and [step] writes the parameters and the
    optimizer's own state. *)
Definition training_call (nb : Notebook) (ev : event) : Prop :=
  match fst ev with
  | Iter loader => loader = train_loader nb
  | DataTo _ dev => dev = device
  | ZeroGrad groups | Step groups => groups = optimizer nb
  | NllLoss _ tgt => tgt = target nb
  | Backward _ => True
  | _ => layer_call ev
  end.

(** The notebook's variables when [train(epoch)] returns. *)
Definition after_train (epoch : Z) (nb : Notebook) : Notebook :=
  let nb := with_model (set_training true (model nb)) nb in
  if epoch =? 60 then with_optimizer (set_lr (1 # 1000) (optimizer nb)) nb else nb.

(** ** The learning-rate schedule *)

(** The schedule as the specification states it: the initial value for
    the epochs 0 to 59, the reduced value from epoch 60 on. *)
Definition lr_in_epoch (epoch : Z) : Q :=
  if epoch <? 60 then 1 # 100 else 1 # 1000.

(** Every parameter group of a (non-empty) list holds the learning rate
    [lr]. *)
Definition has_lr (lr : Q) (groups : list param_group) : Prop :=
  groups <> [] /\ Forall (fun g : param_group => g !! "lr" = Some (HFloat lr)) groups.

(** The parameter groups that each [optimizer.step()] of a trace works
    with, next to the epoch that the loop announced last. *)
Fixpoint lr_log (current : option Z) (tr : list event)
  : list (option Z * list param_group) :=
  match tr with
  | [] => []
  | (Print (EpochMessage epoch), _) :: tr' => lr_log (Some epoch) tr'
  | (Step groups, _) :: tr' => (current, groups) :: lr_log current tr'
  | _ :: tr' => lr_log current tr'
  end.

(** The learning rate in force when [train(epoch)] is called, before its
    [if epoch == 60]. *)
Definition lr_before (epoch : Z) : Q :=
  if epoch <=? 60 then 1 # 100 else 1 # 1000.

(** The library calls of the dataset and optimizer cells. *)
Definition setup_call (ev : event) : Prop :=
  match fst ev with
  | FAUST _ _ _ | ModuleTo _ => True
  | _ => False
  end.

(** An entry of [lr_log] that agrees with the schedule. *)
Definition on_schedule (first last : Z) (entry : option Z * list param_group) : Prop :=
  exists epoch,
    fst entry = Some epoch /\ first <= epoch <= last
    /\ has_lr (lr_in_epoch epoch) (snd entry).

(** ** The steps of the training loop *)

(** [fwd] is the trace of a forward pass of [self] on [data] that
    returns [out]. *)
Definition forward_pass (self : Net) (data : Data) (out : tensor Q)
    (fwd : list event) : Prop :=
  exists St (E : env St) (s s' : St),
    run E (forward self data) s = (fwd, Ok (out, s')).

(** The calls made for one batch: move the batch to the device, reset
    the gradients, forward pass, loss against the target, backward,
    one optimizer step. *)
Inductive batch_steps (self : Net) (groups : list param_group) (tgt : tensor Z)
    (batch : Data) : list event -> Prop :=
| BatchSteps (data : Data) (fwd : list event) (out loss : tensor Q)
    (v1 v2 v3 : value) :
    forward_pass self data out fwd ->
    batch_steps self groups tgt batch
      ((DataTo batch device, VData data) :: (ZeroGrad groups, v1) :: fwd
       ++ [(NllLoss out tgt, VTensor loss); (Backward loss, v2); (Step groups, v3)]).

(** The calls made for one epoch: the announcement, the iteration over
    the training loader, and the steps of each batch it yields, in
    order. *)
Inductive epoch_steps (loader : DataLoader_t) (self : Net) (tgt : tensor Z)
    (epoch : Z) : list event -> Prop :=
| EpochSteps (v : value) (batches : list Data) (groups : list param_group)
    (trs : list (list event)) :
    Forall2 (batch_steps self groups tgt) batches trs ->
    epoch_steps loader self tgt epoch
      ((Print (EpochMessage epoch), v) :: (Iter loader, VDataset batches) :: concat trs).

(** ** Forward passes *)

(** The values of a forward pass that ran to its end, named after the
    statements of [Net.forward] that produce them. *)
Record Pass : Type := MkPass {
  p_pos : tensor Q;
  p_lin0 : tensor Q;
  p_relu0 : tensor Q;
  p_zeros : tensor Q;
  p_stack : tensor Q;
  p_complex : tensor Q;
  p_data_scale0 : Data;
  p_attributes : tensor Q * tensor Q * tensor Q;
  p_block11 : tensor Q;
  p_prepool : tensor Q;
  p_pooled : tensor Q;
  p_data : Data;
  p_data_pooled : Data;
  p_attributes_pooled : tensor Q * tensor Q * tensor Q;
  p_block21 : tensor Q;
  p_block22 : tensor Q;
  p_block31 : tensor Q;
  p_block32 : tensor Q;
  p_unpooled : tensor Q;
  p_cat : tensor Q;
  p_block41 : tensor Q;
  p_block42 : tensor Q;
  p_magnitudes : tensor Q;
  p_sum : tensor Q;
  p_lin3 : tensor Q;
  p_relu3 : tensor Q;
  p_dropout : tensor Q;
  p_lin4 : tensor Q;
  p_out : tensor Q
}.

Definition block_event (l : HarmonicResNetBlock_t) (x : tensor Q)
    (attributes : tensor Q * tensor Q * tensor Q) (y : tensor Q) : event :=
  (CallResNetBlock l x (fst (fst attributes)) (snd (fst attributes)) (snd attributes),
   VTensor y).

(** The calls of the pass, in order, each with its answer. *)
Definition pass_trace (self : Net) (data : Data) (p : Pass) : list event :=
  [ (CallLinear (lin0 self) (p_pos p), VTensor (p_lin0 p));
    (Relu (p_lin0 p), VTensor (p_relu0 p));
    (ZerosLike (p_relu0 p), VTensor (p_zeros p));
    (Stack [p_relu0 p; p_zeros p] (-1), VTensor (p_stack p));
    (Unsqueeze (p_stack p) 1, VTensor (p_complex p));
    (Transform scale0_transform data, VData (p_data_scale0 p));
    block_event (resnet_block11 self) (p_complex p) (p_attributes p) (p_block11 p);
    block_event (resnet_block12 self) (p_block11 p) (p_attributes p) (p_prepool p);
    (CallPool (pool self) (p_prepool p) data,
     VPooled (p_pooled p) (p_data p) (p_data_pooled p));
    block_event (resnet_block21 self) (p_pooled p) (p_attributes_pooled p) (p_block21 p);
    block_event (resnet_block22 self) (p_block21 p) (p_attributes_pooled p) (p_block22 p);
    block_event (resnet_block31 self) (p_block22 p) (p_attributes_pooled p) (p_block31 p);
    block_event (resnet_block32 self) (p_block31 p) (p_attributes_pooled p) (p_block32 p);
    (CallUnpool (unpool self) (p_block32 p) (p_data p), VTensor (p_unpooled p));
    (Cat [p_unpooled p; p_prepool p] 2, VTensor (p_cat p));
    block_event (resnet_block41 self) (p_cat p) (p_attributes p) (p_block41 p);
    block_event (resnet_block42 self) (p_block41 p) (p_attributes p) (p_block42 p);
    (Magnitudes (p_block42 p) false, VTensor (p_magnitudes p));
    (SumDim (p_magnitudes p) 1, VTensor (p_sum p));
    (CallLinear (lin3 self) (p_sum p), VTensor (p_lin3 p));
    (Relu (p_lin3 p), VTensor (p_relu3 p));
    (Dropout (p_relu3 p) (training self), VTensor (p_dropout p));
    (CallLinear (lin4 self) (p_dropout p), VTensor (p_lin4 p));
    (LogSoftmax (p_lin4 p) 1, VTensor (p_out p)) ].

(** [(d.edge_index, d.precomp, d.connection)] when the three attributes
    are present. *)
Definition attributes (d : Data) : option (tensor Q * tensor Q * tensor Q) :=
  match d !! "edge_index", d !! "precomp", d !! "connection" with
  | Some edge_index, Some precomp, Some connection =>
      Some (edge_index, precomp, connection)
  | _, _, _ => None
  end.

(** The attribute reads of the pass. *)
Definition pass_reads (data : Data) (p : Pass) : Prop :=
  data !! "pos" = Some (p_pos p)
  /\ attributes (p_data_scale0 p) = Some (p_attributes p)
  /\ attributes (p_data_pooled p) = Some (p_attributes_pooled p).

(** The library calls that the notebook makes outside [Net.forward]. *)
Definition driver_call (o : Op) : Prop :=
  match o with
  | FAUST _ _ _ | Iter _ | DataTo _ _ | ModuleTo _ | ZeroGrad _ | NllLoss _ _
  | Backward _ | Step _ | Print _ => True
  | _ => False
  end.

(** ** Data flow of the forward pass *)

(** The residual-block calls of a trace: the layer and the attribute
    tuple it is given. *)
Fixpoint block_calls (tr : list event)
  : list (HarmonicResNetBlock_t * (tensor Q * tensor Q * tensor Q)) :=
  match tr with
  | [] => []
  | (CallResNetBlock l _ edge_index precomp connection, _) :: tr' =>
      (l, (edge_index, precomp, connection)) :: block_calls tr'
  | _ :: tr' => block_calls tr'
  end.

(** The eight block calls of a pass whose scale-0 attribute tuple is
    [a] and whose pooled attribute tuple is [ap]. *)
Definition expected_block_calls (self : Net) (a ap : tensor Q * tensor Q * tensor Q)
  : list (HarmonicResNetBlock_t * (tensor Q * tensor Q * tensor Q)) :=
  [ (resnet_block11 self, a); (resnet_block12 self, a);
    (resnet_block21 self, ap); (resnet_block22 self, ap);
    (resnet_block31 self, ap); (resnet_block32 self, ap);
    (resnet_block41 self, a); (resnet_block42 self, a) ].

(** The hand-over from pooling to unpooling along a trace.  [pending]
    is the mesh sample that the latest pooling call returned as its
    second result and that no unpooling call has taken yet.  An
    unpooling call must be given exactly the pending sample, and takes
    it: a later unpooling call needs a pooling call of its own. *)
Fixpoint handed_over (pending : option Data) (tr : list event)
    (final : option Data) : Prop :=
  match tr with
  | [] => final = pending
  | (CallPool _ _ _, VPooled _ d _) :: tr' => handed_over (Some d) tr' final
  | (CallUnpool _ _ d, _) :: tr' => pending = Some d /\ handed_over None tr' final
  | _ :: tr' => handed_over pending tr' final
  end.


(** ** Accuracy *)

(** The accuracy as the specification states it.  Row [i] of the
    model's output holds the scores of vertex [i]; the prediction for
    vertex [i] is correct iff the arg-max of its row is [i] itself. *)
Definition rows_of (out : tensor Q) : nat := nth 0 (shape out) 0%nat.
Definition columns_of (out : tensor Q) : nat := nth 1 (shape out) 0%nat.

Definition row (out : tensor Q) (i : nat) : list Q :=
  take (columns_of out) (drop (i * columns_of out) (data out)).

Definition correct_predictions (out : tensor Q) : Z :=
  Z.of_nat (length (List.filter (fun i => (Torch.argmax (row out i) =? i)%nat)
                      (seq 0 (rows_of out)))).

Definition total_correct (outs : list (tensor Q)) : Z :=
  fold_right Z.add 0 (map correct_predictions outs).

Definition spec_accuracy (outs : list (tensor Q)) (samples num_nodes : nat) : Q :=
  (inject_Z (total_correct outs) / inject_Z (Z.of_nat samples * Z.of_nat num_nodes))%Q.

(** The calls made by the loop of [test] over [batches]: each batch
    is moved to the device and given to the model; [outs] are the
    outputs of the model, one per batch, in order. *)
Inductive test_steps (self : Net)
  : list Data -> list (tensor Q) -> list event -> Prop :=
| TestDone : test_steps self [] [] []
| TestBatch (batch : Data) (out : tensor Q) (fwd : list event)
    (batches : list Data) (outs : list (tensor Q)) (tr : list event) :
    forward_pass self batch out fwd ->
    test_steps self batches outs tr ->
    test_steps self (batch :: batches) (out :: outs)
      ((DataTo batch device, VData batch) :: fwd ++ tr).

(** What [test] adds to [correct] for one output of the model. *)
Definition batch_correct (out : tensor Q) (tgt : tensor Z) : Py.result Z :=
  Py.bind (Torch.max1 out) (fun m =>
  Py.bind (Torch.eq (snd m) tgt) (fun mask =>
  Ok (Torch.sum_item mask))).

(** A mesh sample with [v] vertices. *)
Definition vertices (v : nat) (d : Data) : Prop :=
  exists pos, d !! "pos" = Some pos /\ shape pos = [v; 3%nat].

(** The notebook's variables in a state that the cells can reach: the
    datasets, the loaders over them, the network for [n] vertices in
    either mode, some parameter groups, the identity target. *)
Definition state_of (train_set test_set : list Data) (n : nat) (mode : bool)
    (groups : list param_group) : Notebook :=
  MkNotebook train_set test_set
    (DataLoader train_set batch_size true) (DataLoader test_set batch_size false)
    n (set_training mode (Net_init n)) groups (Torch.arange n).

(** ** Channels of the skip connection *)

(** The size of the channel axis of a feature tensor of layout
    [[vertices; streams; channels; 2]]. *)
Definition channels (t : tensor Q) : nat := nth 2 (shape t) 0%nat.

(** The claim that the concatenation doubles the channel count: its
    result has twice the channels of the unpooled features, or twice
    those of the saved pre-pooling features. *)
Definition concatenation_doubles (tr : list event) : Prop :=
  forall unpooled x_prepool x,
    In (Cat [unpooled; x_prepool] 2, VTensor x) tr ->
    channels x = (2 * channels unpooled)%nat
    \/ channels x = (2 * channels x_prepool)%nat.

(** [test] returns an accuracy that lies in [[0, 1]]. *)
Definition accuracy_well_defined {St} (E : env St) (s : St) (nb : Notebook) : Prop :=
  exists tr acc nb' s',
    run E (test nb) s = (tr, Ok ((acc, nb'), s')) /\ (0 <= acc <= 1)%Q.

(** ** The training loss *)

(** The losses along a trace.  [pending] is the output of the latest
    forward pass that no loss has used yet.  Every [nll_loss] call must
    be given exactly that output, and the target [tgt]. *)
Fixpoint losses_ok (tgt : tensor Z) (pending : option (tensor Q)) (tr : list event)
    (final : option (tensor Q)) : Prop :=
  match tr with
  | [] => final = pending
  | (LogSoftmax _ _, VTensor out) :: tr' => losses_ok tgt (Some out) tr' final
  | (NllLoss input target, _) :: tr' =>
      target = tgt /\ pending = Some input /\ losses_ok tgt None tr' final
  | _ :: tr' => losses_ok tgt pending tr' final
  end.


(** ** Calls of a forward pass and of the test function *)

(** What every call of [Net.forward] on [data] looks like, in a run
    that returns as in one that fails: it is a call of a layer or of a
    tensor function; the scale transform is [scale0_transform], applied
    to the argument of [forward]; pooling is given the same argument;
    dropout is given the module's [training] flag. *)
Definition forward_call (self : Net) (data : Data) (ev : event) : Prop :=
  layer_call ev
  /\ match fst ev with
     | Transform t d => t = scale0_transform /\ d = data
     | CallPool l _ d => l = pool self /\ d = data
     | Dropout _ flag => flag = training self
     | _ => True
     end.

(** A dropout call is given the flag [b]. *)
Definition dropout_flag (b : bool) (ev : event) : Prop :=
  match fst ev with
  | Dropout _ flag => flag = b
  | _ => True
  end.

(** The library calls that [test] makes: it iterates over the test
    loader, moves batches to the device and runs the layers of the
    network with dropout switched off.  Neither the optimizer nor the
    loss, [backward] or [print] is among them. *)
Definition testing_call (nb : Notebook) (ev : event) : Prop :=
  match fst ev with
  | Iter loader => loader = test_loader nb
  | DataTo _ dev => dev = device
  | Dropout _ flag => flag = false
  | _ => layer_call ev
  end.

(** The calls that compute the loss and update the parameters. *)
Definition optimizer_call (o : Op) : Prop :=
  match o with
  | ZeroGrad _ | NllLoss _ _ | Backward _ | Step _ => True
  | _ => False
  end.

(** ** The order of the optimizer's calls *)

(** Where a batch of training stands: nothing pending, gradients
    reset, a loss computed (with what [nll_loss] returned), gradients
    computed. *)
Inductive phase : Type :=
| Idle
| Zeroed
| Scored (loss : value)
| Backpropagated.

(** The order of the calls that update the parameters along a trace:
    [zero_grad] starts a batch; [nll_loss] needs the gradients reset;
    [backward] is called on the loss that the latest [nll_loss]
    returned; [step] needs the gradients of that [backward], and ends
    the batch.  [final] is where the trace stops. *)
Fixpoint optimizer_protocol (ph : phase) (tr : list event) (final : phase) : Prop :=
  match tr with
  | [] => final = ph
  | (ZeroGrad _, _) :: tr' => ph = Idle /\ optimizer_protocol Zeroed tr' final
  | (NllLoss _ _, v) :: tr' => ph = Zeroed /\ optimizer_protocol (Scored v) tr' final
  | (Backward loss, _) :: tr' =>
      ph = Scored (VTensor loss) /\ optimizer_protocol Backpropagated tr' final
  | (Step _, _) :: tr' => ph = Backpropagated /\ optimizer_protocol Idle tr' final
  | _ :: tr' => optimizer_protocol ph tr' final
  end.

(** ** Batches on the device *)

(** The mesh sample that the layers are given along a trace.
    [current] is what the latest [.to(device)] returned; the scale
    transform and the pooling layer must be given exactly that
    sample. *)
Fixpoint on_device (current : option Data) (tr : list event) : Prop :=
  match tr with
  | [] => True
  | (DataTo _ _, VData d) :: tr' => on_device (Some d) tr'
  | (DataTo _ _, _) :: tr' => on_device None tr'
  | (Transform _ d, _) :: tr' => current = Some d /\ on_device current tr'
  | (CallPool _ _ d, _) :: tr' => current = Some d /\ on_device current tr'
  | _ :: tr' => on_device current tr'
  end.

(** A call that moves no sample and, where it takes a mesh sample,
    takes [d]. *)
Definition sees (d : Data) (ev : event) : Prop :=
  match fst ev with
  | Transform _ d' | CallPool _ _ d' => d' = d
  | DataTo _ _ => False
  | _ => True
  end.

(** ** Console output *)

(** What a trace prints, in order. *)
Fixpoint printed (tr : list event) : list message :=
  match tr with
  | [] => []
  | (Print m, _) :: tr' => m :: printed tr'
  | _ :: tr' => printed tr'
  end.

(** ** Counting the optimizer's steps *)

(** The number of [optimizer.step()] calls of a trace. *)
Definition count_steps (tr : list event) : nat :=
  length (List.filter (fun ev : event => match fst ev with Step _ => true | _ => false end)
            tr).


(** ** Counting calls *)

(** The number of calls of a trace that [f] selects. *)
Definition count_calls (f : Op -> bool) (tr : list event) : nat :=
  length (List.filter (fun ev : event => f (fst ev)) tr).

Definition is_pool (o : Op) : bool :=
  match o with CallPool _ _ _ => true | _ => false end.

Definition is_unpool (o : Op) : bool :=
  match o with CallUnpool _ _ _ => true | _ => false end.

(** The call that ends a forward pass. *)
Definition is_log_softmax (o : Op) : bool :=
  match o with LogSoftmax _ _ => true | _ => false end.

Definition is_nll_loss (o : Op) : bool :=
  match o with NllLoss _ _ => true | _ => false end.


(** * Properties *)

(** ** Runs *)

Section Runs.

Context {St : Type} (E : env St).

Lemma run_bind {A B} (p : Prog A) (f : A -> Prog B) (s : St) :
  run E (bind p f) s =
  match run E p s with
  | (tr, Ok (a, s')) => let '(tr', res) := run E (f a) s' in (tr ++ tr', res)
  | (tr, Raised e) => (tr, Raised e)
  end.
Proof.
  revert s. induction p as [r | e | o k IH]; intros s; simpl.
  - destruct (run E (f r) s); reflexivity.
  - reflexivity.
  - destruct (answer E o s) as [[v s'] | e]; [| reflexivity].
    rewrite IH. destruct (run E (k v) s') as [tr [[a s''] | e]]; [| reflexivity].
    destruct (run E (f a) s''); reflexivity.
Qed.

Lemma run_lift {A} (r : Py.result A) (s : St) :
  run E (lift r) s =
  match r with
  | Ok a => ([], Ok (a, s))
  | Raised e => ([], Raised e)
  end.
Proof. destruct r; reflexivity. Qed.

End Runs.

(** ** A logic of traces

    [good] describes the trace of a part of the notebook that ran to its
    end, [partial] the trace of a part that an exception cut short.
    When both are closed under the concatenations below, a property of
    the parts carries over to sequences and loops. *)

Section Logic.

Variables good partial : list event -> Prop.
Local Abbreviation holds := (holds good partial).
Hypothesis good_nil : good [].
Hypothesis partial_nil : partial [].
Hypothesis good_app : forall a b, good a -> good b -> good (a ++ b).
Hypothesis partial_app : forall a b, good a -> partial b -> partial (a ++ b).


Lemma holds_ret {R} (r : R) (Q : R -> Prop) : Q r -> holds (Ret r) Q.
Proof. intros HQ St E s. simpl. auto. Qed.

Lemma holds_lift {R} (r : Py.result R) (Q : R -> Prop) :
  (forall a, r = Ok a -> Q a) -> holds (lift r) Q.
Proof. intros HQ St E s. rewrite run_lift. destruct r; auto. Qed.

Lemma holds_weaken {R} (p : Prog R) (Q Q' : R -> Prop) :
  holds p Q -> (forall r, Q r -> Q' r) -> holds p Q'.
Proof.
  intros Hp HQ St E s. specialize (Hp St E s).
  destruct (run E p s) as [tr [[r s'] | e]]; [| assumption].
  destruct Hp; auto.
Qed.

Lemma holds_bind {A B} (p : Prog A) (f : A -> Prog B) Q Q' :
  holds p Q -> (forall a, Q a -> holds (f a) Q') -> holds (bind p f) Q'.
Proof.
  intros Hp Hf St E s. rewrite run_bind. specialize (Hp St E s).
  destruct (run E p s) as [tr [[a s'] | e]].
  - destruct Hp as [Hg HQ]. specialize (Hf a HQ St E s').
    destruct (run E (f a) s') as [tr' [[b s''] | e]].
    + destruct Hf. auto.
    + auto.
  - exact Hp.
Qed.

Lemma holds_call {R} (o : Op) (k : value -> Prog R) Q :
  (forall v, good [(o, v)]) -> (forall v, holds (k v) Q) -> holds (Call o k) Q.
Proof.
  intros Ho Hk St E s. simpl.
  destruct (answer E o s) as [[v s'] | e]; [| assumption].
  specialize (Hk v St E s').
  destruct (run E (k v) s') as [tr [[r s''] | e]].
  - destruct Hk. split; [| assumption].
    change ((o, v) :: tr) with ([(o, v)] ++ tr). auto.
  - change ((o, v) :: tr) with ([(o, v)] ++ tr). auto.
Qed.

Lemma holds_raise {R} (e : Py.exn) (Q : R -> Prop) : holds (Raise e) Q.
Proof. intros St E s. simpl. assumption. Qed.

Lemma holds_call_tensor (o : Op) :
  (forall v, good [(o, v)]) -> holds (call_tensor o) (fun _ => True).
Proof.
  intros Ho. apply holds_call; [assumption |].
  intros [ | t | d | x d dp | l]; (apply holds_raise || apply holds_ret; exact I).
Qed.

Lemma holds_call_data (o : Op) :
  (forall v, good [(o, v)]) -> holds (call_data o) (fun _ => True).
Proof.
  intros Ho. apply holds_call; [assumption |].
  intros [ | t | d | x d dp | l]; (apply holds_raise || apply holds_ret; exact I).
Qed.

Lemma holds_call_dataset (o : Op) :
  (forall v, good [(o, v)]) -> holds (call_dataset o) (fun _ => True).
Proof.
  intros Ho. apply holds_call; [assumption |].
  intros [ | t | d | x d dp | l]; (apply holds_raise || apply holds_ret; exact I).
Qed.

Lemma holds_call_unit (o : Op) :
  (forall v, good [(o, v)]) -> holds (call_unit o) (fun _ => True).
Proof.
  intros Ho. apply holds_call; [assumption |].
  intros v. apply holds_ret. exact I.
Qed.

Lemma holds_for_each {A} (l : list A) (body : A -> Prog unit) :
  (forall x, In x l -> holds (body x) (fun _ => True)) ->
  holds (for_each l body) (fun _ => True).
Proof.
  induction l as [| x l IH]; intros Hb; simpl.
  - apply holds_ret. exact I.
  - apply holds_bind with (Q := fun _ => True).
    + apply Hb. left. reflexivity.
    + intros _ _. apply IH. intros y Hy. apply Hb. right. assumption.
Qed.

Lemma holds_for_fold {A S} (l : list A) (body : A -> S -> Prog S)
    (I : S -> Prop) (s : S) :
  (forall x s, In x l -> I s -> holds (body x s) I) ->
  I s -> holds (for_fold l body s) I.
Proof.
  revert s. induction l as [| x l IH]; intros s Hb Hs; simpl.
  - apply holds_ret. assumption.
  - apply holds_bind with (Q := I).
    + apply Hb; [left; reflexivity | assumption].
    + intros s' Hs'. apply IH; [| assumption].
      intros y t Hy Ht. apply Hb; [right |]; assumption.
Qed.

(** A property that every single call of the driver satisfies, and that
    every forward pass satisfies, holds of the whole notebook. *)

Hypothesis good_driver : forall o v, driver_call o -> good [(o, v)].
Hypothesis good_forward :
  forall self data, holds (forward self data) (fun _ => True).

Lemma holds_setup : holds setup (fun _ => True).
Proof.
  unfold setup.
  eapply holds_bind; [apply holds_call_dataset; intros; apply good_driver; exact I |].
  intros train_set _.
  eapply holds_bind; [apply holds_call_dataset; intros; apply good_driver; exact I |].
  intros test_set _.
  eapply holds_bind with (Q := fun _ => True); [apply holds_lift; auto |].
  intros train_loader _.
  eapply holds_bind with (Q := fun _ => True); [apply holds_lift; auto |].
  intros test_loader _.
  eapply holds_bind with (Q := fun _ => True); [apply holds_lift; auto |]. intros first _.
  eapply holds_bind with (Q := fun _ => True); [apply holds_lift; auto |]. intros n _.
  eapply holds_bind; [apply holds_call_unit; intros; apply good_driver; exact I |].
  intros _ _. apply holds_ret. exact I.
Qed.

Lemma holds_train_batch (nb : Notebook) (data : Data) :
  holds (train_batch nb data) (fun _ => True).
Proof.
  unfold train_batch.
  eapply holds_bind; [apply holds_call_data; intros; apply good_driver; exact I |].
  intros d _.
  eapply holds_bind; [apply holds_call_unit; intros; apply good_driver; exact I |].
  intros _ _.
  eapply holds_bind; [apply good_forward |]. intros out _.
  eapply holds_bind; [apply holds_call_tensor; intros; apply good_driver; exact I |].
  intros loss _.
  eapply holds_bind; [apply holds_call_unit; intros; apply good_driver; exact I |].
  intros _ _. apply holds_call_unit; intros; apply good_driver; exact I.
Qed.

Lemma holds_train (epoch : Z) (nb : Notebook) : holds (train epoch nb) (fun _ => True).
Proof.
  unfold train.
  eapply holds_bind; [apply holds_call_dataset; intros; apply good_driver; exact I |].
  intros batches _.
  eapply holds_bind; [apply holds_for_each; intros; apply holds_train_batch |].
  intros _ _. apply holds_ret. exact I.
Qed.

Lemma holds_epoch_loop (epochs : list Z) (nb : Notebook) :
  holds (epoch_loop epochs nb) (fun _ => True).
Proof.
  unfold epoch_loop. apply holds_for_fold; [| exact I].
  intros epoch nb0 _ _.
  eapply holds_bind; [apply holds_call_unit; intros; apply good_driver; exact I |].
  intros _ _. apply holds_train.
Qed.

Lemma holds_test_batch (nb : Notebook) (item : Z * Data) (correct : Z) :
  holds (test_batch nb item correct) (fun _ => True).
Proof.
  unfold test_batch. destruct item as [i data].
  eapply holds_bind; [apply holds_call_data; intros; apply good_driver; exact I |].
  intros d _.
  eapply holds_bind; [apply good_forward |]. intros out _.
  eapply holds_bind with (Q := fun _ => True); [apply holds_lift; auto |]. intros m _.
  eapply holds_bind with (Q := fun _ => True); [apply holds_lift; auto |]. intros mask _.
  apply holds_ret. exact I.
Qed.

Lemma holds_test (nb : Notebook) : holds (test nb) (fun _ => True).
Proof.
  unfold test.
  eapply holds_bind; [apply holds_call_dataset; intros; apply good_driver; exact I |].
  intros batches _.
  eapply holds_bind with (Q := fun _ => True).
  { apply holds_for_fold; [| exact I]. intros item correct _ _. apply holds_test_batch. }
  intros correct _.
  eapply holds_bind with (Q := fun _ => True); [apply holds_lift; auto |]. intros acc _.
  apply holds_ret. exact I.
Qed.

Lemma holds_notebook : holds notebook (fun _ => True).
Proof.
  unfold notebook.
  eapply holds_bind; [apply holds_setup |]. intros nb _.
  eapply holds_bind; [apply holds_epoch_loop |]. intros nb1 _.
  eapply holds_bind; [apply holds_test |]. intros [test_acc nb2] _.
  eapply holds_bind; [apply holds_call_unit; intros; apply good_driver; exact I |].
  intros _ _. apply holds_ret. exact I.
Qed.

End Logic.


(** Case analysis of a run of [forward]: the answer to each call in
    turn, and the kind of value it is. *)
Ltac forward_cases E :=
  repeat match goal with
    | |- context [answer E ?o ?s] =>
        let v := fresh "v" in
        let s' := fresh "s" in
        let Hans := fresh "Hans" in
        destruct (answer E o s) as [[v s'] | ?] eqn:Hans; cbn;
        [ destruct v; cbn | ]
    | |- context [getattr_result ?d ?n] =>
        let Hget := fresh "Hget" in
        unfold getattr_result at 1;
        destruct (d !! n) eqn:Hget; cbn
    end.

Lemma forward_layer_calls {St} (E : env St) (self : Net) (data : Data) (s : St) :
  Forall layer_call (fst (run E (forward self data) s)).
Proof.
  unfold forward, attributes_of, call_block. cbn.
  forward_cases E; repeat (constructor; [exact I |]); constructor.
Qed.

(** The instance of the logic for a property of every call of a trace. *)

Section Always.

Variable P : event -> Prop.
Local Abbreviation always := (always P).


Lemma Forall_event_app (a b : list event) :
  Forall P a -> Forall P b -> Forall P (a ++ b).
Proof. intros Ha Hb. apply Forall_app. split; assumption. Qed.

Lemma always_ret {R} (r : R) (Q : R -> Prop) : Q r -> always (Ret r) Q.
Proof. apply holds_ret. constructor. Qed.

Lemma always_lift {R} (r : Py.result R) (Q : R -> Prop) :
  (forall a, r = Ok a -> Q a) -> always (lift r) Q.
Proof. apply holds_lift; constructor. Qed.

Lemma always_bind {A B} (p : Prog A) (f : A -> Prog B) Q Q' :
  always p Q -> (forall a, Q a -> always (f a) Q') -> always (bind p f) Q'.
Proof. apply holds_bind; apply Forall_event_app. Qed.

Lemma always_weaken {R} (p : Prog R) (Q Q' : R -> Prop) :
  always p Q -> (forall r, Q r -> Q' r) -> always p Q'.
Proof. apply holds_weaken. Qed.

Lemma always_call (o : Op) :
  (forall v, P (o, v)) ->
  always (call_tensor o) (fun _ => True) /\ always (call_data o) (fun _ => True)
  /\ always (call_dataset o) (fun _ => True) /\ always (call_unit o) (fun _ => True).
Proof.
  intros Ho.
  assert (Hs : forall v, Forall P [(o, v)]) by (intros v; repeat constructor; apply Ho).
  repeat split.
  - apply holds_call_tensor; try assumption; try constructor; apply Forall_event_app.
  - apply holds_call_data; try assumption; try constructor; apply Forall_event_app.
  - apply holds_call_dataset; try assumption; try constructor; apply Forall_event_app.
  - apply holds_call_unit; try assumption; try constructor; apply Forall_event_app.
Qed.

Lemma always_for_each {A} (l : list A) (body : A -> Prog unit) :
  (forall x, In x l -> always (body x) (fun _ => True)) ->
  always (for_each l body) (fun _ => True).
Proof. apply holds_for_each; try constructor; apply Forall_event_app. Qed.

Lemma always_for_fold {A S} (l : list A) (body : A -> S -> Prog S)
    (I : S -> Prop) (s : S) :
  (forall x s, In x l -> I s -> always (body x s) I) ->
  I s -> always (for_fold l body s) I.
Proof. apply holds_for_fold; try constructor; apply Forall_event_app. Qed.

Lemma always_forward (self : Net) (data : Data) :
  (forall ev, layer_call ev -> P ev) ->
  always (forward self data) (fun _ => True).
Proof.
  intros HP St E s. pose proof (forward_layer_calls E self data s) as H.
  destruct (run E (forward self data) s) as [tr [[out s'] | e]]; simpl in H.
  - split; [| exact I]. eapply Forall_impl; eassumption.
  - eapply Forall_impl; eassumption.
Qed.

End Always.

(** ** The training function *)


Lemma train_batch_calls (nb : Notebook) (data : Data) :
  always (training_call nb) (train_batch nb data) (fun _ => True).
Proof.
  unfold train_batch.
  eapply always_bind; [apply always_call; intros v; reflexivity |]. intros d _.
  eapply always_bind; [apply always_call; intros v; reflexivity |]. intros _ _.
  eapply always_bind.
  { apply always_forward. intros [o v] H. unfold layer_call in H. simpl in H.
    unfold training_call. simpl. destruct o; try contradiction; exact I. }
  intros out _.
  eapply always_bind; [apply always_call; intros v; reflexivity |]. intros loss _.
  eapply always_bind; [apply always_call; intros v; exact I |]. intros _ _.
  apply always_call; intros v; reflexivity.
Qed.

Lemma train_calls (epoch : Z) (nb : Notebook) :
  always (training_call (after_train epoch nb)) (train epoch nb)
    (fun nb' => nb' = after_train epoch nb).
Proof.
  unfold train. fold (after_train epoch nb).
  set (nb1 := after_train epoch nb).
  eapply always_bind.
  { apply always_call. intros v. reflexivity. }
  intros batches _.
  eapply always_bind.
  { apply always_for_each. intros data _. apply train_batch_calls. }
  intros _ _. apply always_ret. reflexivity.
Qed.

(** C10: for every epoch other than 60, [train(epoch)] leaves the
    optimizer's learning rate unchanged.  Of the notebook's variables
    only the model's train/eval flag changes (every other variable,
    among them the parameter groups of the optimizer and the target,
    is what it was), and every library call of the run is a call that
    [training_call] lists: the optimizer's [zero_grad] and [step], both
    given the unchanged parameter groups, [backward], and calls that
    compute values. *)
Theorem train_frame {St} (E : env St) (s : St) (epoch : Z) (nb : Notebook) :
  epoch <> 60 ->
  let '(tr, res) := run E (train epoch nb) s in
  Forall (training_call nb) tr
  /\ match res with
     | Ok (nb', _) =>
         nb' = with_model (set_training true (model nb)) nb
         /\ optimizer nb' = optimizer nb
         /\ training (model nb') = true
     | Raised _ => True
     end.
Proof.
  intros Hne. pose proof (train_calls epoch nb E s) as H.
  assert (Heq : after_train epoch nb = with_model (set_training true (model nb)) nb).
  { unfold after_train. destruct (Z.eqb_spec epoch 60); [contradiction | reflexivity]. }
  rewrite Heq in H.
  assert (Hcalls : forall tr,
             Forall (training_call (with_model (set_training true (model nb)) nb)) tr ->
             Forall (training_call nb) tr).
  { intros tr Htr. eapply Forall_impl; [exact Htr |].
    intros [o v] Hev. destruct o; exact Hev. }
  destruct (run E (train epoch nb) s) as [tr [[nb' s'] | e]].
  - destruct H as [Htr ->]. split; [exact (Hcalls _ Htr) |]. repeat split.
  - split; [exact (Hcalls _ H) | exact I].
Qed.

Lemma train_frame_witness :
  3 <> 60
  /\ let '(tr, res) :=
       run (Reference.environment [Reference.sample 2] [])
         (train 3 (initial [Reference.sample 2] [] 2)) 0%nat in
     Forall (training_call (initial [Reference.sample 2] [] 2)) tr
     /\ match res with
        | Ok (nb', _) =>
            nb' = with_model (set_training true (model (initial [Reference.sample 2] [] 2)))
                    (initial [Reference.sample 2] [] 2)
            /\ optimizer nb' = optimizer (initial [Reference.sample 2] [] 2)
            /\ training (model nb') = true
        | Raised _ => True
        end.
Proof.
  split.
  - intros H. discriminate H.
  - apply (train_frame (Reference.environment [Reference.sample 2] []) 0%nat
             (epoch := 3) (initial [Reference.sample 2] [] 2)).
    intros H. discriminate H.
Defined.

(** ** The dataset and optimizer cells *)

Lemma setup_calls :
  always setup_call setup
    (fun nb => exists train_set test_set n first,
         nb = initial train_set test_set n
         /\ Py.index train_set 0 = Ok first
         /\ data_num_nodes first = Ok n).
Proof.
  unfold setup.
  eapply always_bind; [apply always_call; intros v; exact I |]. intros train_set _.
  eapply always_bind; [apply always_call; intros v; exact I |]. intros test_set _.
  eapply always_bind
    with (Q := fun loader => loader = DataLoader train_set batch_size true).
  { apply always_lift. intros a Ha. unfold DataLoader_init in Ha.
    destruct (true && _); congruence. }
  intros train_loader ->.
  eapply always_bind
    with (Q := fun loader => loader = DataLoader test_set batch_size false).
  { apply always_lift. intros a Ha. unfold DataLoader_init in Ha.
    simpl in Ha. congruence. }
  intros test_loader ->.
  eapply always_bind with (Q := fun first => Py.index train_set 0 = Ok first).
  { apply always_lift. intros a Ha. exact Ha. }
  intros first Hfirst.
  eapply always_bind with (Q := fun n => data_num_nodes first = Ok n).
  { apply always_lift. intros a Ha. exact Ha. }
  intros n Hn.
  eapply always_bind; [apply always_call; intros v; exact I |]. intros _ _.
  apply always_ret. exists train_set, test_set, n, first. repeat split; assumption.
Qed.

Lemma Adam_has_lr (lr : Q) : has_lr lr (Adam lr).
Proof.
  split; [discriminate |]. unfold Adam. constructor; [| constructor].
  rewrite lookup_insert_ne by discriminate. apply lookup_insert_eq.
Qed.

Lemma set_lr_has_lr (lr : Q) (groups : list param_group) :
  groups <> [] -> has_lr lr (set_lr lr groups).
Proof.
  intros Hne. split.
  - destruct groups; [contradiction | discriminate].
  - unfold set_lr. apply List.Forall_forall. intros g Hg.
    apply in_map_iff in Hg. destruct Hg as (g0 & <- & _). apply lookup_insert_eq.
Qed.

(** ** The schedule *)

Lemma after_train_lr (epoch : Z) (nb : Notebook) :
  has_lr (lr_before epoch) (optimizer nb) ->
  has_lr (lr_in_epoch epoch) (optimizer (after_train epoch nb))
  /\ has_lr (lr_before (epoch + 1)) (optimizer (after_train epoch nb)).
Proof.
  intros H. unfold after_train, lr_in_epoch, lr_before in *.
  destruct (Z.eqb_spec epoch 60) as [-> | Hne]; simpl.
  - split; apply set_lr_has_lr; apply H.
  - destruct (Z.ltb_spec epoch 60), (Z.leb_spec epoch 60), (Z.leb_spec (epoch + 1) 60);
      try lia; split; exact H.
Qed.

Lemma lr_log_training (nb : Notebook) (current : option Z) (tr rest : list event) :
  Forall (training_call nb) tr ->
  lr_log current (tr ++ rest) = lr_log current tr ++ lr_log current rest
  /\ Forall (fun entry => entry = (current, optimizer nb)) (lr_log current tr).
Proof.
  induction 1 as [| [o v] tr Hev Htr [IH1 IH2]]; simpl.
  - split; [reflexivity | constructor].
  - unfold training_call, layer_call in Hev; simpl in Hev.
    destruct o; try contradiction; try (split; assumption).
    subst groups. split; [simpl; f_equal; exact IH1 | constructor; [reflexivity | exact IH2]].
Qed.

Lemma lr_log_setup (current : option Z) (tr rest : list event) :
  Forall setup_call tr -> lr_log current (tr ++ rest) = lr_log current rest.
Proof.
  induction 1 as [| [o v] tr Hev Htr IH]; simpl; [reflexivity |].
  unfold setup_call in Hev; simpl in Hev. destruct o; try contradiction; exact IH.
Qed.

Lemma epoch_loop_schedule {St} (E : env St) (n : nat) :
  forall (a : nat) (nb : Notebook) (s : St) (current : option Z),
    has_lr (lr_before (Z.of_nat a)) (optimizer nb) ->
    let '(tr, res) := run E (epoch_loop (map Z.of_nat (seq a n)) nb) s in
    Forall (on_schedule (Z.of_nat a) (Z.of_nat (a + n) - 1)) (lr_log current tr)
    /\ match res with
       | Ok (nb', _) => has_lr (lr_before (Z.of_nat (a + n))) (optimizer nb')
       | Raised _ => True
       end.
Proof.
  induction n as [| n IH]; intros a nb s current Hlr.
  - simpl. rewrite Nat.add_0_r. split; [constructor | exact Hlr].
  - unfold epoch_loop in *. cbn [seq map for_fold]. rewrite !run_bind.
    cbn [call_unit run].
    destruct (answer E (Print (EpochMessage (Z.of_nat a))) s) as [[v s1] | e];
      [| split; [constructor | exact I]].
    pose proof (train_calls (Z.of_nat a) nb E s1) as Htrain.
    destruct (run E (train (Z.of_nat a) nb) s1) as [tr1 [[nb1 s2] | e]].
    + destruct Htrain as [Hcalls ->].
      destruct (after_train_lr (Z.of_nat a) nb Hlr) as [Hin Hnext].
      replace (Z.of_nat a + 1) with (Z.of_nat (S a)) in Hnext by lia.
      specialize (IH (S a) (after_train (Z.of_nat a) nb) s2 (Some (Z.of_nat a)) Hnext).
      destruct (run E (for_fold (map Z.of_nat (seq (S a) n)) _ _) s2) as [tr2 res].
      simpl.
      destruct (lr_log_training (Some (Z.of_nat a)) tr2 Hcalls) as [-> Hsame].
      destruct IH as [IHlog IHres].
      replace (a + S n)%nat with (S a + n)%nat by lia.
      split; [| exact IHres].
      apply Forall_app. split.
      * eapply Forall_impl; [exact Hsame |]. intros entry ->.
        exists (Z.of_nat a). simpl. repeat split; try lia. apply Hin. apply Hin.
      * eapply Forall_impl; [exact IHlog |].
        intros entry (epoch & He & Hrange & Hl). exists epoch.
        repeat split; try lia; try assumption; apply Hl.
    + simpl. split; [| exact I].
      destruct (lr_log_training (Some (Z.of_nat a)) [] Htrain) as [_ Hsame].
      eapply Forall_impl; [exact Hsame |]. intros entry ->.
      destruct (after_train_lr (Z.of_nat a) nb Hlr) as [Hin _].
      exists (Z.of_nat a). simpl. repeat split; try lia. apply Hin. apply Hin.
Qed.

(** C1: the optimizer's learning rate is the initial value 0.01 in every
    epoch 0..59 and the reduced value 0.001 in every epoch 60..99.  For
    every environment and the notebook run from its first cell:
    - every [optimizer.step()] of the 100-epoch loop happens in an
      announced epoch 0..99 and works with parameter groups that all hold
      the learning rate the schedule gives for that epoch;
    - when the epochs [0..e] have run, the parameter groups hold the
      learning rate of epoch [e];
    - a call [train(epoch)] changes the parameter groups exactly when
      [epoch] is 60, where it sets the learning rate 0.001 before its
      first batch; no other call changes them. *)
Theorem learning_rate_schedule {St} (E : env St) (s : St) :
  Forall (on_schedule 0 99)
    (lr_log None (fst (run E (nb <- setup ;; train_all nb) s)))
  /\ (forall e : nat,
        match snd (run E (nb <- setup ;; epoch_loop (Py.range (S e)) nb) s) with
        | Ok (nb', _) => has_lr (lr_in_epoch (Z.of_nat e)) (optimizer nb')
        | Raised _ => True
        end)
  /\ (forall (epoch : Z) (nb : Notebook) (s1 : St),
        let '(tr, res) := run E (train epoch nb) s1 in
        Forall (fun entry => snd entry =
                  if epoch =? 60 then set_lr (1 # 1000) (optimizer nb) else optimizer nb)
          (lr_log None tr)
        /\ match res with
           | Ok (nb', _) =>
               optimizer nb' =
               if epoch =? 60 then set_lr (1 # 1000) (optimizer nb) else optimizer nb
           | Raised _ => True
           end).
Proof.
  assert (Hloop : forall k : nat,
             let '(tr, res) := run E (nb <- setup ;; epoch_loop (Py.range k) nb) s in
             Forall (on_schedule 0 (Z.of_nat k - 1)) (lr_log None tr)
             /\ match res with
                | Ok (nb', _) => has_lr (lr_before (Z.of_nat k)) (optimizer nb')
                | Raised _ => True
                end).
  { intros k. rewrite run_bind. pose proof (setup_calls E s) as Hsetup.
    destruct (run E setup s) as [tr0 [[nb s0] | e]].
    - destruct Hsetup as [Hcalls (train_set & test_set & n & first & -> & _)].
      pose proof (epoch_loop_schedule E k 0 (initial train_set test_set n) s0 None
                    (Adam_has_lr (1 # 100))) as H.
      unfold Py.range.
      destruct (run E (epoch_loop (map Z.of_nat (seq 0 k)) _) s0) as [tr res].
      rewrite (lr_log_setup None tr Hcalls). exact H.
    - rewrite <- (app_nil_r tr0), (lr_log_setup None [] Hsetup).
      split; [constructor | exact I]. }
  split; [| split].
  - specialize (Hloop 100%nat). unfold train_all.
    destruct (run E (nb <- setup ;; epoch_loop (Py.range 100) nb) s) as [tr res].
    apply Hloop.
  - intros e. specialize (Hloop (S e)).
    destruct (run E (nb <- setup ;; epoch_loop (Py.range (S e)) nb) s)
      as [tr [[nb' s'] | e']]; [| exact I].
    destruct Hloop as [_ H]. simpl.
    replace (lr_in_epoch (Z.of_nat e)) with (lr_before (Z.of_nat (S e))); [exact H |].
    unfold lr_in_epoch, lr_before.
    destruct (Z.leb_spec (Z.of_nat (S e)) 60), (Z.ltb_spec (Z.of_nat e) 60);
      try lia; reflexivity.
  - intros epoch nb s1. pose proof (train_calls epoch nb E s1) as H.
    assert (Hopt : optimizer (after_train epoch nb) =
                   if epoch =? 60 then set_lr (1 # 1000) (optimizer nb) else optimizer nb).
    { unfold after_train. destruct (epoch =? 60); reflexivity. }
    rewrite <- Hopt.
    destruct (run E (train epoch nb) s1) as [tr [[nb' s'] | e]].
    + destruct H as [Hcalls ->]. split; [| reflexivity].
      destruct (lr_log_training None [] Hcalls) as [_ Hsame].
      eapply Forall_impl; [exact Hsame |]. intros entry ->. reflexivity.
    + split; [| exact I].
      destruct (lr_log_training None [] H) as [_ Hsame].
      eapply Forall_impl; [exact Hsame |]. intros entry ->. reflexivity.
Qed.

(** ** The steps of the training loop *)

Lemma run_for_each_inv {St A} (E : env St) (body : A -> Prog unit) (l : list A) :
  forall (s s' : St) (tr : list event) (u : unit),
    run E (for_each l body) s = (tr, Ok (u, s')) ->
    exists trs,
      tr = concat trs
      /\ Forall2 (fun x t => exists s1 s2 u, run E (body x) s1 = (t, Ok (u, s2))) l trs.
Proof.
  induction l as [| x l IH]; intros s s' tr u H; simpl in H.
  - inversion H; subst. exists []. split; [reflexivity | constructor].
  - rewrite run_bind in H.
    destruct (run E (body x) s) as [t [[u1 s1] | e]] eqn:Hx; [| discriminate].
    destruct (run E (for_each l body) s1) as [tr' [[u2 s2] | e]] eqn:Hl;
      [| discriminate].
    inversion H; subst. destruct (IH _ _ _ _ Hl) as (trs & -> & Hall).
    exists (t :: trs). split; [reflexivity |].
    constructor; [| exact Hall]. exists s, s1, u1. exact Hx.
Qed.

Lemma train_batch_inv {St} (E : env St) (nb : Notebook) (batch : Data)
    (s s' : St) (t : list event) (u : unit) :
  run E (train_batch nb batch) s = (t, Ok (u, s')) ->
  batch_steps (model nb) (optimizer nb) (target nb) batch t.
Proof.
  unfold train_batch, call_data, call_unit, call_tensor. cbn [bind].
  cbn [run]. intros H.
  destruct (answer E (DataTo batch device) s) as [[v s1] | e]; [| discriminate].
  destruct v as [ | | data | | ]; cbn [bind run] in H; try discriminate.
  destruct (answer E (ZeroGrad (optimizer nb)) s1) as [[v1 s2] | e];
    [| discriminate].
  rewrite run_bind in H.
  destruct (run E (forward (model nb) data) s2) as [fwd [[out s3] | e]] eqn:Hfwd;
    [| discriminate].
  cbn [run] in H.
  destruct (answer E (NllLoss out (target nb)) s3) as [[v s4] | e]; [| discriminate].
  destruct v as [ | loss | | | ]; cbn [bind run] in H; try discriminate.
  destruct (answer E (Backward loss) s4) as [[v2 s5] | e]; [| discriminate].
  cbn [bind run] in H.
  destruct (answer E (Step (optimizer nb)) s5) as [[v3 s6] | e]; [| discriminate].
  inversion H; subst.
  constructor. exists St, E, s2, s3. exact Hfwd.
Qed.

Lemma train_inv {St} (E : env St) (epoch : Z) (nb nb' : Notebook)
    (s s' : St) (tr : list event) :
  run E (train epoch nb) s = (tr, Ok (nb', s')) ->
  nb' = after_train epoch nb
  /\ exists batches trs,
       tr = (Iter (train_loader nb), VDataset batches) :: concat trs
       /\ Forall2 (batch_steps (set_training true (model nb)) (optimizer nb')
                     (target nb)) batches trs.
Proof.
  unfold train. fold (after_train epoch nb). set (nb1 := after_train epoch nb).
  assert (Hmodel : model nb1 = set_training true (model nb)).
  { unfold nb1, after_train. destruct (epoch =? 60); reflexivity. }
  assert (Htarget : target nb1 = target nb).
  { unfold nb1, after_train. destruct (epoch =? 60); reflexivity. }
  assert (Hloader : train_loader nb1 = train_loader nb).
  { unfold nb1, after_train. destruct (epoch =? 60); reflexivity. }
  rewrite Hloader. unfold call_dataset. cbn [bind run]. intros H.
  destruct (answer E (Iter (train_loader nb)) s) as [[v s1] | e]; [| discriminate].
  destruct v as [ | | | | batches]; cbn [bind run] in H; try discriminate.
  rewrite run_bind in H.
  destruct (run E (for_each batches (train_batch nb1)) s1)
    as [tr1 [[u s2] | e]] eqn:Hloop; [| discriminate].
  cbn [run] in H. inversion H; subst nb' s' tr. split; [reflexivity |].
  apply run_for_each_inv in Hloop. destruct Hloop as (trs & -> & Hall).
  exists batches, trs. rewrite app_nil_r. split; [reflexivity |].
  eapply Forall2_impl; [exact Hall |].
  intros batch t (sa & sb & ub & Hrun). apply train_batch_inv in Hrun.
  rewrite Hmodel, Htarget in Hrun. exact Hrun.
Qed.

Lemma epoch_loop_inv {St} (E : env St) (epochs : list Z) :
  forall (nb nb' : Notebook) (s s' : St) (tr : list event),
    run E (epoch_loop epochs nb) s = (tr, Ok (nb', s')) ->
    exists trs,
      tr = concat trs
      /\ Forall2 (epoch_steps (train_loader nb) (set_training true (model nb))
                    (target nb)) epochs trs.
Proof.
  unfold epoch_loop.
  induction epochs as [| epoch epochs IH]; intros nb nb' s s' tr H.
  - simpl in H. inversion H; subst. exists []. split; [reflexivity | constructor].
  - cbn [for_fold] in H. rewrite !run_bind in H. cbn [call_unit run] in H.
    destruct (answer E (Print (EpochMessage epoch)) s) as [[v s1] | e];
      [| discriminate].
    destruct (run E (train epoch nb) s1) as [tr1 [[nb1 s2] | e]] eqn:Htrain;
      [| discriminate].
    destruct (run E (for_fold epochs _ nb1) s2) as [tr2 [[nb2 s3] | e]] eqn:Hrest;
      [| discriminate].
    inversion H; subst.
    apply train_inv in Htrain. destruct Htrain as (-> & batches & trs1 & -> & Hall).
    apply IH in Hrest. destruct Hrest as (trs & -> & Hrest).
    exists (((Print (EpochMessage epoch), v)
             :: (Iter (train_loader nb), VDataset batches) :: concat trs1) :: trs).
    split; [reflexivity |]. constructor.
    + econstructor. exact Hall.
    + assert (Hsame : train_loader (after_train epoch nb) = train_loader nb
                      /\ set_training true (model (after_train epoch nb))
                         = set_training true (model nb)
                      /\ target (after_train epoch nb) = target nb).
      { unfold after_train. destruct (epoch =? 60); repeat split. }
      destruct Hsame as (-> & -> & ->) in Hrest. exact Hrest.
Qed.

(** ** Forward passes *)

(** A forward pass that returns made exactly the calls of
    [pass_trace], whatever the environment. *)
Lemma forward_inv {St} (E : env St) (self : Net) (data : Data)
    (s s' : St) (tr : list event) (out : tensor Q) :
  run E (forward self data) s = (tr, Ok (out, s')) ->
  exists p, tr = pass_trace self data p /\ out = p_out p /\ pass_reads data p.
Proof.
  unfold forward, attributes_of, call_block. cbn.
  forward_cases E; intros H; try discriminate H.
  inversion H; subst.
  match goal with
  | |- exists p, [ (CallLinear _ ?pos, VTensor ?l0); (_, VTensor ?r0); (_, VTensor ?z);
                   (_, VTensor ?st); (_, VTensor ?cx); (_, VData ?d0);
                   (CallResNetBlock _ _ ?a1 ?a2 ?a3, VTensor ?b11); (_, VTensor ?pre);
                   (_, VPooled ?px ?pd ?pdp);
                   (CallResNetBlock _ _ ?q1 ?q2 ?q3, VTensor ?b21); (_, VTensor ?b22);
                   (_, VTensor ?b31); (_, VTensor ?b32); (_, VTensor ?un);
                   (_, VTensor ?ct); (_, VTensor ?b41); (_, VTensor ?b42);
                   (_, VTensor ?mg); (_, VTensor ?sm); (_, VTensor ?l3);
                   (_, VTensor ?r3); (_, VTensor ?dr); (_, VTensor ?l4);
                   (_, VTensor ?o) ] = _ /\ _ =>
      exists (MkPass pos l0 r0 z st cx d0 (a1, a2, a3) b11 pre px pd pdp (q1, q2, q3)
                b21 b22 b31 b32 un ct b41 b42 mg sm l3 r3 dr l4 o)
  end.
  split; [reflexivity |]. split; [reflexivity |].
  unfold pass_reads, attributes. cbn.
  repeat match goal with H : _ !! _ = Some _ |- _ => rewrite H; clear H end.
  repeat split.
Qed.

(** C7: in every forward pass both decoder blocks are called with the
    scale-0 attribute tuple of the encoder blocks.  Under every
    environment the block calls of a pass are an initial part of the
    eight expected calls, in which [resnet_block41] and [resnet_block42]
    carry the same tuple [a] as [resnet_block11] and [resnet_block12];
    [a] holds the attributes of the sample that [scale0_transform]
    returned for the argument [data] of [forward], whatever sample the
    pooling call returned later; a pass that returns has made all eight
    calls. *)
Theorem decoder_blocks_use_scale0_attributes {St} (E : env St) (self : Net)
    (data : Data) (s : St) :
  let '(tr, res) := run E (forward self data) s in
  exists a ap,
    block_calls tr `prefix_of` expected_block_calls self a ap
    /\ (forall d0, In (Transform scale0_transform data, VData d0) tr ->
                   block_calls tr <> [] -> attributes d0 = Some a)
    /\ match res with
       | Ok _ => block_calls tr = expected_block_calls self a ap
       | Raised _ => True
       end.
Proof.
  unfold forward, attributes_of, call_block. cbn.
  forward_cases E;
    (eexists (_, _, _), (_, _, _); cbn [block_calls];
     split; [eexists; reflexivity |];
     split; [| first [exact I | reflexivity]];
     intros ? Hin Hne; first [contradiction Hne; reflexivity | idtac];
     cbn [In] in Hin;
     repeat (destruct Hin as [Hin | Hin]; [try discriminate Hin |]);
     try contradiction Hin;
     inversion Hin; subst; unfold attributes;
     repeat match goal with H : _ !! _ = Some _ |- _ => rewrite H; clear H end;
     reflexivity).
  Unshelve. all: exact (Tensor [] []).
Qed.

(** ** Pooling and unpooling *)

Lemma handed_over_app (a b : list event) :
  forall pending middle final,
    handed_over pending a middle -> handed_over middle b final ->
    handed_over pending (a ++ b) final.
Proof.
  induction a as [| [o v] a IH]; intros pending middle final Ha Hb; simpl in *.
  - subst middle. exact Hb.
  - destruct o; try (eapply IH; eassumption).
    + destruct v; eapply IH; eassumption.
    + destruct Ha as [Hp Ha]. split; [exact Hp |]. eapply IH; eassumption.
Qed.

Lemma forward_hands_over (self : Net) (data : Data) :
  holds (fun tr => handed_over None tr None)
        (fun tr => exists final, handed_over None tr final)
        (forward self data) (fun _ => True).
Proof.
  intros St E s. unfold forward, attributes_of, call_block. cbn.
  forward_cases E; cbn; eauto.
Qed.

Lemma count_calls_app (f : Op -> bool) (a b : list event) :
  count_calls f (a ++ b) = (count_calls f a + count_calls f b)%nat.
Proof. unfold count_calls. rewrite List.filter_app, length_app. reflexivity. Qed.

(** A forward pass that returns pooled once, then unpooled once, and
    gave the unpooling call the sample that the pooling call returned
    as its second result. *)
Lemma forward_pools_once {St} (E : env St) (self : Net) (data : Data)
    (s s' : St) (tr : list event) (out : tensor Q) :
  run E (forward self data) s = (tr, Ok (out, s')) ->
  exists before x pooled d d_pooled middle y unpooled after,
    tr = before
         ++ (CallPool (pool self) x data, VPooled pooled d d_pooled) :: middle
         ++ (CallUnpool (unpool self) y d, VTensor unpooled) :: after
    /\ Forall (fun ev => is_pool (fst ev) = false /\ is_unpool (fst ev) = false)
         (before ++ middle ++ after)
    /\ count_calls is_pool tr = 1%nat /\ count_calls is_unpool tr = 1%nat
    /\ count_calls is_log_softmax tr = 1%nat.
Proof.
  intros Hrun. apply forward_inv in Hrun. destruct Hrun as (p & -> & _ & _).
  exists (firstn 8 (pass_trace self data p)), (p_prepool p), (p_pooled p), (p_data p),
    (p_data_pooled p), (firstn 4 (skipn 9 (pass_trace self data p))), (p_block32 p),
    (p_unpooled p), (skipn 14 (pass_trace self data p)).
  split; [reflexivity |]. split; [| repeat split].
  unfold pass_trace, block_event. cbn [firstn skipn app].
  repeat (constructor; [split; reflexivity |]). constructor.
Qed.

(** C8: the unpooling call is given exactly the mesh sample that the
    pooling call of the same forward pass returned as its second
    result, and that sample is not used again.  Under every
    environment:
    - along the calls of a forward pass each unpooling call is given
      the sample of the latest pooling call, which no other unpooling
      call has taken; a pass that returns has made exactly one pooling
      call, on the argument of [forward], and after it exactly one
      unpooling call, on the second result of that pooling call;
    - the same hand-over holds along the calls of the whole notebook
      (every forward pass of training and of testing, one after the
      other); when the notebook returns, no sample is left pending,
      and it has pooled once and unpooled once per forward pass. *)
Theorem unpool_takes_sample_of_its_pool {St} (E : env St) (s : St) :
  (forall (self : Net) (data : Data),
      let '(tr, res) := run E (forward self data) s in
      exists final,
        handed_over None tr final
        /\ match res with
           | Ok _ =>
               final = None
               /\ exists before x pooled d d_pooled middle y unpooled after,
                    tr = before
                         ++ (CallPool (pool self) x data, VPooled pooled d d_pooled)
                         :: middle
                         ++ (CallUnpool (unpool self) y d, VTensor unpooled) :: after
                    /\ Forall (fun ev => is_pool (fst ev) = false
                                         /\ is_unpool (fst ev) = false)
                         (before ++ middle ++ after)
           | Raised _ => True
           end)
  /\ let '(tr, res) := run E notebook s in
     exists final,
       handed_over None tr final
       /\ match res with
          | Ok _ =>
              final = None
              /\ count_calls is_pool tr = count_calls is_log_softmax tr
              /\ count_calls is_unpool tr = count_calls is_log_softmax tr
          | Raised _ => True
          end.
Proof.
  set (good := fun tr : list event =>
                 handed_over None tr None
                 /\ count_calls is_pool tr = count_calls is_log_softmax tr
                 /\ count_calls is_unpool tr = count_calls is_log_softmax tr).
  set (partial := fun tr : list event => exists final, handed_over None tr final).
  assert (Hnil : good []) by (repeat split).
  assert (Hpartial_nil : partial []) by (exists None; reflexivity).
  assert (Hgood_app : forall a b, good a -> good b -> good (a ++ b)).
  { intros a b (Ha & Ha1 & Ha2) (Hb & Hb1 & Hb2). split; [| split].
    - eapply handed_over_app; eassumption.
    - rewrite !count_calls_app. lia.
    - rewrite !count_calls_app. lia. }
  assert (Hpartial_app : forall a b, good a -> partial b -> partial (a ++ b)).
  { intros a b (Ha & _) [final Hb]. exists final. eapply handed_over_app; eassumption. }
  assert (Hforward : forall self data,
             holds good partial (forward self data) (fun _ => True)).
  { intros self data St' E' s0. pose proof (forward_hands_over self data E' s0) as H.
    destruct (run E' (forward self data) s0) as [tr [[out s'] | e]] eqn:Hrun;
      [| exact H].
    destruct H as [H _].
    destruct (@forward_pools_once _ _ _ _ _ _ _ _ Hrun)
      as (? & ? & ? & ? & ? & ? & ? & ? & ? & _ & _ & Hp & Hu & Hl).
    split; [| exact I]. split; [exact H |]. rewrite Hp, Hu, Hl. split; reflexivity. }
  split.
  - intros self data. pose proof (forward_hands_over self data E s) as H.
    destruct (run E (forward self data) s) as [tr [[out s'] | e]] eqn:Hrun.
    + exists None. destruct H as [H _]. split; [exact H |]. split; [reflexivity |].
      destruct (@forward_pools_once _ _ _ _ _ _ _ _ Hrun)
        as (before & x & pooled & d & dp & middle & y & unpooled & after & Htr & Hrest & _).
      exists before, x, pooled, d, dp, middle, y, unpooled, after.
      split; assumption.
    + destruct H as [final H]. exists final. split; [exact H | exact I].
  - pose proof (holds_notebook Hnil Hpartial_nil Hgood_app Hpartial_app) as H.
    assert (Hdriver : forall o v, driver_call o -> good [(o, v)]).
    { intros o v Ho. destruct o; try contradiction Ho; repeat split. }
    specialize (H Hdriver Hforward St E s).
    destruct (run E notebook s) as [tr [[nb s'] | e]].
    + exists None. destruct H as [(H & Hp & Hu) _]. repeat split; assumption.
    + destruct H as [final H]. exists final. split; [exact H | exact I].
Qed.

(** ** Shapes under the contract *)

Lemma respects_tensor {St} (E : env St) (o : Op) (s : St) (sh : list nat) :
  Contract.respects E -> Contract.returns_tensor o = true ->
  Contract.out_shape o = Some sh ->
  exists r s', answer E o s = Ok (VTensor r, s') /\ shape r = sh /\ well_formed r.
Proof.
  intros HE Hret Hsh. destruct (HE o s) as (v & s' & Hans & Hm).
  - destruct o; try discriminate Hret;
      unfold Contract.applicable, Contract.returns_tensor; rewrite Hsh; eauto.
  - destruct o; try discriminate Hret;
      unfold Contract.meets, Contract.returns_tensor in Hm;
      rewrite Hsh in Hm; destruct Hm as (r & -> & Hr & Hwf); eauto.
Qed.

Ltac use_shapes :=
  repeat match goal with
    | H : shape _ = _ |- _ => rewrite H
    | H : data_num_nodes _ = _ |- _ => rewrite H
    end.

Ltac eval_dims :=
  repeat match goal with
    | |- context [Contract.norm_dim ?d ?n] =>
        let r := eval vm_compute in (Contract.norm_dim d n) in
        change (Contract.norm_dim d n) with r
    end.

(** One call that returns a tensor, answered by an environment that
    honours the contract: the call fits, and the answer has shape [sh]. *)
Ltac tensor_step HE sh :=
  match goal with
  | |- context [answer ?E ?o ?s] =>
      let r := fresh "r" in
      let s' := fresh "s" in
      let Hans := fresh "Hans" in
      let Hsh := fresh "Hsh" in
      let Hwf := fresh "Hwf" in
      destruct (respects_tensor (E:=E) o s (sh := sh) HE eq_refl)
        as (r & s' & Hans & Hsh & Hwf);
      [ cbn; use_shapes; eval_dims; cbn; use_shapes; cbn;
        repeat (rewrite bool_decide_eq_true_2 by (repeat split; reflexivity));
        reflexivity
      | rewrite Hans; clear Hans ]
  end.

Ltac attributes_step Hattr :=
  let e := fresh "edge_index" in
  let p := fresh "precomp" in
  let c := fresh "connection" in
  let He := fresh "He" in
  let Hp := fresh "Hp" in
  let Hc := fresh "Hc" in
  destruct Hattr as ([e He] & [p Hp] & [c Hc]);
  rewrite He, Hp, Hc.

(** Under the contract the layers of [Net] fit together: on a mesh
    sample with [v] vertices the forward pass returns, and its result
    has one row per vertex and [num_nodes] columns. *)
Lemma forward_contract {St} (E : env St) (n : nat) (b : bool) (data : Data)
    (pos : tensor Q) (v : nat) (s : St) :
  Contract.respects E -> data !! "pos" = Some pos -> shape pos = [v; 3%nat] ->
  exists p s',
    run E (forward (set_training b (Net_init n)) data) s
    = (pass_trace (set_training b (Net_init n)) data p, Ok (p_out p, s'))
    /\ pass_reads data p
    /\ shape (p_out p) = [v; n] /\ well_formed (p_out p)
    /\ shape (p_lin4 p) = [v; n]
    /\ shape (p_prepool p) = [v; 2; 16; 2]%nat
    /\ (exists v', shape (p_block32 p) = [v'; 2; 32; 2]%nat)
    /\ shape (p_unpooled p) = [v; 2; 32; 2]%nat
    /\ shape (p_cat p) = [v; 2; 48; 2]%nat.
Proof.
  intros HE Hpos Hshape.
  assert (Hnodes : data_num_nodes data = Ok v).
  { unfold data_num_nodes. rewrite Hpos, Hshape. reflexivity. }
  set (self := set_training b (Net_init n)).
  set (P := fun r : list event * Py.result (tensor Q * St) =>
              exists p s',
                r = (pass_trace self data p, Ok (p_out p, s'))
                /\ pass_reads data p
                /\ shape (p_out p) = [v; n] /\ well_formed (p_out p)
                /\ shape (p_lin4 p) = [v; n]
                /\ shape (p_prepool p) = [v; 2; 16; 2]%nat
                /\ (exists v', shape (p_block32 p) = [v'; 2; 32; 2]%nat)
                /\ shape (p_unpooled p) = [v; 2; 32; 2]%nat
                /\ shape (p_cat p) = [v; 2; 48; 2]%nat).
  change (P (run E (forward self data) s)).
  unfold self, forward, attributes_of, call_block, getattr_result.
  rewrite Hpos. cbn -[P].
  tensor_step HE [v; 16%nat]. cbn -[P].
  tensor_step HE [v; 16%nat]. cbn -[P].
  tensor_step HE [v; 16%nat]. cbn -[P].
  tensor_step HE [v; 16%nat; 2%nat]. cbn -[P].
  tensor_step HE [v; 1%nat; 16%nat; 2%nat]. cbn -[P].
  match goal with
  | |- context [answer E (Transform ?t ?d) ?s] =>
      destruct (HE (Transform t d) s) as (vT & sT & Hans & d0 & -> & Hattr & _);
      [exact I |]
  end.
  rewrite Hans; clear Hans. cbn -[P].
  attributes_step Hattr. cbn -[P].
  tensor_step HE [v; 2%nat; 16%nat; 2%nat]. cbn -[P].
  tensor_step HE [v; 2%nat; 16%nat; 2%nat]. cbn -[P].
  match goal with
  | |- context [answer E (CallPool ?l ?x ?d) ?s] =>
      destruct (HE (CallPool l x d) s)
        as (vP & sP & Hans & xp & d' & dp & v' & -> & Hshp & Hwfp & Hnodes' & Hattrp);
      [cbn; use_shapes; eauto |]
  end.
  rewrite Hans; clear Hans. cbn -[P].
  match type of Hshp with
  | _ = _ :: tail (shape ?t) =>
      match goal with H : shape t = _ |- _ => rewrite H in Hshp end
  end.
  cbn in Hshp. rewrite Hnodes in Hnodes'.
  attributes_step Hattrp. cbn -[P].
  tensor_step HE [v'; 2%nat; 32%nat; 2%nat]. cbn -[P].
  tensor_step HE [v'; 2%nat; 32%nat; 2%nat]. cbn -[P].
  tensor_step HE [v'; 2%nat; 32%nat; 2%nat]. cbn -[P].
  tensor_step HE [v'; 2%nat; 32%nat; 2%nat]. cbn -[P].
  tensor_step HE [v; 2%nat; 32%nat; 2%nat]. cbn -[P].
  tensor_step HE [v; 2%nat; 48%nat; 2%nat]. cbn -[P].
  tensor_step HE [v; 2%nat; 16%nat; 2%nat]. cbn -[P].
  tensor_step HE [v; 2%nat; 16%nat; 2%nat]. cbn -[P].
  tensor_step HE [v; 2%nat; 16%nat]. cbn -[P].
  tensor_step HE [v; 16%nat]. cbn -[P].
  tensor_step HE [v; 256%nat]. cbn -[P].
  tensor_step HE [v; 256%nat]. cbn -[P].
  tensor_step HE [v; 256%nat]. cbn -[P].
  tensor_step HE [v; n]. cbn -[P].
  tensor_step HE [v; n]. cbn -[P].
  unfold P.
  match goal with
  | |- exists p s',
        ([ (CallLinear _ ?pos, VTensor ?l0); (_, VTensor ?r0); (_, VTensor ?z);
           (_, VTensor ?st); (_, VTensor ?cx); (_, VData ?d0);
           (CallResNetBlock _ _ ?a1 ?a2 ?a3, VTensor ?b11); (_, VTensor ?pre);
           (_, VPooled ?px ?pd ?pdp);
           (CallResNetBlock _ _ ?q1 ?q2 ?q3, VTensor ?b21); (_, VTensor ?b22);
           (_, VTensor ?b31); (_, VTensor ?b32); (_, VTensor ?un);
           (_, VTensor ?ct); (_, VTensor ?b41); (_, VTensor ?b42);
           (_, VTensor ?mg); (_, VTensor ?sm); (_, VTensor ?l3);
           (_, VTensor ?r3); (_, VTensor ?dr); (_, VTensor ?l4);
           (_, VTensor ?o) ], Ok (_, ?sf)) = _ /\ _ =>
      exists (MkPass pos l0 r0 z st cx d0 (a1, a2, a3) b11 pre px pd pdp (q1, q2, q3)
                b21 b22 b31 b32 un ct b41 b42 mg sm l3 r3 dr l4 o), sf
  end.
  cbn. split; [reflexivity |]. split.
  { unfold pass_reads, attributes. cbn. rewrite Hpos, He, Hp, Hc, He0, Hp0, Hc0.
    repeat split. }
  repeat split; try assumption. exists v'. assumption.
Qed.

(** ** Arg-max, comparison and count *)

Lemma flat_map_singleton {A B} (f : A -> B) (l : list A) :
  flat_map (fun x => [f x]) l = map f l.
Proof. induction l as [| x l IH]; simpl; [reflexivity | f_equal; exact IH]. Qed.

Lemma lane_row (d : list Q) (n k : nat) :
  (k + n <= length d)%nat ->
  map (fun j => nth (k + j) d 0%Q) (seq 0 n) = take n (drop k d).
Proof.
  revert k. induction n as [| n IH]; intros k Hlen.
  - rewrite take_0. reflexivity.
  - rewrite seq_S, map_app. simpl.
    rewrite IH by lia.
    assert (Hk : (k + n < length d)%nat) by lia.
    rewrite (take_S_r (drop k d) n (nth (k + n) d 0%Q)).
    + reflexivity.
    + rewrite lookup_drop. apply lookup_lt_is_Some_2 in Hk as [x Hx].
      rewrite (nth_lookup_Some _ _ 0%Q _ Hx). exact Hx.
Qed.

Lemma max1_matrix (out : tensor Q) (v n : nat) :
  shape out = [v; n] -> n <> 0%nat ->
  exists values,
    Torch.max1 out =
    Ok (values,
        Tensor [v] (map (fun i => Z.of_nat (Torch.argmax (Torch.lane (data out) n 1 i 0)))
                      (seq 0 v))).
Proof.
  intros Hshape Hn. unfold Torch.max1. rewrite Hshape.
  destruct (Nat.eqb_spec n 0) as [-> | _]; [contradiction |].
  cbn [numel fold_right seq map]. rewrite flat_map_singleton, !map_map.
  eexists. reflexivity.
Qed.

Lemma lane_is_row (out : tensor Q) (v n i : nat) :
  shape out = [v; n] -> well_formed out -> (i < v)%nat ->
  Torch.lane (data out) n 1 i 0 = row out i.
Proof.
  intros Hshape Hwf Hi. unfold Torch.lane, row, columns_of. rewrite Hshape. simpl.
  unfold well_formed in Hwf. rewrite Hshape in Hwf. simpl in Hwf.
  rewrite <- lane_row by nia.
  apply map_ext. intros j. f_equal. lia.
Qed.

Lemma filter_true_map {A} (f : A -> bool) (l : list A) :
  length (List.filter (fun b : bool => b) (map f l)) = length (List.filter f l).
Proof.
  induction l as [| x l IH]; simpl; [reflexivity |].
  destruct (f x); simpl; rewrite IH; reflexivity.
Qed.

Lemma eq_arange (pred : tensor Z) (n : nat) :
  shape pred = [n] ->
  Torch.eq pred (Torch.arange n) =
  Ok (Tensor [n] (map (fun i => nth i (data pred) 0 =? Z.of_nat i) (seq 0 n))).
Proof.
  intros Hshape. unfold Torch.eq, Torch.broadcast_shapes. rewrite Hshape. simpl.
  rewrite Nat.eqb_refl. simpl. rewrite Nat.mul_1_r. do 2 f_equal.
  apply map_ext_in. intros i Hi. apply in_seq in Hi.
  assert (Hsrc : ((if (n =? 1)%nat then 0 else i mod n) + n * 0 = i)%nat).
  { destruct (Nat.eqb_spec n 1) as [-> | Hne]; [lia |].
    rewrite Nat.mod_small by lia. lia. }
  rewrite Hsrc. f_equal.
  rewrite (nth_indep _ 0 (Z.of_nat 0)) by (rewrite length_map, length_seq; lia).
  rewrite map_nth, seq_nth by lia. reflexivity.
Qed.

Lemma eq_vectors_broadcast (a b : tensor Z) (v n : nat) (mask : tensor bool) :
  shape a = [v] -> shape b = [n] -> Torch.eq a b = Ok mask ->
  (v = n \/ v = 1%nat \/ n = 1%nat)
  /\ (length (data mask) <= Nat.max v n)%nat.
Proof.
  intros Ha Hb. unfold Torch.eq, Torch.broadcast_shapes. rewrite Ha, Hb. simpl.
  destruct (Nat.eqb_spec v n) as [-> | Hvn]; simpl.
  - intros H. inversion H; subst. simpl. rewrite length_map, length_seq.
    split; [left; reflexivity | lia].
  - destruct (Nat.eqb_spec v 1) as [-> | Hv]; simpl.
    + intros H. inversion H; subst. simpl. rewrite length_map, length_seq.
      split; [right; left; reflexivity | lia].
    + destruct (Nat.eqb_spec n 1) as [-> | Hn]; simpl.
      * intros H. inversion H; subst. simpl. rewrite length_map, length_seq.
        split; [right; right; reflexivity | lia].
      * discriminate.
Qed.

Lemma sum_item_bounds (mask : tensor bool) :
  0 <= Torch.sum_item mask <= Z.of_nat (length (data mask)).
Proof.
  unfold Torch.sum_item. split; [lia |].
  apply inj_le. apply List.filter_length_le.
Qed.

(** On an output with one row per label of the target, the count that
    [test] adds is the number of correct predictions. *)
Lemma batch_correct_spec (out : tensor Q) (n : nat) :
  shape out = [n; n] -> well_formed out -> n <> 0%nat ->
  batch_correct out (Torch.arange n) = Ok (correct_predictions out).
Proof.
  intros Hshape Hwf Hn. unfold batch_correct.
  destruct (max1_matrix out Hshape Hn) as [values ->]. simpl.
  rewrite eq_arange by reflexivity. simpl.
  unfold Torch.sum_item, correct_predictions, rows_of. simpl. rewrite Hshape. simpl.
  rewrite filter_true_map. do 3 f_equal.
  apply List.filter_ext_in. intros i Hi. apply in_seq in Hi.
  rewrite (nth_indep _ 0 (Z.of_nat (Torch.argmax (Torch.lane (data out) n 1 0 0))))
    by (rewrite length_map, length_seq; lia).
  rewrite (map_nth (fun i => Z.of_nat (Torch.argmax (Torch.lane (data out) n 1 i 0)))).
  rewrite seq_nth by lia. simpl.
  rewrite (lane_is_row (i := i) Hshape Hwf) by lia.
  destruct (Nat.eqb_spec (Torch.argmax (row out i)) i) as [-> | Hne].
  - apply Z.eqb_refl.
  - apply Z.eqb_neq. lia.
Qed.

(** ** The reference environment honours the contract *)

Lemma fill_well_formed (s : list nat) : well_formed (Reference.fill s).
Proof. unfold well_formed, Reference.fill. simpl. rewrite length_map, length_seq. reflexivity. Qed.

Lemma attach_has_attributes (k : nat) (d : Data) :
  Contract.has_attributes (Reference.attach k d).
Proof.
  unfold Contract.has_attributes, Reference.attach. repeat split.
  - rewrite lookup_insert_eq. eauto.
  - rewrite lookup_insert_ne by discriminate. rewrite lookup_insert_eq. eauto.
  - rewrite !lookup_insert_ne by discriminate. rewrite lookup_insert_eq. eauto.
Qed.

Lemma attach_pos (k : nat) (d : Data) : Reference.attach k d !! "pos" = d !! "pos".
Proof. unfold Reference.attach. rewrite !lookup_insert_ne by discriminate. reflexivity. Qed.

Lemma reference_respects (train_set test_set : list Data) :
  Forall Contract.mesh train_set -> Forall Contract.mesh test_set ->
  Contract.respects (Reference.environment train_set test_set).
Proof.
  intros Htrain Htest o count Happ.
  assert (Htensor : Contract.returns_tensor o = true ->
            exists v s', answer (Reference.environment train_set test_set) o count = Ok (v, s')
                         /\ Contract.meets o v).
  { intros Hret.
    destruct o; try discriminate Hret;
      cbv beta iota delta [Contract.applicable Contract.returns_tensor] in Happ;
      destruct Happ as [sh Hsh];
      (eexists _, _; split;
       [ cbv beta iota delta [Reference.environment answer Reference.reply];
         rewrite Hsh; reflexivity
       | cbv beta iota delta [Contract.meets Contract.returns_tensor];
         rewrite Hsh; eexists; repeat split; apply fill_well_formed ]). }
  destruct o; try (apply Htensor; reflexivity); clear Htensor;
    unfold Reference.environment, answer, Reference.reply.
  - (* FAUST *)
    eexists _, _. split; [reflexivity |]. eexists. split; [reflexivity |].
    match goal with |- context [if ?b then _ else _] => destruct b end; assumption.
  - (* Iter *)
    simpl in Happ. rewrite Happ. simpl.
    eexists _, _. split; [reflexivity |].
    exists (if dl_shuffle loader then rev (dataset loader) else dataset loader),
           (if dl_shuffle loader then rev (dataset loader) else dataset loader).
    repeat split.
    + apply Forall2_same_length_lookup_2; [reflexivity |].
      intros i x y Hx Hy. rewrite Hx in Hy. inversion Hy; subst. reflexivity.
    + destruct (dl_shuffle loader); [symmetry; apply Permutation_rev | reflexivity].
    + intros ->. reflexivity.
  - (* DataTo *) eexists _, _. split; reflexivity.
  - (* ModuleTo *) eexists _, _. split; [reflexivity | exact I].
  - (* Transform *)
    eexists _, _. split; [reflexivity |]. eexists. split; [reflexivity |].
    split; [apply attach_has_attributes | apply attach_pos].
  - (* CallPool *)
    simpl in Happ. destruct Happ as (v & streams & c & Hshape). rewrite Hshape.
    eexists _, _. split; [reflexivity |].
    eexists _, _, _, _. split; [reflexivity |]. rewrite Hshape. simpl.
    split; [reflexivity |]. split; [apply fill_well_formed |]. split.
    + unfold data_num_nodes. rewrite lookup_insert_ne by discriminate. reflexivity.
    + apply attach_has_attributes.
  - eexists _, _. split; [reflexivity | exact I].
  - eexists _, _. split; [reflexivity | exact I].
  - eexists _, _. split; [reflexivity | exact I].
  - eexists _, _. split; [reflexivity | exact I].
Qed.

(** ** The output of the forward pass *)

(** C4: for every input sample the forward pass returns, for each
    vertex, a log-normalized distribution over [num_nodes] vertex
    indices.  Under every environment that honours the shape contract,
    for the network in training or evaluation mode (hence at every
    epoch) and every mesh sample with [v] vertices, the pass returns;
    its last two calls are the second dense layer [lin4], built with
    [num_nodes] outputs, and the log-softmax over the class axis of its
    scores; the result has one row per vertex, of length [num_nodes]. *)
Theorem forward_returns_distribution_over_num_nodes {St} (E : env St)
    (num_nodes : nat) (mode : bool) (data : Data) (pos : tensor Q) (v : nat) (s : St) :
  Contract.respects E -> data !! "pos" = Some pos -> shape pos = [v; 3%nat] ->
  let self := set_training mode (Net_init num_nodes) in
  exists front hidden scores out s',
    run E (forward self data) s
    = (front ++ [ (CallLinear (lin4 self) hidden, VTensor scores);
                  (LogSoftmax scores 1, VTensor out) ],
       Ok (out, s'))
    /\ out_features (lin4 self) = num_nodes
    /\ shape scores = [v; num_nodes]
    /\ shape out = [v; num_nodes]
    /\ well_formed out.
Proof.
  intros HE Hpos Hshape self.
  destruct (forward_contract num_nodes mode data s HE Hpos Hshape)
    as (p & s' & Hrun & _ & Hout & Hwf & Hscores & _).
  exists (take 22 (pass_trace self data p)),
         (p_dropout p), (p_lin4 p), (p_out p), s'.
  split; [exact Hrun |]. repeat split; assumption.
Qed.

Lemma forward_returns_distribution_over_num_nodes_witness :
  Contract.respects (Reference.environment [] [])
  /\ Reference.sample 5 !! "pos" = Some (Reference.fill [5; 3]%nat)
  /\ shape (Reference.fill [5; 3]%nat) = [5; 3]%nat
  /\ let self := set_training false (Net_init 3) in
     exists front hidden scores out s',
       run (Reference.environment [] []) (forward self (Reference.sample 5)) 0%nat
       = (front ++ [ (CallLinear (lin4 self) hidden, VTensor scores);
                     (LogSoftmax scores 1, VTensor out) ],
          Ok (out, s'))
       /\ out_features (lin4 self) = 3%nat
       /\ shape scores = [5; 3]%nat
       /\ shape out = [5; 3]%nat
       /\ well_formed out.
Proof.
  assert (Hres : Contract.respects (Reference.environment [] []))
    by (apply reference_respects; constructor).
  split; [exact Hres |]. split; [reflexivity |]. split; [reflexivity |].
  apply (forward_returns_distribution_over_num_nodes 3 false (Reference.sample 5)
           (pos := Reference.fill [5; 3]%nat) 0%nat Hres); reflexivity.
Defined.

(** C6, as amended: the unpooled output is concatenated (not summed)
    with the saved pre-pooling features along the channel axis, and the
    result is the input of the first decoder block.  Under every
    environment that honours the shape contract the pass makes the
    calls of [pass_trace], where [torch.cat] is given the answer of the
    unpooling call and the answer of [resnet_block12] with [dim = 2];
    the result has [nf[1] + nf[0]] = 48 channels, the 32 channels of
    the unpooled features plus the 16 channels of the pre-pooling
    features, which is the input width [resnet_block41] is built with.
    That is one and a half times the unpooled width and three times
    the pre-pooling width, not twice either. *)
Theorem skip_concatenation_adds_channels {St} (E : env St)
    (num_nodes : nat) (mode : bool) (data : Data) (pos : tensor Q) (v : nat) (s : St) :
  Contract.respects E -> data !! "pos" = Some pos -> shape pos = [v; 3%nat] ->
  let self := set_training mode (Net_init num_nodes) in
  exists p s',
    run E (forward self data) s = (pass_trace self data p, Ok (p_out p, s'))
    /\ In (Cat [p_unpooled p; p_prepool p] 2, VTensor (p_cat p)) (pass_trace self data p)
    /\ In (block_event (resnet_block41 self) (p_cat p) (p_attributes p) (p_block41 p))
          (pass_trace self data p)
    /\ channels (p_unpooled p) = at_nat nf 1
    /\ channels (p_prepool p) = at_nat nf 0
    /\ channels (p_cat p) = (at_nat nf 1 + at_nat nf 0)%nat
    /\ in_channels (resnet_block41 self) = (at_nat nf 1 + at_nat nf 0)%nat
    /\ (at_nat nf 1 + at_nat nf 0 = 48)%nat
    /\ shape (p_cat p) = [v; 2; 48; 2]%nat.
Proof.
  intros HE Hpos Hshape self.
  destruct (forward_contract num_nodes mode data s HE Hpos Hshape)
    as (p & s' & Hrun & _ & _ & _ & _ & Hpre & _ & Hun & Hcat).
  exists p, s'. split; [exact Hrun |].
  split; [unfold pass_trace; simpl; tauto |].
  split; [unfold pass_trace; simpl; tauto |].
  unfold channels. rewrite Hun, Hpre, Hcat. repeat split.
Qed.

Lemma skip_concatenation_adds_channels_witness :
  Contract.respects (Reference.environment [] [])
  /\ Reference.sample 4 !! "pos" = Some (Reference.fill [4; 3]%nat)
  /\ shape (Reference.fill [4; 3]%nat) = [4; 3]%nat
  /\ let self := set_training true (Net_init 4) in
     exists p s',
       run (Reference.environment [] []) (forward self (Reference.sample 4)) 0%nat
       = (pass_trace self (Reference.sample 4) p, Ok (p_out p, s'))
       /\ In (Cat [p_unpooled p; p_prepool p] 2, VTensor (p_cat p))
             (pass_trace self (Reference.sample 4) p)
       /\ In (block_event (resnet_block41 self) (p_cat p) (p_attributes p) (p_block41 p))
             (pass_trace self (Reference.sample 4) p)
       /\ channels (p_unpooled p) = at_nat nf 1
       /\ channels (p_prepool p) = at_nat nf 0
       /\ channels (p_cat p) = (at_nat nf 1 + at_nat nf 0)%nat
       /\ in_channels (resnet_block41 self) = (at_nat nf 1 + at_nat nf 0)%nat
       /\ (at_nat nf 1 + at_nat nf 0 = 48)%nat
       /\ shape (p_cat p) = [4; 2; 48; 2]%nat.
Proof.
  assert (Hres : Contract.respects (Reference.environment [] []))
    by (apply reference_respects; constructor).
  split; [exact Hres |]. split; [reflexivity |]. split; [reflexivity |].
  apply (skip_concatenation_adds_channels 4 true (Reference.sample 4)
           (pos := Reference.fill [4; 3]%nat) 0%nat Hres); reflexivity.
Defined.

(** C6, as stated, fails: in the forward pass of the network on a mesh
    sample with four vertices the concatenation takes 32 and 16
    channels to 48, which is twice neither. *)
Lemma concatenation_does_not_double :
  ~ concatenation_doubles
      (fst (run (Reference.environment [] [])
              (forward (Net_init 4) (Reference.sample 4)) 0%nat)).
Proof.
  intros H.
  specialize (H (Reference.fill [4; 2; 32; 2]%nat) (Reference.fill [4; 2; 16; 2]%nat)
                (Reference.fill [4; 2; 48; 2]%nat)).
  destruct H as [H | H].
  - vm_compute. do 14 right. left. reflexivity.
  - vm_compute in H. discriminate H.
  - vm_compute in H. discriminate H.
Qed.
(** ** The test function *)

Lemma vertices_same_pos (v : nat) (b d : Data) :
  Contract.same_pos b d -> vertices v d -> vertices v b.
Proof. intros Hsame (pos & Hpos & Hshape). exists pos. rewrite Hsame. auto. Qed.

(** One iteration of the loop of [test], under the contract. *)
Lemma test_batch_run {St} (E : env St) (nb : Notebook) (n : nat) (mode : bool)
    (i : Z) (data : Data) (v : nat) (correct : Z) (s : St) :
  Contract.respects E -> model nb = set_training mode (Net_init n) ->
  vertices v data ->
  exists p s',
    shape (p_out p) = [v; n] /\ well_formed (p_out p)
    /\ forward_pass (model nb) data (p_out p) (pass_trace (model nb) data p)
    /\ run E (test_batch nb (i, data) correct) s
       = ((DataTo data device, VData data) :: pass_trace (model nb) data p,
          match batch_correct (p_out p) (target nb) with
          | Ok c => Ok (correct + c, s')
          | Raised e => Raised e
          end).
Proof.
  intros HE Hmodel (pos & Hpos & Hshape).
  unfold test_batch, call_data. cbn [bind run].
  destruct (HE (DataTo data device) s) as (vd & s1 & Hans & ->); [exact I |].
  rewrite Hans. cbn [bind]. rewrite run_bind. rewrite Hmodel.
  destruct (forward_contract n mode data s1 HE Hpos Hshape)
    as (p & s2 & Hrun & _ & Hout & Hwf & _).
  rewrite Hrun. exists p, s2. split; [exact Hout |]. split; [exact Hwf |].
  split; [exists St, E, s1, s2; exact Hrun |].
  rewrite run_bind, run_lift. unfold batch_correct.
  destruct (Torch.max1 (p_out p)) as [m | e]; [| reflexivity].
  cbn [Py.bind]. rewrite run_bind, run_lift.
  destruct (Torch.eq (snd m) (target nb)) as [mask | e]; reflexivity.
Qed.

Lemma batch_correct_ok (out : tensor Q) (v n : nat) (c : Z) :
  shape out = [v; n] -> batch_correct out (Torch.arange n) = Ok c ->
  n <> 0%nat /\ (v = n \/ v = 1%nat \/ n = 1%nat) /\ 0 <= c <= Z.of_nat (Nat.max v n).
Proof.
  intros Hshape. unfold batch_correct. 
  destruct (Nat.eq_dec n 0%nat) as [-> | Hn].
  { unfold Torch.max1. rewrite Hshape. simpl. discriminate. }
  destruct (max1_matrix out Hshape Hn) as [values ->]. simpl.
  destruct (Torch.eq _ (Torch.arange n)) as [mask | e] eqn:Heq; simpl; [| discriminate].
  intros H. inversion H; subst c.
  match type of Heq with
  | Torch.eq ?a ?b = _ =>
      destruct (@eq_vectors_broadcast a b v n mask eq_refl eq_refl Heq) as [Hb Hlen]
  end. split; [exact Hn |]. split; [exact Hb |].
  pose proof (sum_item_bounds mask). lia.
Qed.

Lemma correct_predictions_bounds (out : tensor Q) :
  0 <= correct_predictions out <= Z.of_nat (rows_of out).
Proof.
  unfold correct_predictions. split; [lia |].
  apply inj_le. etransitivity; [apply List.filter_length_le |].
  rewrite length_seq. reflexivity.
Qed.

(** The loop of [test] on samples that all have [n] vertices. *)
Lemma test_loop_equal_counts {St} (E : env St) (nb : Notebook) (n : nat) (mode : bool) :
  Contract.respects E -> model nb = set_training mode (Net_init n) ->
  target nb = Torch.arange n -> n <> 0%nat ->
  forall (batches : list Data) (indices : list Z) (correct : Z) (s : St),
    Forall (vertices n) batches -> length indices = length batches ->
    exists outs tr s',
      run E (for_fold (combine indices batches) (test_batch nb) correct) s
      = (tr, Ok (correct + total_correct outs, s'))
      /\ test_steps (model nb) batches outs tr
      /\ Forall (fun out => shape out = [n; n]) outs.
Proof.
  intros HE Hmodel Htarget Hn.
  induction batches as [| data batches IH]; intros indices correct s Hall Hlen.
  - destruct indices; [| discriminate]. simpl. exists [], [], s.
    unfold total_correct. simpl. rewrite Z.add_0_r. repeat split; constructor.
  - destruct indices as [| i indices]; [discriminate |]. simpl in Hlen.
    inversion Hall as [| ? ? Hdata Hrest]; subst.
    cbn [combine for_fold]. rewrite run_bind.
    destruct (test_batch_run nb i correct s HE Hmodel Hdata)
      as (p & s1 & Hout & Hwf & Hfwd & Hrun).
    rewrite Hrun. rewrite Htarget. rewrite (batch_correct_spec Hout Hwf Hn).
    destruct (IH indices (correct + correct_predictions (p_out p)) s1 Hrest)
      as (outs & tr & s2 & Hloop & Hsteps & Hshapes); [lia |].
    rewrite Hloop.
    exists (p_out p :: outs),
      ((DataTo data device, VData data) :: pass_trace (model nb) data p ++ tr), s2.
    split; [| split].
    + unfold total_correct. cbn [map fold_right]. rewrite Z.add_assoc. reflexivity.
    + constructor; assumption.
    + constructor; assumption.
Qed.

Lemma test_steps_length (self : Net) (batches : list Data) (outs : list (tensor Q))
    (tr : list event) :
  test_steps self batches outs tr -> length outs = length batches.
Proof. induction 1; simpl; congruence. Qed.

(** The loop of [test] on any mesh samples: if it returns, every
    comparison with the target could be broadcast. *)
Lemma test_loop_returns {St} (E : env St) (nb : Notebook) (n : nat) (mode : bool) :
  Contract.respects E -> model nb = set_training mode (Net_init n) ->
  target nb = Torch.arange n ->
  forall (batches : list Data) (counts : list nat) (indices : list Z)
         (correct : Z) (s s' : St) (tr : list event) (c : Z),
    Forall2 vertices counts batches -> length indices = length batches ->
    run E (for_fold (combine indices batches) (test_batch nb) correct) s
    = (tr, Ok (c, s')) ->
    (batches <> [] -> n <> 0%nat)
    /\ Forall (fun v => v = n \/ v = 1%nat \/ n = 1%nat) counts.
Proof.
  intros HE Hmodel Htarget.
  induction batches as [| data batches IH];
    intros counts indices correct s s' tr c Hall Hlen Hrun.
  - inversion Hall; subst. split; [intros H; contradiction H; reflexivity | constructor].
  - destruct indices as [| i indices]; [discriminate |]. simpl in Hlen.
    inversion Hall as [| v ? counts' ? Hdata Hrest]; subst.
    cbn [combine for_fold] in Hrun. rewrite run_bind in Hrun.
    destruct (test_batch_run nb i correct s HE Hmodel Hdata)
      as (p & s1 & Hout & Hwf & _ & Hbatch).
    rewrite Hbatch, Htarget in Hrun.
    destruct (batch_correct (p_out p) (Torch.arange n)) as [c1 | e] eqn:Hc;
      [| discriminate].
    destruct (@batch_correct_ok (p_out p) v n c1 Hout Hc) as (Hn & Hb & _).
    destruct (run E (for_fold (combine indices batches) _ _) s1)
      as [tr' [[c' s2] | e]] eqn:Hloop; [| discriminate].
    apply IH with (counts := counts') in Hloop; [| assumption | lia].
    destruct Hloop as [_ Hcounts].
    split; [intros _; exact Hn | constructor; assumption].
Qed.

Lemma length_range (n : nat) : length (Py.range n) = n.
Proof. unfold Py.range. rewrite length_map, length_seq. reflexivity. Qed.

Lemma quotient_in_unit_interval (a b : Z) :
  0 <= a <= b -> 0 < b -> (0 <= inject_Z a / inject_Z b <= 1)%Q.
Proof.
  intros Ha Hb. destruct b as [| b | b]; try lia.
  unfold Qle, Qdiv, Qmult, Qinv, inject_Z. simpl. lia.
Qed.

Lemma total_correct_bounds (n : nat) (outs : list (tensor Q)) :
  Forall (fun out => shape out = [n; n]) outs ->
  0 <= total_correct outs <= Z.of_nat (length outs) * Z.of_nat n.
Proof.
  unfold total_correct. induction 1 as [| out outs Hout Hall IH]; simpl; [lia |].
  pose proof (correct_predictions_bounds out) as Hc.
  unfold rows_of in Hc. rewrite Hout in Hc. simpl in Hc. lia.
Qed.

Lemma batches_vertices (n : nat) (batches samples : list Data) :
  Forall2 Contract.same_pos batches samples -> Forall (vertices n) samples ->
  Forall (vertices n) batches.
Proof.
  induction 1 as [| b d batches samples Hbd Hrest IH]; intros Hall; [constructor |].
  inversion Hall; subst. constructor; [eapply vertices_same_pos; eassumption | auto].
Qed.

Lemma batches_counts (counts : list nat) (batches samples : list Data) :
  Forall2 Contract.same_pos batches samples -> Forall2 vertices counts samples ->
  Forall2 vertices counts batches.
Proof.
  intros Hsame. revert counts.
  induction Hsame as [| b d batches samples Hbd Hrest IH]; intros counts Hcounts;
    inversion Hcounts; subst; constructor;
    [eapply vertices_same_pos; eassumption | auto].
Qed.

(** The iteration over the test loader, under the contract: one batch
    per test sample, in order, with the vertices of the sample. *)
Lemma test_loader_batches {St} (E : env St) (test_set : list Data) (s : St) :
  Contract.respects E ->
  exists batches s',
    answer E (Iter (DataLoader test_set batch_size false)) s = Ok (VDataset batches, s')
    /\ Forall2 Contract.same_pos batches test_set.
Proof.
  intros HE.
  destruct (HE (Iter (DataLoader test_set batch_size false)) s)
    as (v & s' & Hans & batches & samples & -> & Hsame & _ & Hordered);
    [reflexivity |].
  simpl in Hordered. rewrite (Hordered eq_refl) in Hsame.
  exists batches, s'. split; assumption.
Qed.

Lemma test_run_equal_counts {St} (E : env St) (s : St)
    (train_set test_set : list Data) (n : nat) (mode : bool)
    (groups : list param_group) :
  Contract.respects E -> Forall (vertices n) test_set -> test_set <> [] ->
  n <> 0%nat ->
  exists batches outs tr s',
    run E (test (state_of train_set test_set n mode groups)) s
    = ((Iter (DataLoader test_set batch_size false), VDataset batches) :: tr,
       Ok ((spec_accuracy outs (length test_set) n,
            state_of train_set test_set n false groups), s'))
    /\ Forall2 Contract.same_pos batches test_set
    /\ test_steps (set_training false (Net_init n)) batches outs tr
    /\ Forall (fun out => shape out = [n; n]) outs.
Proof.
  intros HE Hall Hne Hn.
  unfold test.
  change (with_model _ (state_of train_set test_set n mode groups))
    with (state_of train_set test_set n false groups).
  set (nb := state_of train_set test_set n false groups).
  unfold call_dataset. cbn [bind run].
  change (test_loader nb) with (DataLoader test_set batch_size false).
  destruct (test_loader_batches test_set s HE) as (batches & s1 & Hans & Hsame).
  rewrite Hans. cbn [bind]. rewrite run_bind.
  pose proof (batches_vertices Hsame Hall) as Hbatches.
  assert (Hlen : length batches = length test_set)
    by (eapply Forall2_length; eassumption).
  destruct (@test_loop_equal_counts St E nb n false HE eq_refl eq_refl Hn batches
              (Py.range (length batches)) 0 s1 Hbatches (length_range _))
    as (outs & tr & s2 & Hloop & Hsteps & Hshapes).
  unfold Py.enumerate. rewrite Hloop. rewrite run_bind, run_lift.
  unfold Py.truediv.
  change (num_nodes nb) with n. change (test_dataset nb) with test_set.
  destruct (Z.eqb_spec (Z.of_nat (length test_set) * Z.of_nat n) 0) as [Hz | _].
  { destruct test_set; [contradiction | simpl in Hz; lia]. }
  cbn [run]. rewrite !app_nil_r.
  exists batches, outs, tr, s2.
  rewrite Z.add_0_l. split; [reflexivity |].
  split; [exact Hsame |]. split; [exact Hsteps | exact Hshapes].
Qed.

Lemma test_run_returns {St} (E : env St) (s s' : St)
    (train_set test_set : list Data) (n : nat) (mode : bool)
    (groups : list param_group) (counts : list nat) (tr : list event)
    (acc : Q) (nb' : Notebook) :
  Contract.respects E -> Forall2 vertices counts test_set ->
  run E (test (state_of train_set test_set n mode groups)) s
  = (tr, Ok ((acc, nb'), s')) ->
  test_set <> [] /\ n <> 0%nat
  /\ Forall (fun v => v = n \/ v = 1%nat \/ n = 1%nat) counts.
Proof.
  intros HE Hcounts. unfold test.
  change (with_model _ (state_of train_set test_set n mode groups))
    with (state_of train_set test_set n false groups).
  set (nb := state_of train_set test_set n false groups).
  unfold call_dataset. cbn [bind run].
  change (test_loader nb) with (DataLoader test_set batch_size false).
  destruct (test_loader_batches test_set s HE) as (batches & s1 & Hans & Hsame).
  rewrite Hans. cbn [bind]. rewrite run_bind.
  pose proof (batches_counts Hsame Hcounts) as Hbatches.
  unfold Py.enumerate.
  destruct (run E (for_fold (combine (Py.range (length batches)) batches)
                     (test_batch nb) 0) s1) as [tr1 [[c s2] | e]] eqn:Hloop;
    [| discriminate].
  rewrite run_bind, run_lift. unfold Py.truediv.
  change (num_nodes nb) with n. change (test_dataset nb) with test_set.
  destruct (Z.eqb_spec (Z.of_nat (length test_set) * Z.of_nat n) 0) as [Hz | Hnz];
    [discriminate |].
  intros _.
  destruct (@test_loop_returns St E nb n false HE eq_refl eq_refl
              batches counts (Py.range (length batches)) 0 s1 s2 tr1 c Hbatches
              (length_range _) Hloop)
    as [_ Hall].
  split; [intros ->; simpl in Hnz; lia |]. split; [intros ->; lia | exact Hall].
Qed.

(** ** Accuracy *)

Lemma sample_vertices (v : nat) : vertices v (Reference.sample v).
Proof.
  exists (Reference.fill [v; 3]%nat). split; [apply lookup_insert_eq | reflexivity].
Qed.

Lemma sample_mesh (v : nat) : Contract.mesh (Reference.sample v).
Proof.
  exists (Reference.fill [v; 3]%nat), v. split; [apply lookup_insert_eq | reflexivity].
Qed.

(** C2: [test] returns the number of correct per-vertex arg-max
    predictions, accumulated over all test samples, divided by the
    number of test samples times [num_nodes]; a prediction is correct
    iff the arg-max index of the vertex's row equals the vertex's own
    index ([spec_accuracy] over the outputs [outs] of the model).  The
    run iterates over the test loader, which yields one batch per test
    sample, in order, with the positions of that sample, and gives each
    batch to the model in evaluation mode ([test_steps]).  This holds
    under every environment that honours the contract, when the test
    dataset is not empty and holds mesh samples with [num_nodes]
    vertices, [num_nodes] positive.  The quotient is the exact one; the
    float that Python returns is its rounding. *)
Theorem test_returns_accuracy {St} (E : env St) (s : St)
    (train_set test_set : list Data) (num_nodes : nat) (mode : bool)
    (groups : list param_group) :
  Contract.respects E -> Forall (vertices num_nodes) test_set -> test_set <> [] ->
  num_nodes <> 0%nat ->
  exists batches outs tr nb' s',
    run E (test (state_of train_set test_set num_nodes mode groups)) s
    = ((Iter (DataLoader test_set batch_size false), VDataset batches) :: tr,
       Ok ((spec_accuracy outs (length test_set) num_nodes, nb'), s'))
    /\ Forall2 Contract.same_pos batches test_set
    /\ test_steps (set_training false (Net_init num_nodes)) batches outs tr
    /\ Forall (fun out => shape out = [num_nodes; num_nodes]) outs.
Proof.
  intros HE Hall Hne Hn.
  destruct (test_run_equal_counts s train_set mode groups HE Hall Hne Hn)
    as (batches & outs & tr & s' & Hrun & Hsame & Hsteps & Hshapes).
  exists batches, outs, tr, (state_of train_set test_set num_nodes false groups), s'.
  repeat split; assumption.
Qed.

Lemma test_returns_accuracy_witness :
  Contract.respects
    (Reference.environment [Reference.sample 3] [Reference.sample 3; Reference.sample 3])
  /\ Forall (vertices 3) [Reference.sample 3; Reference.sample 3]
  /\ [Reference.sample 3; Reference.sample 3] <> []
  /\ 3%nat <> 0%nat
  /\ exists batches outs tr nb' s',
       run (Reference.environment [Reference.sample 3]
              [Reference.sample 3; Reference.sample 3])
         (test (state_of [Reference.sample 3] [Reference.sample 3; Reference.sample 3]
                  3 true (Adam (1 # 100)))) 0%nat
       = ((Iter (DataLoader [Reference.sample 3; Reference.sample 3] batch_size false),
           VDataset batches) :: tr,
          Ok ((spec_accuracy outs
                 (length [Reference.sample 3; Reference.sample 3]) 3, nb'), s'))
       /\ Forall2 Contract.same_pos batches [Reference.sample 3; Reference.sample 3]
       /\ test_steps (set_training false (Net_init 3)) batches outs tr
       /\ Forall (fun out => shape out = [3; 3]%nat) outs.
Proof.
  assert (Hres : Contract.respects
                   (Reference.environment [Reference.sample 3]
                      [Reference.sample 3; Reference.sample 3]))
    by (apply reference_respects; repeat constructor; apply sample_mesh).
  assert (Hall : Forall (vertices 3) [Reference.sample 3; Reference.sample 3])
    by (repeat constructor; apply sample_vertices).
  split; [exact Hres |]. split; [exact Hall |].
  split; [discriminate |]. split; [discriminate |].
  apply (test_returns_accuracy 0%nat [Reference.sample 3] true (Adam (1 # 100)) Hres Hall);
    discriminate.
Defined.

(** C9, as amended: [num_nodes] is taken from the first sample of the
    training dataset, and the evaluation compares each prediction with
    a target of that length.  Under every environment that honours the
    contract:
    - if the test dataset is not empty, [num_nodes] is positive and
      every test sample has exactly [num_nodes] vertices, then [test]
      returns an accuracy in [[0, 1]];
    - if [test] returns, then the test dataset is not empty,
      [num_nodes] is positive, and the vertex count of every test
      sample either equals [num_nodes] or the comparison broadcasts,
      because that count or [num_nodes] is 1. *)
Theorem accuracy_needs_matching_vertex_counts {St} (E : env St) (s : St) :
  match snd (run E setup s) with
  | Ok (nb, _) =>
      exists first,
        Py.index (train_dataset nb) 0 = Ok first
        /\ data_num_nodes first = Ok (num_nodes nb)
        /\ nb = state_of (train_dataset nb) (test_dataset nb) (num_nodes nb) true
                  (Adam (1 # 100))
  | Raised _ => True
  end
  /\ (Contract.respects E ->
      forall (train_set test_set : list Data) (num_nodes : nat) (mode : bool)
             (groups : list param_group),
        (Forall (vertices num_nodes) test_set -> test_set <> [] -> num_nodes <> 0%nat ->
         accuracy_well_defined E s (state_of train_set test_set num_nodes mode groups))
        /\ (forall counts tr acc nb' s',
              Forall2 vertices counts test_set ->
              run E (test (state_of train_set test_set num_nodes mode groups)) s
              = (tr, Ok ((acc, nb'), s')) ->
              test_set <> [] /\ num_nodes <> 0%nat
              /\ Forall (fun v => v = num_nodes \/ v = 1%nat \/ num_nodes = 1%nat)
                   counts)).
Proof.
  split.
  - pose proof (setup_calls E s) as H.
    destruct (run E setup s) as [tr [[nb s'] | e]]; [| exact I].
    destruct H as [_ (train_set & test_set & n & first & -> & Hfirst & Hn)].
    exists first. repeat split; assumption.
  - intros HE train_set test_set n mode groups. split.
    + intros Hall Hne Hn.
      destruct (test_run_equal_counts s train_set mode groups HE Hall Hne Hn)
        as (batches & outs & tr & s' & Hrun & Hsame & Hsteps & Hshapes).
      eexists _, _, _, _. split; [exact Hrun |].
      unfold spec_accuracy. apply quotient_in_unit_interval.
      * pose proof (total_correct_bounds Hshapes) as Hb.
        rewrite (test_steps_length Hsteps) in Hb.
        rewrite (Forall2_length _ _ _ Hsame) in Hb. exact Hb.
      * destruct test_set; [contradiction |]. simpl. lia.
    + intros counts tr acc nb' s' Hcounts Hrun.
      eapply test_run_returns; eassumption.
Qed.

Lemma accuracy_needs_matching_vertex_counts_witness :
  Contract.respects (Reference.environment [Reference.sample 2] [Reference.sample 2])
  /\ Forall (vertices 2) [Reference.sample 2]
  /\ [Reference.sample 2] <> []
  /\ 2%nat <> 0%nat
  /\ accuracy_well_defined (Reference.environment [Reference.sample 2] [Reference.sample 2])
       0%nat (state_of [Reference.sample 2] [Reference.sample 2] 2 true (Adam (1 # 100)))
  /\ Forall2 vertices [2%nat] [Reference.sample 2]
  /\ exists tr acc nb' s',
       run (Reference.environment [Reference.sample 2] [Reference.sample 2])
         (test (state_of [Reference.sample 2] [Reference.sample 2] 2 true
                  (Adam (1 # 100)))) 0%nat
       = (tr, Ok ((acc, nb'), s'))
       /\ [Reference.sample 2] <> [] /\ 2%nat <> 0%nat
       /\ Forall (fun v => v = 2%nat \/ v = 1%nat \/ 2%nat = 1%nat) [2%nat].
Proof.
  assert (Hres : Contract.respects
                   (Reference.environment [Reference.sample 2] [Reference.sample 2]))
    by (apply reference_respects; repeat constructor; apply sample_mesh).
  assert (Hall : Forall (vertices 2) [Reference.sample 2])
    by (repeat constructor; apply sample_vertices).
  assert (Hcounts : Forall2 vertices [2%nat] [Reference.sample 2])
    by (repeat constructor; apply sample_vertices).
  destruct (proj2 (accuracy_needs_matching_vertex_counts
                     (Reference.environment [Reference.sample 2] [Reference.sample 2])
                     0%nat)
              Hres [Reference.sample 2] [Reference.sample 2] 2%nat true (Adam (1 # 100)))
    as [Hsufficient Hnecessary].
  assert (Hne : [Reference.sample 2] <> []) by discriminate.
  assert (Hn : 2%nat <> 0%nat) by discriminate.
  pose proof (Hsufficient Hall Hne Hn) as Hdefined.
  split; [exact Hres |]. split; [exact Hall |].
  split; [exact Hne |]. split; [exact Hn |].
  split; [exact Hdefined |]. split; [exact Hcounts |].
  destruct Hdefined as (tr & acc & nb' & s' & Hrun & _).
  exists tr, acc, nb', s'. split; [exact Hrun |].
  exact (Hnecessary [2%nat] tr acc nb' s' Hcounts Hrun).
Defined.

(** C9, as stated, fails in both directions.  With a first training
    sample of two vertices and a test sample of one vertex, [test]
    returns 1/2: the single prediction is broadcast against the two
    labels of the target.  With an empty test dataset every test sample
    has the vertex count of the first training sample, and [test]
    raises [ZeroDivisionError]. *)
Lemma accuracy_precondition_counterexamples :
  (accuracy_well_defined (Reference.environment [Reference.sample 2] [Reference.sample 1])
     0%nat (initial [Reference.sample 2] [Reference.sample 1] 2)
   /\ ~ Forall (vertices 2) [Reference.sample 1])
  /\ (Forall (vertices 2) []
      /\ ~ accuracy_well_defined (Reference.environment [Reference.sample 2] [])
             0%nat (initial [Reference.sample 2] [] 2)).
Proof.
  split; split.
  - eexists _, _, _, _. split; [vm_compute; reflexivity |].
    unfold Qle. simpl. lia.
  - intros H. inversion H as [| d l (pos & Hpos & Hshape) _]; subst.
    unfold Reference.sample in Hpos. rewrite lookup_insert_eq in Hpos.
    inversion Hpos; subst. discriminate Hshape.
  - constructor.
  - intros (tr & acc & nb' & s' & Hrun & _). vm_compute in Hrun. discriminate Hrun.
Qed.

(** ** The training loop under the contract *)

Lemma respects_unit {St} (E : env St) (o : Op) (s : St) :
  Contract.respects E -> Contract.applicable o ->
  exists v s', answer E o s = Ok (v, s').
Proof. intros HE Ho. destruct (HE o s Ho) as (v & s' & Hans & _). eauto. Qed.

Lemma train_batch_completes {St} (E : env St) (nb : Notebook) (n : nat) (mode : bool)
    (data : Data) (s : St) :
  Contract.respects E -> model nb = set_training mode (Net_init n) ->
  target nb = Torch.arange n -> vertices n data ->
  exists tr s', run E (train_batch nb data) s = (tr, Ok (tt, s')).
Proof.
  intros HE Hmodel Htarget (pos & Hpos & Hshape).
  unfold train_batch, call_data, call_unit, call_tensor. cbn [bind run].
  destruct (HE (DataTo data device) s) as (vd & s1 & Hans & ->); [exact I |].
  rewrite Hans. cbn [bind run].
  destruct (respects_unit (ZeroGrad (optimizer nb)) s1 HE I) as (v1 & s2 & ->).
  rewrite run_bind. rewrite Hmodel.
  destruct (forward_contract n mode data s2 HE Hpos Hshape)
    as (p & s3 & Hrun & _ & Hout & Hwf & _).
  rewrite Hrun. cbn [run]. rewrite Htarget.
  destruct (respects_tensor (E := E) (NllLoss (p_out p) (Torch.arange n)) s3 (sh := [])
              HE eq_refl) as (loss & s4 & Hloss & _).
  { simpl. rewrite Hout. simpl. rewrite Nat.eqb_refl. reflexivity. }
  rewrite Hloss. cbn [bind run].
  destruct (respects_unit (Backward loss) s4 HE I) as (v2 & s5 & ->). cbn [bind run].
  destruct (respects_unit (Step (optimizer nb)) s5 HE I) as (v3 & s6 & ->).
  eexists _, _. reflexivity.
Qed.

Lemma for_each_completes {St A} (E : env St) (body : A -> Prog unit) (l : list A) :
  (forall x s, In x l -> exists tr s', run E (body x) s = (tr, Ok (tt, s'))) ->
  forall s, exists tr s', run E (for_each l body) s = (tr, Ok (tt, s')).
Proof.
  induction l as [| x l IH]; intros Hbody s; simpl.
  - eexists _, _. reflexivity.
  - rewrite run_bind. destruct (Hbody x s (or_introl eq_refl)) as (tr1 & s1 & ->).
    destruct (IH (fun y t Hy => Hbody y t (or_intror Hy)) s1) as (tr2 & s2 & ->).
    eexists _, _. reflexivity.
Qed.

Lemma after_train_state (epoch : Z) (train_set test_set : list Data) (n : nat)
    (mode : bool) (groups : list param_group) :
  after_train epoch (state_of train_set test_set n mode groups)
  = state_of train_set test_set n true
      (if epoch =? 60 then set_lr (1 # 1000) groups else groups).
Proof. unfold after_train. destruct (epoch =? 60); reflexivity. Qed.

Lemma train_completes {St} (E : env St) (epoch : Z) (train_set test_set : list Data)
    (n : nat) (mode : bool) (groups : list param_group) (s : St) :
  Contract.respects E -> Forall (vertices n) train_set ->
  exists tr s',
    run E (train epoch (state_of train_set test_set n mode groups)) s
    = (tr, Ok (after_train epoch (state_of train_set test_set n mode groups), s')).
Proof.
  intros HE Hall. unfold train.
  fold (after_train epoch (state_of train_set test_set n mode groups)).
  rewrite after_train_state.
  set (nb := state_of train_set test_set n true _).
  unfold call_dataset. cbn [bind run].
  change (train_loader nb) with (DataLoader train_set batch_size true).
  destruct (HE (Iter (DataLoader train_set batch_size true)) s)
    as (v & s1 & Hans & batches & samples & -> & Hsame & Hperm & _); [reflexivity |].
  rewrite Hans. cbn [bind]. rewrite run_bind.
  assert (Hbatches : Forall (vertices n) batches).
  { eapply batches_vertices; [exact Hsame |]. simpl in Hperm.
    rewrite Hperm. exact Hall. }
  destruct (for_each_completes E (train_batch nb) batches) with (s := s1)
    as (tr & s2 & ->).
  { intros data t Hin.
    apply (@train_batch_completes St E nb n true data t HE eq_refl eq_refl).
    rewrite List.Forall_forall in Hbatches. auto. }
  eexists _, _. reflexivity.
Qed.

Lemma epoch_loop_completes {St} (E : env St) (train_set test_set : list Data)
    (n : nat) (epochs : list Z) :
  Contract.respects E -> Forall (vertices n) train_set ->
  forall (mode : bool) (groups : list param_group) (s : St),
    exists tr nb' s',
      run E (epoch_loop epochs (state_of train_set test_set n mode groups)) s
      = (tr, Ok (nb', s')).
Proof.
  intros HE Hall. unfold epoch_loop.
  induction epochs as [| epoch epochs IH]; intros mode groups s.
  - simpl. eexists _, _, _. reflexivity.
  - cbn [for_fold]. rewrite !run_bind. cbn [call_unit run].
    destruct (respects_unit (Print (EpochMessage epoch)) s HE I) as (v & s1 & ->).
    destruct (@train_completes St E epoch train_set test_set n mode groups s1 HE Hall)
      as (tr1 & s2 & ->).
    rewrite after_train_state.
    destruct (IH true (if epoch =? 60 then set_lr (1 # 1000) groups else groups) s2)
      as (tr2 & nb' & s3 & ->).
    eexists _, _, _. reflexivity.
Qed.

(** C5: the training driver runs exactly the 100 epochs 0..99, and in
    each epoch takes every batch that the training loader yields
    through the same steps: move the batch to the device, reset the
    gradients, forward pass, loss, backward, one optimizer step.  A
    run of the driver that returns made exactly the calls of
    [epoch_steps] for the epochs of [range(100)], one after the other
    (there is no other call, so nothing is checkpointed, and no epoch
    is left out); and under an environment that honours the contract,
    on training samples with [num_nodes] vertices, the driver returns. *)
Theorem training_runs_every_epoch_and_batch {St} (E : env St) (s : St)
    (nb : Notebook) :
  (forall tr nb' s',
      run E (train_all nb) s = (tr, Ok (nb', s')) ->
      exists trs,
        tr = concat trs /\ length trs = 100%nat
        /\ Forall2 (epoch_steps (train_loader nb) (set_training true (model nb))
                      (target nb))
             (Py.range 100) trs)
  /\ (Contract.respects E ->
      forall train_set test_set n mode groups,
        nb = state_of train_set test_set n mode groups ->
        Forall (vertices n) train_set ->
        exists tr nb' s', run E (train_all nb) s = (tr, Ok (nb', s'))).
Proof.
  split.
  - intros tr nb' s' Hrun. unfold train_all in Hrun.
    apply epoch_loop_inv in Hrun. destruct Hrun as (trs & -> & Hall).
    exists trs. split; [reflexivity |]. split; [| exact Hall].
    apply Forall2_length in Hall. rewrite <- Hall. apply length_range.
  - intros HE train_set test_set n mode groups -> Hall.
    apply epoch_loop_completes; assumption.
Qed.

Lemma training_runs_every_epoch_and_batch_witness :
  Contract.respects (Reference.environment [Reference.sample 2; Reference.sample 2] [])
  /\ Forall (vertices 2) [Reference.sample 2; Reference.sample 2]
  /\ exists tr nb' s' trs,
       run (Reference.environment [Reference.sample 2; Reference.sample 2] [])
         (train_all (initial [Reference.sample 2; Reference.sample 2] [] 2)) 0%nat
       = (tr, Ok (nb', s'))
       /\ tr = concat trs /\ length trs = 100%nat
       /\ Forall2 (epoch_steps
                     (train_loader (initial [Reference.sample 2; Reference.sample 2] [] 2))
                     (set_training true
                        (model (initial [Reference.sample 2; Reference.sample 2] [] 2)))
                     (target (initial [Reference.sample 2; Reference.sample 2] [] 2)))
            (Py.range 100) trs.
Proof.
  assert (Hres : Contract.respects
                   (Reference.environment [Reference.sample 2; Reference.sample 2] []))
    by (apply reference_respects; repeat constructor; apply sample_mesh).
  assert (Hall : Forall (vertices 2) [Reference.sample 2; Reference.sample 2])
    by (repeat constructor; apply sample_vertices).
  split; [exact Hres |]. split; [exact Hall |].
  destruct (training_runs_every_epoch_and_batch
              (Reference.environment [Reference.sample 2; Reference.sample 2] [])
              0%nat (initial [Reference.sample 2; Reference.sample 2] [] 2))
    as [Hsteps Hruns].
  destruct (Hruns Hres [Reference.sample 2; Reference.sample 2] [] 2%nat true
              (Adam (1 # 100)) eq_refl Hall) as (tr & nb' & s' & Hrun).
  destruct (Hsteps tr nb' s' Hrun) as (trs & Htr & Hlen & Hepochs).
  exists tr, nb', s', trs. repeat split; assumption.
Defined.

(** ** The training loss *)

Lemma losses_ok_app (tgt : tensor Z) (a b : list event) :
  forall pending middle final,
    losses_ok tgt pending a middle -> losses_ok tgt middle b final ->
    losses_ok tgt pending (a ++ b) final.
Proof.
  induction a as [| [o v] a IH]; intros pending middle final Ha Hb; simpl in *.
  - subst middle. exact Hb.
  - destruct o; try (eapply IH; eassumption).
    + destruct v; eapply IH; eassumption.
    + destruct Ha as (Ht & Hp & Ha). repeat split; try assumption.
      eapply IH; eassumption.
Qed.

Lemma losses_ok_layer_calls (tgt : tensor Z) (tr : list event) :
  Forall layer_call tr ->
  forall pending, exists final, losses_ok tgt pending tr final.
Proof.
  induction 1 as [| [o v] tr Hev Htr IH]; intros pending; simpl.
  - exists pending. reflexivity.
  - unfold layer_call in Hev. simpl in Hev.
    destruct o; try contradiction Hev; try apply IH.
    destruct v; apply IH.
Qed.

Lemma train_batch_losses (nb : Notebook) (data : Data) :
  holds (fun tr => losses_ok (target nb) None tr None)
        (fun tr => exists final, losses_ok (target nb) None tr final)
        (train_batch nb data) (fun _ => True).
Proof.
  intros St E s. unfold train_batch, call_data, call_unit, call_tensor.
  cbn [bind run].
  destruct (answer E (DataTo data device) s) as [[v s1] | e];
    [| exists None; reflexivity].
  destruct v as [ | | d | | ]; cbn [bind run];
    try (exists None; reflexivity).
  destruct (answer E (ZeroGrad (optimizer nb)) s1) as [[v1 s2] | e];
    [| exists None; reflexivity].
  rewrite run_bind.
  pose proof (forward_layer_calls E (model nb) d s2) as Hlayers.
  destruct (run E (forward (model nb) d) s2) as [fwd [[out s3] | e]] eqn:Hfwd.
  - apply forward_inv in Hfwd. destruct Hfwd as (p & -> & -> & _).
    cbn [run].
    destruct (answer E (NllLoss (p_out p) (target nb)) s3) as [[v s4] | e].
    + assert (Hloss : forall rest final,
                 losses_ok (target nb) None rest final ->
                 losses_ok (target nb) None
                   ((DataTo data device, VData d) :: (ZeroGrad (optimizer nb), v1)
                    :: pass_trace (model nb) d p
                    ++ (NllLoss (p_out p) (target nb), v) :: rest) final).
      { intros rest final Hrest. cbn [losses_ok].
        eapply losses_ok_app with (middle := Some (p_out p)); [reflexivity |].
        cbn [losses_ok]. repeat split. exact Hrest. }
      destruct v as [ | loss | | | ]; cbn [bind run];
        try (exists None; apply Hloss; reflexivity).
      destruct (answer E (Backward loss) s4) as [[v2 s5] | e]; cbn [bind run];
        [| exists None; apply Hloss; reflexivity].
      destruct (answer E (Step (optimizer nb)) s5) as [[v3 s6] | e];
        [| exists None; apply Hloss; reflexivity].
      split; [| exact I]. apply Hloss. reflexivity.
    + exists (Some (p_out p)). cbn [losses_ok]. rewrite app_nil_r. reflexivity.
  - simpl in Hlayers.
    destruct (losses_ok_layer_calls (target nb) Hlayers None) as [final Hfinal].
    exists final. exact Hfinal.
Qed.

Section Losses.

Variable tgt : tensor Z.

Local Abbreviation good := (fun tr => losses_ok tgt None tr None).
Local Abbreviation partial := (fun tr => exists final, losses_ok tgt None tr final).

Lemma losses_good_nil : good [].
Proof. reflexivity. Qed.

Lemma losses_partial_nil : partial [].
Proof. exists None. reflexivity. Qed.

Lemma losses_good_app (a b : list event) : good a -> good b -> good (a ++ b).
Proof. cbv beta. intros Ha Hb. eapply losses_ok_app; eassumption. Qed.

Lemma losses_partial_app (a b : list event) : good a -> partial b -> partial (a ++ b).
Proof. cbv beta. intros Ha [final Hb]. exists final. eapply losses_ok_app; eassumption. Qed.

Lemma train_losses (epoch : Z) (nb : Notebook) :
  target nb = tgt ->
  holds good partial (train epoch nb) (fun nb' => nb' = after_train epoch nb).
Proof.
  intros Htgt. unfold train. fold (after_train epoch nb).
  assert (Htgt1 : target (after_train epoch nb) = tgt).
  { unfold after_train. destruct (epoch =? 60); exact Htgt. }
  set (nb1 := after_train epoch nb) in *.
  eapply (@holds_bind good partial losses_good_app losses_partial_app) with (Q := fun _ => True).
  { apply (@holds_call_dataset good partial losses_good_nil losses_partial_nil
             losses_good_app losses_partial_app).
    intros v. reflexivity. }
  intros batches _.
  eapply (@holds_bind good partial losses_good_app losses_partial_app) with (Q := fun _ => True).
  { apply (@holds_for_each good partial losses_good_nil losses_good_app losses_partial_app).
    intros data _. rewrite <- Htgt1. apply train_batch_losses. }
  intros _ _. apply (@holds_ret good partial losses_good_nil). reflexivity.
Qed.

Lemma epoch_loop_losses (epochs : list Z) (nb : Notebook) :
  target nb = tgt ->
  holds good partial (epoch_loop epochs nb) (fun nb' => target nb' = tgt).
Proof.
  intros Htgt. unfold epoch_loop.
  apply (@holds_for_fold good partial losses_good_nil losses_good_app losses_partial_app)
    with (I := fun nb0 => target nb0 = tgt); [| exact Htgt].
  intros epoch nb0 _ Hnb0.
  eapply (@holds_bind good partial losses_good_app losses_partial_app) with (Q := fun _ => True).
  { apply (@holds_call_unit good partial losses_good_nil losses_partial_nil
             losses_good_app losses_partial_app).
    intros v. reflexivity. }
  intros _ _.
  eapply holds_weaken; [apply train_losses; exact Hnb0 |].
  intros nb' ->. unfold after_train. destruct (epoch =? 60); exact Hnb0.
Qed.

End Losses.

(** ** The test function only evaluates *)

Lemma forward_calls {St} (E : env St) (self : Net) (data : Data) (s : St) :
  Forall (forward_call self data) (fst (run E (forward self data) s)).
Proof.
  unfold forward, attributes_of, call_block. cbn.
  forward_cases E;
    repeat (constructor; [split; [exact I | cbn; auto] |]); constructor.
Qed.

Lemma always_forward_call (P : event -> Prop) (self : Net) (data : Data) :
  (forall ev, forward_call self data ev -> P ev) ->
  always P (forward self data) (fun _ => True).
Proof.
  intros HP St E s. pose proof (forward_calls E self data s) as H.
  destruct (run E (forward self data) s) as [tr [[out s'] | e]]; simpl in H.
  - split; [| exact I]. eapply Forall_impl; eassumption.
  - eapply Forall_impl; eassumption.
Qed.

Lemma test_calls (nb : Notebook) :
  always (testing_call nb) (test nb)
    (fun r => snd r = with_model (set_training false (model nb)) nb).
Proof.
  unfold test.
  eapply always_bind; [apply always_call; intros v; reflexivity |]. intros batches _.
  eapply always_bind with (Q := fun _ => True).
  { apply always_for_fold with (I := fun _ => True); [| exact I].
    intros [i data] correct _ _. unfold test_batch.
    eapply always_bind; [apply always_call; intros v; reflexivity |]. intros d _.
    eapply always_bind.
    { apply always_forward_call. intros [o v] [Hlayer Hcall].
      unfold layer_call in Hlayer. unfold testing_call. simpl in *.
      destruct o; try contradiction; try exact I. exact Hcall. }
    intros out _.
    eapply always_bind with (Q := fun _ => True); [apply always_lift; auto |].
    intros m _.
    eapply always_bind with (Q := fun _ => True); [apply always_lift; auto |].
    intros mask _. apply always_ret. exact I. }
  intros correct _.
  eapply always_bind with (Q := fun _ => True); [apply always_lift; auto |].
  intros acc _. apply always_ret. reflexivity.
Qed.

(** X1: [test()] only evaluates.  Under every environment, for every state
    of the notebook's variables, each library call of a run of [test]
    (a run that returns or one that fails) iterates over the test
    loader, moves a batch to the device, or is a layer call of the
    forward pass with dropout switched off: the optimizer is never
    called, no loss is computed, nothing is printed.  When [test]
    returns, the only variable that changed is the model's training
    flag, now off; the optimizer's parameter groups, the target, the
    datasets and the loaders are what they were. *)
Theorem test_only_evaluates {St} (E : env St) (s : St) (nb : Notebook) :
  let '(tr, res) := run E (test nb) s in
  Forall (testing_call nb) tr
  /\ Forall (fun ev => ~ optimizer_call (fst ev)) tr
  /\ match res with
     | Ok ((_, nb'), _) =>
         nb' = with_model (set_training false (model nb)) nb
         /\ training (model nb') = false
         /\ optimizer nb' = optimizer nb /\ target nb' = target nb
         /\ train_dataset nb' = train_dataset nb /\ test_dataset nb' = test_dataset nb
         /\ train_loader nb' = train_loader nb /\ test_loader nb' = test_loader nb
         /\ num_nodes nb' = num_nodes nb
     | Raised _ => True
     end.
Proof.
  pose proof (test_calls nb E s) as H.
  assert (Hnot : forall tr, Forall (testing_call nb) tr ->
            Forall (fun ev => ~ optimizer_call (fst ev)) tr).
  { intros tr Htr. eapply Forall_impl; [exact Htr |].
    intros [o v] Hev. unfold testing_call, layer_call in Hev. simpl in *.
    destruct o; try contradiction; intros Hd; exact Hd. }
  destruct (run E (test nb) s) as [tr [[[acc nb'] s'] | e]].
  - destruct H as [Htr Hnb]. simpl in Hnb. subst nb'.
    split; [exact Htr |]. split; [exact (Hnot _ Htr) |]. repeat split.
  - split; [exact H |]. split; [exact (Hnot _ H) | exact I].
Qed.

(** ** Dropout and the mode of the model *)

Lemma train_dropout (epoch : Z) (nb : Notebook) :
  always (dropout_flag true) (train epoch nb) (fun _ => True).
Proof.
  unfold train.
  eapply always_bind; [apply always_call; intros v; exact I |]. intros batches _.
  eapply always_bind with (Q := fun _ => True); [| intros _ _; apply always_ret; exact I].
  apply always_for_each. intros data _. unfold train_batch.
  eapply always_bind; [apply always_call; intros v; exact I |]. intros d _.
  eapply always_bind; [apply always_call; intros v; exact I |]. intros _ _.
  eapply always_bind.
  { apply always_forward_call. intros [o v] [_ Hcall]. unfold dropout_flag. simpl in *.
    destruct o; try exact I. rewrite Hcall. destruct (epoch =? 60); reflexivity. }
  intros out _.
  eapply always_bind; [apply always_call; intros v; exact I |]. intros loss _.
  eapply always_bind; [apply always_call; intros v; exact I |]. intros _ _.
  apply always_call; intros v; exact I.
Qed.

(** X2: Dropout follows the mode of the model.  Under every environment:
    - [Net.forward] gives [F.dropout] the module's own [training] flag,
      and a pass that returns has called it, on the output of the
      [relu] after [lin3];
    - [train(epoch)] first switches the model to training mode, so
      every dropout call of its run has [training=True], whatever the
      mode was before (after a call of [test], say);
    - the same holds along the whole epoch loop. *)
Theorem dropout_follows_mode {St} (E : env St) (s : St) :
  (forall (self : Net) (data : Data),
      let '(tr, res) := run E (forward self data) s in
      Forall (dropout_flag (training self)) tr
      /\ match res with
         | Ok _ =>
             exists hidden x y,
               In (Relu hidden, VTensor x) tr
               /\ In (Dropout x (training self), VTensor y) tr
         | Raised _ => True
         end)
  /\ (forall (epoch : Z) (nb : Notebook),
        Forall (dropout_flag true) (fst (run E (train epoch nb) s)))
  /\ (forall (epochs : list Z) (nb : Notebook),
        Forall (dropout_flag true) (fst (run E (epoch_loop epochs nb) s))).
Proof.
  split; [| split].
  - intros self data. pose proof (forward_calls E self data s) as Hcalls.
    destruct (run E (forward self data) s) as [tr [[out s'] | e]] eqn:Hrun;
      simpl in Hcalls.
    + split.
      * eapply Forall_impl; [exact Hcalls |]. intros [o v] [_ H].
        unfold dropout_flag. simpl in *. destruct o; try exact I. exact H.
      * apply forward_inv in Hrun. destruct Hrun as (p & -> & _).
        exists (p_lin3 p), (p_relu3 p), (p_dropout p). unfold pass_trace.
        split; [do 20 right; left; reflexivity | do 21 right; left; reflexivity].
    + split; [| exact I].
      eapply Forall_impl; [exact Hcalls |]. intros [o v] [_ H].
      unfold dropout_flag. simpl in *. destruct o; try exact I. exact H.
  - intros epoch nb. pose proof (train_dropout epoch nb E s) as H.
    destruct (run E (train epoch nb) s) as [tr [[nb' s'] | e]]; simpl.
    + apply H.
    + exact H.
  - intros epochs nb.
    assert (H : always (dropout_flag true) (epoch_loop epochs nb) (fun _ => True)).
    { unfold epoch_loop. apply always_for_fold; [| exact I].
      intros epoch nb0 _ _.
      eapply always_bind; [apply always_call; intros v; exact I |]. intros _ _.
      apply train_dropout. }
    specialize (H St E s).
    destruct (run E (epoch_loop epochs nb) s) as [tr [[nb' s'] | e]]; simpl.
    + apply H.
    + exact H.
Qed.

(** ** Empty datasets and vertex counts that do not fit *)

(** X3: An empty training dataset stops the notebook in the dataset cell.
    Under every environment whose [FAUST] calls return an empty
    training dataset and some test dataset, the construction of the
    shuffling training loader raises [ValueError], before
    [train_dataset[0]] is read: the two dataset calls are the only
    library calls of the run, so no model is moved to the device,
    nothing is trained and nothing is printed. *)
Theorem setup_needs_a_training_sample {St} (E : env St) (s s1 s2 : St)
    (test_set : list Data) :
  answer E (FAUST path true pre_transform) s = Ok (VDataset [], s1) ->
  answer E (FAUST path false pre_transform) s1 = Ok (VDataset test_set, s2) ->
  DataLoader_init [] batch_size true = Raised Py.ValueError
  /\ run E setup s
     = ([ (FAUST path true pre_transform, VDataset []);
          (FAUST path false pre_transform, VDataset test_set) ],
        Raised Py.ValueError)
  /\ run E notebook s
     = ([ (FAUST path true pre_transform, VDataset []);
          (FAUST path false pre_transform, VDataset test_set) ],
        Raised Py.ValueError).
Proof.
  intros Htrain Htest.
  assert (Hsetup : run E setup s
                   = ([ (FAUST path true pre_transform, VDataset []);
                        (FAUST path false pre_transform, VDataset test_set) ],
                      Raised Py.ValueError)).
  { unfold setup, call_dataset. cbn [bind run]. rewrite Htrain. cbn [bind run].
    rewrite Htest. reflexivity. }
  split; [reflexivity |]. split; [exact Hsetup |].
  unfold notebook. rewrite run_bind, Hsetup. reflexivity.
Qed.

Lemma setup_needs_a_training_sample_witness :
  answer (Reference.environment [] [Reference.sample 2])
    (FAUST path true pre_transform) 0%nat = Ok (VDataset [], 1%nat)
  /\ answer (Reference.environment [] [Reference.sample 2])
       (FAUST path false pre_transform) 1%nat
     = Ok (VDataset [Reference.sample 2], 2%nat)
  /\ DataLoader_init [] batch_size true = Raised Py.ValueError
  /\ run (Reference.environment [] [Reference.sample 2]) setup 0%nat
     = ([ (FAUST path true pre_transform, VDataset []);
          (FAUST path false pre_transform, VDataset [Reference.sample 2]) ],
        Raised Py.ValueError)
  /\ run (Reference.environment [] [Reference.sample 2]) notebook 0%nat
     = ([ (FAUST path true pre_transform, VDataset []);
          (FAUST path false pre_transform, VDataset [Reference.sample 2]) ],
        Raised Py.ValueError).
Proof.
  split; [reflexivity |]. split; [reflexivity |].
  apply (@setup_needs_a_training_sample nat
           (Reference.environment [] [Reference.sample 2]) 0%nat 1%nat 2%nat
           [Reference.sample 2]); reflexivity.
Defined.

(** X4: [test] divides by [len(test_dataset) * num_nodes] without a guard.
    When the test dataset is empty or [num_nodes] is 0, [test] returns
    no accuracy under any environment: every run ends in an exception.
    Under an environment that honours the contract, with an empty test
    dataset, the loader yields no batch, no forward pass is run, and
    the division raises [ZeroDivisionError]. *)
Theorem test_needs_a_positive_denominator {St} (E : env St) (s : St) (nb : Notebook) :
  test_dataset nb = [] \/ num_nodes nb = 0%nat ->
  (exists e, snd (run E (test nb) s) = Raised e)
  /\ (Contract.respects E ->
      forall train_set n mode groups,
        nb = state_of train_set [] n mode groups ->
        exists s',
          answer E (Iter (test_loader nb)) s = Ok (VDataset [], s')
          /\ run E (test nb) s
             = ([(Iter (test_loader nb), VDataset [])], Raised Py.ZeroDivisionError)).
Proof.
  intros Hzero.
  assert (Hden : Z.of_nat (length (test_dataset nb)) * Z.of_nat (num_nodes nb) = 0).
  { destruct Hzero as [-> | ->]; simpl; lia. }
  split.
  - unfold test. rewrite run_bind.
    destruct (run E (call_dataset _) s) as [tr0 [[batches s0] | e0]];
      [| exists e0; reflexivity].
    rewrite run_bind.
    destruct (run E (for_fold _ _ _) s0) as [tr1 [[correct s1] | e1]];
      [| exists e1; reflexivity].
    rewrite run_bind, run_lift. unfold Py.truediv.
    change (test_dataset (with_model _ nb)) with (test_dataset nb).
    change (num_nodes (with_model _ nb)) with (num_nodes nb).
    rewrite Hden. exists Py.ZeroDivisionError. reflexivity.
  - intros HE train_set n mode groups ->.
    destruct (test_loader_batches [] s HE) as (batches & s' & Hans & Hsame).
    inversion Hsame; subst. exists s'. split; [exact Hans |].
    unfold test, call_dataset. cbn [bind run].
    change (test_loader (with_model _ (state_of train_set [] n mode groups)))
      with (DataLoader [] batch_size false).
    rewrite Hans. reflexivity.
Qed.

Lemma test_needs_a_positive_denominator_witness :
  Contract.respects (Reference.environment [Reference.sample 2] [])
  /\ (test_dataset (state_of [Reference.sample 2] [] 2 true (Adam (1 # 100))) = []
      \/ num_nodes (state_of [Reference.sample 2] [] 2 true (Adam (1 # 100))) = 0%nat)
  /\ (exists e,
        snd (run (Reference.environment [Reference.sample 2] [])
               (test (state_of [Reference.sample 2] [] 2 true (Adam (1 # 100)))) 0%nat)
        = Raised e)
  /\ run (Reference.environment [Reference.sample 2] [])
       (test (state_of [Reference.sample 2] [] 2 true (Adam (1 # 100)))) 0%nat
     = ([(Iter (test_loader (state_of [Reference.sample 2] [] 2 true (Adam (1 # 100)))),
          VDataset [])],
        Raised Py.ZeroDivisionError).
Proof.
  assert (Hres : Contract.respects (Reference.environment [Reference.sample 2] []))
    by (apply reference_respects; repeat constructor; apply sample_mesh).
  assert (Hzero : test_dataset (state_of [Reference.sample 2] [] 2 true (Adam (1 # 100)))
                  = []
                  \/ num_nodes (state_of [Reference.sample 2] [] 2 true (Adam (1 # 100)))
                     = 0%nat)
    by (left; reflexivity).
  destruct (test_needs_a_positive_denominator
              (Reference.environment [Reference.sample 2] []) 0%nat
              (state_of [Reference.sample 2] [] 2 true (Adam (1 # 100))) Hzero)
    as [Hraises Hdivision].
  split; [exact Hres |]. split; [exact Hzero |]. split; [exact Hraises |].
  destruct (Hdivision Hres [Reference.sample 2] 2%nat true (Adam (1 # 100)) eq_refl)
    as (s' & _ & Hrun).
  exact Hrun.
Defined.

Lemma batch_correct_raises (out : tensor Q) (v n : nat) (e : Py.exn) :
  shape out = [v; n] -> n <> 0%nat ->
  batch_correct out (Torch.arange n) = Raised e ->
  e = Py.RuntimeError.
Proof.
  intros Hshape Hn. unfold batch_correct, Torch.max1. rewrite Hshape.
  destruct (Nat.eqb_spec n 0) as [-> | _]; [contradiction |]. simpl.
  unfold Torch.eq. destruct (Torch.broadcast_shapes _ _); simpl; congruence.
Qed.

(** The loop of [test] on mesh samples, under the contract, with a
    target that is not empty: the only exception it can raise is the
    [RuntimeError] of the comparison. *)
Lemma test_loop_raises {St} (E : env St) (nb : Notebook) (n : nat) (mode : bool) :
  Contract.respects E -> model nb = set_training mode (Net_init n) ->
  target nb = Torch.arange n -> n <> 0%nat ->
  forall (batches : list Data) (counts : list nat) (indices : list Z)
         (correct : Z) (s : St) (tr : list event) (e : Py.exn),
    Forall2 vertices counts batches -> length indices = length batches ->
    run E (for_fold (combine indices batches) (test_batch nb) correct) s
    = (tr, Raised e) ->
    e = Py.RuntimeError.
Proof.
  intros HE Hmodel Htarget Hn.
  induction batches as [| data batches IH];
    intros counts indices correct s tr e Hall Hlen Hrun.
  - destruct indices; discriminate Hrun.
  - destruct indices as [| i indices]; [discriminate |]. simpl in Hlen.
    inversion Hall as [| v ? counts' ? Hdata Hrest]; subst.
    cbn [combine for_fold] in Hrun. rewrite run_bind in Hrun.
    destruct (test_batch_run nb i correct s HE Hmodel Hdata)
      as (p & s1 & Hout & Hwf & _ & Hbatch).
    rewrite Hbatch, Htarget in Hrun.
    destruct (batch_correct (p_out p) (Torch.arange n)) as [c1 | e1] eqn:Hc.
    + destruct (run E (for_fold (combine indices batches) _ _) s1)
        as [tr' [[c' s2] | e']] eqn:Hloop; [discriminate |].
      inversion Hrun; subst. eapply IH; [exact Hrest | | exact Hloop]. lia.
    + inversion Hrun; subst. eapply batch_correct_raises; eassumption.
Qed.

(** X5: A test sample whose vertex count does not fit the target stops the
    evaluation.  Under every environment that honours the contract,
    with [num_nodes] positive, if some test sample has a vertex count
    other than [num_nodes] and neither is 1 (so that the comparison
    cannot broadcast), then [test] raises the [RuntimeError] of
    [pred.eq(target)]; no accuracy is returned, whatever the other
    samples are. *)
Theorem test_raises_on_other_vertex_counts {St} (E : env St) (s : St)
    (train_set test_set : list Data) (num_nodes : nat) (mode : bool)
    (groups : list param_group) (counts : list nat) :
  Contract.respects E -> Forall2 vertices counts test_set ->
  num_nodes <> 0%nat ->
  Exists (fun v => v <> num_nodes /\ v <> 1%nat /\ num_nodes <> 1%nat) counts ->
  snd (run E (test (state_of train_set test_set num_nodes mode groups)) s)
  = Raised Py.RuntimeError.
Proof.
  intros HE Hcounts Hpos Hex. unfold test.
  change (with_model _ (state_of train_set test_set num_nodes mode groups))
    with (state_of train_set test_set num_nodes false groups).
  set (nb := state_of train_set test_set num_nodes false groups).
  unfold call_dataset. cbn [bind run].
  change (test_loader nb) with (DataLoader test_set batch_size false).
  destruct (test_loader_batches test_set s HE) as (batches & s1 & Hans & Hsame).
  rewrite Hans. cbn [bind]. rewrite run_bind.
  pose proof (batches_counts Hsame Hcounts) as Hbatches.
  destruct (run E (for_fold (Py.enumerate batches) (test_batch nb) 0) s1)
    as [tr [[c s2] | e]] eqn:Hloop.
  - exfalso.
    destruct (@test_loop_returns St E nb num_nodes false HE eq_refl eq_refl batches counts
                (Py.range (length batches)) 0 s1 s2 tr c Hbatches (length_range _) Hloop)
      as [_ Hfit].
    rewrite List.Exists_exists in Hex. destruct Hex as (v & Hin & Hv1 & Hv2 & Hv3).
    rewrite List.Forall_forall in Hfit. destruct (Hfit v Hin) as [? | [? | ?]];
      contradiction.
  - rewrite (@test_loop_raises St E nb num_nodes false HE eq_refl eq_refl Hpos batches counts
               (Py.range (length batches)) 0 s1 tr e Hbatches (length_range _) Hloop).
    reflexivity.
Qed.

Lemma test_raises_on_other_vertex_counts_witness :
  Contract.respects
    (Reference.environment [Reference.sample 3] [Reference.sample 3; Reference.sample 2])
  /\ Forall2 vertices [3%nat; 2%nat] [Reference.sample 3; Reference.sample 2]
  /\ 3%nat <> 0%nat
  /\ Exists (fun v => v <> 3%nat /\ v <> 1%nat /\ 3%nat <> 1%nat) [3%nat; 2%nat]
  /\ snd (run (Reference.environment [Reference.sample 3]
                 [Reference.sample 3; Reference.sample 2])
            (test (state_of [Reference.sample 3] [Reference.sample 3; Reference.sample 2]
                     3 true (Adam (1 # 100)))) 0%nat)
     = Raised Py.RuntimeError.
Proof.
  assert (Hres : Contract.respects
                   (Reference.environment [Reference.sample 3]
                      [Reference.sample 3; Reference.sample 2]))
    by (apply reference_respects; repeat constructor; apply sample_mesh).
  assert (Hcounts : Forall2 vertices [3%nat; 2%nat]
                      [Reference.sample 3; Reference.sample 2])
    by (repeat constructor; apply sample_vertices).
  assert (Hbad : Exists (fun v => v <> 3%nat /\ v <> 1%nat /\ 3%nat <> 1%nat)
                   [3%nat; 2%nat])
    by (right; left; repeat split; discriminate).
  split; [exact Hres |]. split; [exact Hcounts |].
  split; [discriminate |]. split; [exact Hbad |].
  apply (test_raises_on_other_vertex_counts 0%nat [Reference.sample 3] true
           (Adam (1 # 100)) Hres Hcounts); [discriminate | exact Hbad].
Defined.

(** ** The extreme accuracies *)

Lemma filter_all {A} (f : A -> bool) (l : list A) :
  length (List.filter f l) = length l <-> Forall (fun x => f x = true) l.
Proof.
  induction l as [| x l IH]; simpl.
  - split; [constructor | reflexivity].
  - pose proof (List.filter_length_le f l) as Hle.
    destruct (f x) eqn:Hx; simpl; split.
    + intros H. constructor; [exact Hx | apply IH; lia].
    + intros H. inversion H; subst. f_equal. apply IH. assumption.
    + intros H. lia.
    + intros H. inversion H; subst. congruence.
Qed.

Lemma filter_none {A} (f : A -> bool) (l : list A) :
  length (List.filter f l) = 0%nat <-> Forall (fun x => f x = false) l.
Proof.
  induction l as [| x l IH]; simpl.
  - split; [constructor | reflexivity].
  - destruct (f x) eqn:Hx; simpl; split.
    + discriminate.
    + intros H. inversion H; subst. congruence.
    + intros H. constructor; [exact Hx | apply IH; exact H].
    + intros H. inversion H; subst. apply IH. assumption.
Qed.

Lemma correct_predictions_all (out : tensor Q) (n : nat) :
  shape out = [n; n] ->
  correct_predictions out = Z.of_nat n
  <-> (forall i, (i < n)%nat -> Torch.argmax (row out i) = i).
Proof.
  intros Hshape. unfold correct_predictions, rows_of. rewrite Hshape. simpl nth.
  rewrite Nat2Z.inj_iff.
  pose proof (filter_all (fun i => (Torch.argmax (row out i) =? i)%nat) (seq 0 n)) as Hall.
  rewrite length_seq in Hall. rewrite Hall, List.Forall_forall.
  split.
  - intros H i Hi. apply Nat.eqb_eq. apply H. apply in_seq. lia.
  - intros H i Hi. apply Nat.eqb_eq. apply H. apply in_seq in Hi. lia.
Qed.

Lemma correct_predictions_none (out : tensor Q) (n : nat) :
  shape out = [n; n] ->
  correct_predictions out = 0
  <-> (forall i, (i < n)%nat -> Torch.argmax (row out i) <> i).
Proof.
  intros Hshape. unfold correct_predictions, rows_of. rewrite Hshape. simpl nth.
  change 0 with (Z.of_nat 0). rewrite Nat2Z.inj_iff.
  rewrite filter_none, List.Forall_forall.
  split.
  - intros H i Hi. apply Nat.eqb_neq. apply H. apply in_seq. lia.
  - intros H i Hi. apply Nat.eqb_neq. apply H. apply in_seq in Hi. lia.
Qed.

Lemma total_correct_all (n : nat) (outs : list (tensor Q)) :
  Forall (fun out => shape out = [n; n]) outs ->
  total_correct outs = Z.of_nat (length outs) * Z.of_nat n
  <-> Forall (fun out => correct_predictions out = Z.of_nat n) outs.
Proof.
  induction 1 as [| out outs Hout Hall IH].
  - split; [constructor | reflexivity].
  - pose proof (total_correct_bounds Hall) as Hb.
    pose proof (correct_predictions_bounds out) as Hc.
    unfold rows_of in Hc. rewrite Hout in Hc. simpl in Hc.
    unfold total_correct in *. cbn [map fold_right length]. split.
    + intros H. constructor; [lia |]. apply IH. lia.
    + intros H. inversion H as [| ? ? H1 H2]; subst. apply IH in H2. lia.
Qed.

Lemma total_correct_none (outs : list (tensor Q)) :
  total_correct outs = 0 <-> Forall (fun out => correct_predictions out = 0) outs.
Proof.
  unfold total_correct. induction outs as [| out outs IH]; cbn [map fold_right].
  - split; [constructor | reflexivity].
  - pose proof (correct_predictions_bounds out) as Hc.
    assert (Hb : 0 <= fold_right Z.add 0 (map correct_predictions outs)).
    { clear. induction outs as [| o outs IH]; simpl; [lia |].
      pose proof (correct_predictions_bounds o). lia. }
    split.
    + intros H. constructor; [lia |]. apply IH. lia.
    + intros H. inversion H as [| ? ? H1 H2]; subst. apply IH in H2. lia.
Qed.

Lemma quotient_one (a b : Z) :
  0 < b -> (inject_Z a / inject_Z b == 1)%Q <-> a = b.
Proof.
  intros Hb. destruct b as [| b | b]; try lia.
  unfold Qeq, Qdiv, Qmult, Qinv, inject_Z. simpl. lia.
Qed.

Lemma quotient_zero (a b : Z) :
  0 < b -> (inject_Z a / inject_Z b == 0)%Q <-> a = 0.
Proof.
  intros Hb. destruct b as [| b | b]; try lia.
  unfold Qeq, Qdiv, Qmult, Qinv, inject_Z. simpl. lia.
Qed.

(** X6: What the extreme accuracies mean.  Under every environment that
    honours the contract, on a non-empty test dataset of mesh samples
    with [num_nodes] vertices, [num_nodes] positive, the accuracy that
    [test] returns is 1 exactly when, in every output of the model,
    the arg-max of the row of every vertex is the vertex's own index,
    and 0 exactly when that is the case for no vertex of any output. *)
Theorem accuracy_extremes {St} (E : env St) (s : St)
    (train_set test_set : list Data) (num_nodes : nat) (mode : bool)
    (groups : list param_group) :
  Contract.respects E -> Forall (vertices num_nodes) test_set -> test_set <> [] ->
  num_nodes <> 0%nat ->
  exists batches outs tr acc nb' s',
    run E (test (state_of train_set test_set num_nodes mode groups)) s
    = ((Iter (DataLoader test_set batch_size false), VDataset batches) :: tr,
       Ok ((acc, nb'), s'))
    /\ test_steps (set_training false (Net_init num_nodes)) batches outs tr
    /\ ((acc == 1)%Q
        <-> Forall (fun out =>
                      forall i, (i < num_nodes)%nat -> Torch.argmax (row out i) = i) outs)
    /\ ((acc == 0)%Q
        <-> Forall (fun out =>
                      forall i, (i < num_nodes)%nat -> Torch.argmax (row out i) <> i) outs).
Proof.
  intros HE Hall Hne Hn.
  destruct (test_run_equal_counts s train_set mode groups HE Hall Hne Hn)
    as (batches & outs & tr & s' & Hrun & Hsame & Hsteps & Hshapes).
  exists batches, outs, tr, (spec_accuracy outs (length test_set) num_nodes),
    (state_of train_set test_set num_nodes false groups), s'.
  split; [exact Hrun |]. split; [exact Hsteps |].
  assert (Hlen : length outs = length test_set).
  { rewrite (test_steps_length Hsteps). eapply Forall2_length; exact Hsame. }
  assert (Hden : 0 < Z.of_nat (length test_set) * Z.of_nat num_nodes).
  { destruct test_set; [contradiction |]. simpl. lia. }
  assert (Hshape : forall out, In out outs -> shape out = [num_nodes; num_nodes]).
  { rewrite List.Forall_forall in Hshapes. exact Hshapes. }
  unfold spec_accuracy. split.
  - rewrite (quotient_one _ Hden), <- Hlen, (total_correct_all Hshapes).
    rewrite !List.Forall_forall. split; intros H out Hin.
    + apply (proj1 (@correct_predictions_all out num_nodes (Hshape out Hin))). apply H. exact Hin.
    + apply (proj2 (@correct_predictions_all out num_nodes (Hshape out Hin))). apply H. exact Hin.
  - rewrite (quotient_zero _ Hden), total_correct_none.
    rewrite !List.Forall_forall. split; intros H out Hin.
    + apply (proj1 (@correct_predictions_none out num_nodes (Hshape out Hin))). apply H. exact Hin.
    + apply (proj2 (@correct_predictions_none out num_nodes (Hshape out Hin))). apply H. exact Hin.
Qed.

Lemma accuracy_extremes_witness :
  Contract.respects (Reference.environment [Reference.sample 2] [Reference.sample 2])
  /\ Forall (vertices 2) [Reference.sample 2]
  /\ [Reference.sample 2] <> []
  /\ 2%nat <> 0%nat
  /\ exists batches outs tr acc nb' s',
       run (Reference.environment [Reference.sample 2] [Reference.sample 2])
         (test (state_of [Reference.sample 2] [Reference.sample 2] 2 true
                  (Adam (1 # 100)))) 0%nat
       = ((Iter (DataLoader [Reference.sample 2] batch_size false), VDataset batches) :: tr,
          Ok ((acc, nb'), s'))
       /\ test_steps (set_training false (Net_init 2)) batches outs tr
       /\ ((acc == 1)%Q
           <-> Forall (fun out =>
                         forall i, (i < 2)%nat -> Torch.argmax (row out i) = i) outs)
       /\ ((acc == 0)%Q
           <-> Forall (fun out =>
                         forall i, (i < 2)%nat -> Torch.argmax (row out i) <> i) outs).
Proof.
  assert (Hres : Contract.respects
                   (Reference.environment [Reference.sample 2] [Reference.sample 2]))
    by (apply reference_respects; repeat constructor; apply sample_mesh).
  assert (Hall : Forall (vertices 2) [Reference.sample 2])
    by (repeat constructor; apply sample_vertices).
  split; [exact Hres |]. split; [exact Hall |].
  split; [discriminate |]. split; [discriminate |].
  apply (accuracy_extremes 0%nat [Reference.sample 2] true (Adam (1 # 100)) Hres Hall);
    discriminate.
Defined.

(** ** The order of the optimizer's calls *)

Lemma always_impl (P P' : event -> Prop) {R} (p : Prog R) (Q : R -> Prop) :
  (forall ev, P ev -> P' ev) -> always P p Q -> always P' p Q.
Proof.
  intros HP H St E s. specialize (H St E s).
  destruct (run E p s) as [tr [[r s'] | e]].
  - destruct H as [Htr HQ]. split; [| exact HQ]. eapply Forall_impl; eassumption.
  - eapply Forall_impl; eassumption.
Qed.

Lemma optimizer_protocol_app (a b : list event) :
  forall ph middle final,
    optimizer_protocol ph a middle -> optimizer_protocol middle b final ->
    optimizer_protocol ph (a ++ b) final.
Proof.
  induction a as [| [o v] a IH]; intros ph middle final Ha Hb; simpl in *.
  - subst middle. exact Hb.
  - destruct o; try (eapply IH; eassumption);
      (destruct Ha as [Hph Ha]; split; [exact Hph | eapply IH; eassumption]).
Qed.

Lemma optimizer_protocol_quiet (tr : list event) :
  Forall (fun ev => ~ optimizer_call (fst ev)) tr ->
  forall ph, optimizer_protocol ph tr ph.
Proof.
  induction 1 as [| [o v] tr Hev Htr IH]; intros ph; simpl; [reflexivity |].
  simpl in Hev. destruct o; try apply IH; contradiction Hev; exact I.
Qed.

Lemma layer_call_quiet (ev : event) : layer_call ev -> ~ optimizer_call (fst ev).
Proof.
  destruct ev as [o v]. unfold layer_call. simpl.
  destruct o; intros H H'; try contradiction.
Qed.

Lemma train_batch_protocol (nb : Notebook) (data : Data) :
  holds (fun tr => optimizer_protocol Idle tr Idle)
        (fun tr => exists final, optimizer_protocol Idle tr final)
        (train_batch nb data) (fun _ => True).
Proof.
  intros St E s. unfold train_batch, call_data, call_unit, call_tensor.
  cbn [bind run].
  destruct (answer E (DataTo data device) s) as [[v s1] | e];
    [| exists Idle; reflexivity].
  destruct v as [ | | d | | ]; cbn [bind run]; try (exists Idle; reflexivity).
  destruct (answer E (ZeroGrad (optimizer nb)) s1) as [[v1 s2] | e];
    [| exists Idle; reflexivity].
  rewrite run_bind.
  pose proof (forward_layer_calls E (model nb) d s2) as Hlayers.
  assert (Hquiet : optimizer_protocol Zeroed (fst (run E (forward (model nb) d) s2)) Zeroed).
  { apply optimizer_protocol_quiet. eapply Forall_impl; [exact Hlayers |].
    apply layer_call_quiet. }
  destruct (run E (forward (model nb) d) s2) as [fwd [[out s3] | e]]; simpl in Hquiet.
  - cbn [run].
    assert (Hstart : forall rest final,
               optimizer_protocol Zeroed rest final ->
               optimizer_protocol Idle
                 ((DataTo data device, VData d) :: (ZeroGrad (optimizer nb), v1)
                  :: fwd ++ rest) final).
    { intros rest final Hrest. cbn [optimizer_protocol]. split; [reflexivity |].
      eapply optimizer_protocol_app; eassumption. }
    destruct (answer E (NllLoss out (target nb)) s3) as [[v s4] | e].
    + destruct v as [ | loss | | | ]; cbn [bind run];
        try (eexists; apply Hstart; cbn [optimizer_protocol]; split; reflexivity).
      destruct (answer E (Backward loss) s4) as [[v2 s5] | e]; cbn [bind run];
        [| eexists; apply Hstart; cbn [optimizer_protocol]; split; reflexivity].
      destruct (answer E (Step (optimizer nb)) s5) as [[v3 s6] | e].
      * split; [| exact I]. apply Hstart. cbn [optimizer_protocol]. repeat split.
      * eexists. apply Hstart. cbn [optimizer_protocol]. repeat split.
    + eexists. apply Hstart. reflexivity.
  - exists Zeroed. cbn [optimizer_protocol]. split; [reflexivity | exact Hquiet].
Qed.

Section Protocol.

Local Abbreviation good := (fun tr => optimizer_protocol Idle tr Idle).
Local Abbreviation partial := (fun tr => exists final, optimizer_protocol Idle tr final).

Lemma protocol_good_nil : good [].
Proof. reflexivity. Qed.

Lemma protocol_partial_nil : partial [].
Proof. exists Idle. reflexivity. Qed.

Lemma protocol_good_app (a b : list event) : good a -> good b -> good (a ++ b).
Proof. cbv beta. intros Ha Hb. eapply optimizer_protocol_app; eassumption. Qed.

Lemma protocol_partial_app (a b : list event) : good a -> partial b -> partial (a ++ b).
Proof.
  cbv beta. intros Ha [final Hb]. exists final.
  eapply optimizer_protocol_app; eassumption.
Qed.

(** A program whose calls are none of the optimizer's keeps the
    protocol where it is. *)
Lemma protocol_quiet {R} (p : Prog R) (Q : R -> Prop) :
  always (fun ev => ~ optimizer_call (fst ev)) p Q -> holds good partial p Q.
Proof.
  intros H St E s. specialize (H St E s).
  destruct (run E p s) as [tr [[r s'] | e]].
  - destruct H as [Htr HQ]. split; [| exact HQ]. apply optimizer_protocol_quiet. exact Htr.
  - exists Idle. apply optimizer_protocol_quiet. exact H.
Qed.

Lemma epoch_loop_protocol (epochs : list Z) (nb : Notebook) :
  holds good partial (epoch_loop epochs nb) (fun _ => True).
Proof.
  unfold epoch_loop.
  apply (@holds_for_fold good partial protocol_good_nil protocol_good_app
           protocol_partial_app) with (I := fun _ => True); [| exact I].
  intros epoch nb0 _ _.
  eapply (@holds_bind good partial protocol_good_app protocol_partial_app)
    with (Q := fun _ => True).
  { apply protocol_quiet. apply always_call. intros v H. exact H. }
  intros _ _. unfold train.
  eapply (@holds_bind good partial protocol_good_app protocol_partial_app)
    with (Q := fun _ => True).
  { apply protocol_quiet. apply always_call. intros v H. exact H. }
  intros batches _.
  eapply (@holds_bind good partial protocol_good_app protocol_partial_app)
    with (Q := fun _ => True).
  { apply (@holds_for_each good partial protocol_good_nil protocol_good_app
             protocol_partial_app).
    intros data _. apply train_batch_protocol. }
  intros _ _. apply (@holds_ret good partial protocol_good_nil). exact I.
Qed.

Lemma notebook_protocol : holds good partial notebook (fun _ => True).
Proof.
  unfold notebook.
  eapply (@holds_bind good partial protocol_good_app protocol_partial_app)
    with (Q := fun _ => True).
  { apply protocol_quiet. eapply always_weaken.
    - eapply always_impl; [| apply setup_calls].
      intros [o v] H. unfold setup_call in H. simpl in *.
      destruct o; try contradiction; intros H'; exact H'.
    - auto. }
  intros nb _.
  eapply (@holds_bind good partial protocol_good_app protocol_partial_app)
    with (Q := fun _ => True); [apply epoch_loop_protocol |].
  intros nb1 _.
  eapply (@holds_bind good partial protocol_good_app protocol_partial_app)
    with (Q := fun _ => True).
  { apply protocol_quiet. eapply always_weaken.
    - eapply always_impl; [| apply test_calls].
      intros [o v] H. unfold testing_call, layer_call in H. simpl in *.
      destruct o; try contradiction; intros H'; exact H'.
    - auto. }
  intros [test_acc nb2] _.
  eapply (@holds_bind good partial protocol_good_app protocol_partial_app)
    with (Q := fun _ => True).
  { apply protocol_quiet. apply always_call. intros v H. exact H. }
  intros _ _. apply (@holds_ret good partial protocol_good_nil). exact I.
Qed.

End Protocol.

(** X7: The optimizer is driven in a fixed order.  Under every
    environment, along every run of the epoch loop and of the whole
    notebook, also one that an exception cuts short: [zero_grad] is
    called only when no batch is in progress; [nll_loss] only after
    [zero_grad]; [backward] only on the loss that the [nll_loss] just
    before returned; [step] only after that [backward].  So gradients
    never accumulate over two batches, and no step is taken without
    fresh gradients.  A run that returns ends with no batch in
    progress. *)
Theorem optimizer_calls_in_order {St} (E : env St) (s : St) :
  (forall (epochs : list Z) (nb : Notebook),
      let '(tr, res) := run E (epoch_loop epochs nb) s in
      exists final,
        optimizer_protocol Idle tr final
        /\ match res with Ok _ => final = Idle | Raised _ => True end)
  /\ let '(tr, res) := run E notebook s in
     exists final,
       optimizer_protocol Idle tr final
       /\ match res with Ok _ => final = Idle | Raised _ => True end.
Proof.
  split.
  - intros epochs nb. pose proof (epoch_loop_protocol epochs nb E s) as H.
    destruct (run E (epoch_loop epochs nb) s) as [tr [[nb' s'] | e]].
    + destruct H as [H _]. exists Idle. split; [exact H | reflexivity].
    + destruct H as [final H]. exists final. split; [exact H | exact I].
  - pose proof (notebook_protocol E s) as H.
    destruct (run E notebook s) as [tr [[nb' s'] | e]].
    + destruct H as [H _]. exists Idle. split; [exact H | reflexivity].
    + destruct H as [final H]. exists final. split; [exact H | exact I].
Qed.

(** ** Batches on the device *)

Lemma on_device_app (a b : list event) :
  forall current,
    on_device current a -> (forall c, on_device c b) -> on_device current (a ++ b).
Proof.
  induction a as [| [o v] a IH]; intros current Ha Hb; simpl in *; [apply Hb |].
  destruct o; try (apply IH; assumption).
  - destruct v; apply IH; assumption.
  - destruct Ha as [Hc Ha]. split; [exact Hc | apply IH; assumption].
  - destruct Ha as [Hc Ha]. split; [exact Hc | apply IH; assumption].
Qed.

Lemma sees_on_device (d : Data) (tr : list event) :
  Forall (sees d) tr -> on_device (Some d) tr.
Proof.
  induction 1 as [| [o v] tr Hev Htr IH]; simpl; [exact I |].
  unfold sees in Hev. simpl in Hev.
  destruct o; try exact IH; try contradiction; subst; split; auto.
Qed.

Lemma forward_sees (self : Net) (data : Data) :
  always (sees data) (forward self data) (fun _ => True).
Proof.
  apply always_forward_call. intros [o v] [Hlayer Hcall].
  unfold layer_call in Hlayer. unfold sees. simpl in *.
  destruct o; try contradiction; try exact I; apply Hcall.
Qed.

Lemma train_batch_on_device (nb : Notebook) (data : Data) :
  forall St (E : env St) (s : St) (current : option Data),
    on_device current (fst (run E (train_batch nb data) s)).
Proof.
  intros St E s current. unfold train_batch, call_data. cbn [bind run].
  destruct (answer E (DataTo data device) s) as [[v s1] | e]; [| exact I].
  destruct v as [ | | d | | ]; cbn [bind run]; try exact I.
  match goal with
  | |- on_device _ (fst (let '(tr, res) := run E ?p s1 in _)) =>
      assert (H : always (sees d) p (fun _ => True))
  end.
  { eapply always_bind; [apply always_call; intros v; exact I |]. intros _ _.
    eapply always_bind; [apply forward_sees |]. intros out _.
    eapply always_bind; [apply always_call; intros v; exact I |]. intros loss _.
    eapply always_bind; [apply always_call; intros v; exact I |]. intros _ _.
    apply always_call; intros v; exact I. }
  specialize (H St E s1).
  match goal with
  | |- context [run E ?p s1] => destruct (run E p s1) as [tr [[u s2] | e]]
  end; cbn [fst on_device].
  - apply sees_on_device. apply H.
  - apply sees_on_device. exact H.
Qed.

Lemma test_batch_on_device (nb : Notebook) (item : Z * Data) (correct : Z) :
  forall St (E : env St) (s : St) (current : option Data),
    on_device current (fst (run E (test_batch nb item correct) s)).
Proof.
  intros St E s current. destruct item as [i data].
  unfold test_batch, call_data. cbn [bind run].
  destruct (answer E (DataTo data device) s) as [[v s1] | e]; [| exact I].
  destruct v as [ | | d | | ]; cbn [bind run]; try exact I.
  match goal with
  | |- on_device _ (fst (let '(tr, res) := run E ?p s1 in _)) =>
      assert (H : always (sees d) p (fun _ => True))
  end.
  { eapply always_bind; [apply forward_sees |]. intros out _.
    eapply always_bind with (Q := fun _ => True); [apply always_lift; auto |].
    intros m _.
    eapply always_bind with (Q := fun _ => True); [apply always_lift; auto |].
    intros mask _. apply always_ret. exact I. }
  specialize (H St E s1).
  match goal with
  | |- context [run E ?p s1] => destruct (run E p s1) as [tr [[u s2] | e]]
  end; cbn [fst on_device].
  - apply sees_on_device. apply H.
  - apply sees_on_device. exact H.
Qed.

Section Device.

Local Abbreviation good := (fun tr => forall current, on_device current tr).

Lemma device_good_nil : good [].
Proof. intros current. exact I. Qed.

Lemma device_good_app (a b : list event) : good a -> good b -> good (a ++ b).
Proof. cbv beta. intros Ha Hb current. apply on_device_app; auto. Qed.

Lemma device_pure {R} (p : Prog R) :
  (forall St (E : env St) (s : St) current, on_device current (fst (run E p s))) ->
  holds good good p (fun _ => True).
Proof.
  intros H St E s. specialize (H St E s).
  destruct (run E p s) as [tr [[r s'] | e]]; simpl in H.
  - split; [exact H | exact I].
  - exact H.
Qed.

Lemma device_other (o : Op) :
  (forall d dev, o <> DataTo d dev) -> ~ layer_call (o, VNone) ->
  forall v, good [(o, v)].
Proof.
  intros Hd Hl v current. unfold layer_call in Hl. simpl in *.
  destruct o; try exact I; try (exfalso; apply Hl; exact I).
  exfalso. eapply Hd. reflexivity.
Qed.

Lemma train_on_device (epoch : Z) (nb : Notebook) :
  holds good good (train epoch nb) (fun _ => True).
Proof.
  unfold train.
  eapply (@holds_bind good good device_good_app device_good_app)
    with (Q := fun _ => True).
  { apply (@holds_call_dataset good good device_good_nil device_good_nil
             device_good_app device_good_app).
    apply device_other; [discriminate | intros H; exact H]. }
  intros batches _.
  eapply (@holds_bind good good device_good_app device_good_app)
    with (Q := fun _ => True).
  { apply (@holds_for_each good good device_good_nil device_good_app device_good_app).
    intros data _. apply device_pure. apply train_batch_on_device. }
  intros _ _. apply (@holds_ret good good device_good_nil). exact I.
Qed.

Lemma epoch_loop_on_device (epochs : list Z) (nb : Notebook) :
  holds good good (epoch_loop epochs nb) (fun _ => True).
Proof.
  unfold epoch_loop.
  apply (@holds_for_fold good good device_good_nil device_good_app device_good_app)
    with (I := fun _ => True); [| exact I].
  intros epoch nb0 _ _.
  eapply (@holds_bind good good device_good_app device_good_app)
    with (Q := fun _ => True).
  { apply (@holds_call_unit good good device_good_nil device_good_nil
             device_good_app device_good_app).
    apply device_other; [discriminate | intros H; exact H]. }
  intros _ _. apply train_on_device.
Qed.

Lemma test_on_device (nb : Notebook) :
  holds good good (test nb) (fun _ => True).
Proof.
  unfold test.
  eapply (@holds_bind good good device_good_app device_good_app)
    with (Q := fun _ => True).
  { apply (@holds_call_dataset good good device_good_nil device_good_nil
             device_good_app device_good_app).
    apply device_other; [discriminate | intros H; exact H]. }
  intros batches _.
  eapply (@holds_bind good good device_good_app device_good_app)
    with (Q := fun _ => True).
  { apply (@holds_for_fold good good device_good_nil device_good_app device_good_app)
      with (I := fun _ => True); [| exact I].
    intros item correct _ _. apply device_pure. apply test_batch_on_device. }
  intros correct _.
  eapply (@holds_bind good good device_good_app device_good_app)
    with (Q := fun _ => True).
  { apply (@holds_lift good good device_good_nil device_good_nil). auto. }
  intros acc _. apply (@holds_ret good good device_good_nil). exact I.
Qed.

Lemma notebook_on_device : holds good good notebook (fun _ => True).
Proof.
  unfold notebook.
  eapply (@holds_bind good good device_good_app device_good_app)
    with (Q := fun _ => True).
  { intros St E s. pose proof (setup_calls E s) as H.
    assert (Hq : forall tr, Forall setup_call tr -> good tr).
    { intros tr Htr. induction Htr as [| [o v] tr Hev Htr IH]; intros current;
        [exact I |].
      unfold setup_call in Hev. simpl in *.
      destruct o; try contradiction; apply IH. }
    destruct (run E setup s) as [tr [[nb s'] | e]].
    - destruct H as [H _]. split; [apply Hq; exact H | exact I].
    - apply Hq. exact H. }
  intros nb _.
  eapply (@holds_bind good good device_good_app device_good_app)
    with (Q := fun _ => True); [apply epoch_loop_on_device |].
  intros nb1 _.
  eapply (@holds_bind good good device_good_app device_good_app)
    with (Q := fun _ => True); [apply test_on_device |].
  intros [test_acc nb2] _.
  eapply (@holds_bind good good device_good_app device_good_app)
    with (Q := fun _ => True).
  { apply (@holds_call_unit good good device_good_nil device_good_nil
             device_good_app device_good_app).
    apply device_other; [discriminate | intros H; exact H]. }
  intros _ _. apply (@holds_ret good good device_good_nil). exact I.
Qed.

End Device.

(** X8: The network only sees batches that were moved to the device.
    Under every environment, along every run of [train], of [test] and
    of the whole notebook (also one that fails), the mesh sample given
    to the scale transform and to the pooling layer of a forward pass
    is the one that the [.to(device)] call just before that pass
    returned, never the batch as the loader yielded it; and within a
    forward pass both are given the argument of [forward]. *)
Theorem layers_see_the_batch_on_the_device {St} (E : env St) (s : St) :
  (forall (self : Net) (data : Data),
      Forall (sees data) (fst (run E (forward self data) s)))
  /\ (forall (epoch : Z) (nb : Notebook) (current : option Data),
        on_device current (fst (run E (train epoch nb) s)))
  /\ (forall (nb : Notebook) (current : option Data),
        on_device current (fst (run E (test nb) s)))
  /\ on_device None (fst (run E notebook s)).
Proof.
  split; [| split; [| split]].
  - intros self data. pose proof (forward_sees self data E s) as H.
    destruct (run E (forward self data) s) as [tr [[out s'] | e]]; simpl.
    + apply H.
    + exact H.
  - intros epoch nb current. pose proof (train_on_device epoch nb E s) as H.
    destruct (run E (train epoch nb) s) as [tr [[nb' s'] | e]]; simpl.
    + destruct H as [H _]. apply H.
    + apply H.
  - intros nb current. pose proof (test_on_device nb E s) as H.
    destruct (run E (test nb) s) as [tr [[r s'] | e]]; simpl.
    + destruct H as [H _]. apply H.
    + apply H.
  - pose proof (notebook_on_device E s) as H.
    destruct (run E notebook s) as [tr [[nb' s'] | e]]; simpl.
    + destruct H as [H _]. apply H.
    + apply H.
Qed.

(** ** Runs under the contract *)

(** Under an environment that honours the contract, every call of a
    run whose arguments fit was answered as the contract says. *)
Lemma respects_run {St} (E : env St) {R} (p : Prog R) :
  Contract.respects E ->
  forall s : St,
    Forall (fun ev => Contract.applicable (fst ev) -> Contract.meets (fst ev) (snd ev))
      (fst (run E p s)).
Proof.
  intros HE. induction p as [r | e | o k IH]; intros s; simpl; try constructor.
  destruct (answer E o s) as [[v s'] | e] eqn:Hans; [| constructor].
  specialize (IH v s'). destruct (run E (k v) s') as [tr res]. simpl in *.
  constructor; [| exact IH].
  simpl. intros Ho. destruct (HE o s Ho) as (v0 & s0 & Hans0 & Hmeets).
  rewrite Hans in Hans0. inversion Hans0; subst. exact Hmeets.
Qed.

(** ** Counting the optimizer's steps *)

Lemma count_steps_app (a b : list event) :
  count_steps (a ++ b) = (count_steps a + count_steps b)%nat.
Proof. unfold count_steps. rewrite List.filter_app, length_app. reflexivity. Qed.

Lemma count_steps_layers (tr : list event) : Forall layer_call tr -> count_steps tr = 0%nat.
Proof.
  unfold count_steps. induction 1 as [| [o v] tr Hev Htr IH]; simpl; [reflexivity |].
  unfold layer_call in Hev. simpl in Hev. destruct o; try contradiction; exact IH.
Qed.

Lemma batch_steps_count (self : Net) (groups : list param_group) (tgt : tensor Z)
    (batch : Data) (t : list event) :
  batch_steps self groups tgt batch t -> count_steps t = 1%nat.
Proof.
  intros [data fwd out loss v1 v2 v3 (St & E & s & s' & Hfwd)].
  pose proof (forward_layer_calls E self data s) as Hlayers.
  rewrite Hfwd in Hlayers. simpl in Hlayers.
  change (count_steps (fwd ++ [(NllLoss out tgt, VTensor loss); (Backward loss, v2);
                               (Step groups, v3)]) = 1%nat).
  rewrite count_steps_app, (count_steps_layers Hlayers). reflexivity.
Qed.

Lemma batches_steps_count (self : Net) (groups : list param_group) (tgt : tensor Z)
    (batches : list Data) (trs : list (list event)) :
  Forall2 (batch_steps self groups tgt) batches trs ->
  count_steps (concat trs) = length batches.
Proof.
  induction 1 as [| batch t batches trs Hbatch Hrest IH]; simpl; [reflexivity |].
  rewrite count_steps_app, (batch_steps_count Hbatch), IH. reflexivity.
Qed.

(** One epoch on a dataset of mesh samples with [n] vertices, under the
    contract: it returns, after one step per training sample. *)
Lemma train_steps {St} (E : env St) (epoch : Z) (train_set test_set : list Data)
    (n : nat) (mode : bool) (groups : list param_group) (s : St) :
  Contract.respects E -> Forall (vertices n) train_set ->
  exists tr s',
    run E (train epoch (state_of train_set test_set n mode groups)) s
    = (tr, Ok (after_train epoch (state_of train_set test_set n mode groups), s'))
    /\ count_steps tr = length train_set.
Proof.
  intros HE Hall.
  destruct (@train_completes St E epoch train_set test_set n mode groups s HE Hall)
    as (tr & s' & Hrun).
  exists tr, s'. split; [exact Hrun |].
  pose proof (respects_run (train epoch (state_of train_set test_set n mode groups)) HE s)
    as Hmeets.
  rewrite Hrun in Hmeets. simpl in Hmeets.
  apply train_inv in Hrun. destruct Hrun as (_ & batches & trs & -> & Hsteps).
  inversion Hmeets as [| ev tr' Hiter _]; subst.
  destruct (Hiter eq_refl) as (batches' & samples & Heq & Hsame & Hperm & _).
  inversion Heq; subst batches'.
  transitivity (length batches); [exact (batches_steps_count Hsteps) |].
  rewrite (Forall2_length _ _ _ Hsame). simpl in Hperm. rewrite Hperm. reflexivity.
Qed.

Lemma epoch_loop_steps {St} (E : env St) (train_set test_set : list Data)
    (n : nat) (epochs : list Z) :
  Contract.respects E -> Forall (vertices n) train_set ->
  forall (mode : bool) (groups : list param_group) (s : St),
    exists tr mode' groups' s',
      run E (epoch_loop epochs (state_of train_set test_set n mode groups)) s
      = (tr, Ok (state_of train_set test_set n mode' groups', s'))
      /\ count_steps tr = (length epochs * length train_set)%nat.
Proof.
  intros HE Hall. unfold epoch_loop.
  induction epochs as [| epoch epochs IH]; intros mode groups s.
  - simpl. eexists _, _, _, _. split; reflexivity.
  - cbn [for_fold]. rewrite !run_bind. cbn [call_unit run].
    destruct (respects_unit (Print (EpochMessage epoch)) s HE I) as (v & s1 & ->).
    destruct (@train_steps St E epoch train_set test_set n mode groups s1 HE Hall)
      as (tr1 & s2 & -> & Hcount1).
    rewrite after_train_state.
    destruct (IH true (if epoch =? 60 then set_lr (1 # 1000) groups else groups) s2)
      as (tr2 & mode' & groups' & s3 & -> & Hcount2).
    eexists _, _, _, _. split; [reflexivity |].
    change (count_steps (tr1 ++ tr2)
            = (length train_set + length epochs * length train_set)%nat).
    rewrite count_steps_app, Hcount1, Hcount2. reflexivity.
Qed.

(** ** One loss per batch *)

Lemma forward_pass_counts (self : Net) (data : Data) (out : tensor Q)
    (fwd : list event) :
  forward_pass self data out fwd ->
  count_calls is_nll_loss fwd = 0%nat /\ count_calls is_log_softmax fwd = 1%nat.
Proof.
  intros (St & E & s & s' & Hfwd).
  apply forward_inv in Hfwd. destruct Hfwd as (p & -> & _ & _). split; reflexivity.
Qed.

Lemma batch_steps_losses (self : Net) (groups : list param_group) (tgt : tensor Z)
    (batch : Data) (t : list event) :
  batch_steps self groups tgt batch t ->
  count_calls is_nll_loss t = 1%nat /\ count_calls is_log_softmax t = 1%nat.
Proof.
  intros [data fwd out loss v1 v2 v3 Hfwd].
  destruct (forward_pass_counts Hfwd) as [Hn Hl].
  change (count_calls is_nll_loss
            (fwd ++ [(NllLoss out tgt, VTensor loss); (Backward loss, v2);
                     (Step groups, v3)]) = 1%nat
          /\ count_calls is_log_softmax
               (fwd ++ [(NllLoss out tgt, VTensor loss); (Backward loss, v2);
                        (Step groups, v3)]) = 1%nat).
  rewrite !count_calls_app, Hn, Hl. split; reflexivity.
Qed.

Lemma batches_losses (self : Net) (groups : list param_group) (tgt : tensor Z)
    (batches : list Data) (trs : list (list event)) :
  Forall2 (batch_steps self groups tgt) batches trs ->
  count_calls is_nll_loss (concat trs) = length batches
  /\ count_calls is_log_softmax (concat trs) = length batches.
Proof.
  induction 1 as [| batch t batches trs Hbatch Hrest [IHn IHl]]; simpl;
    [split; reflexivity |].
  destruct (batch_steps_losses Hbatch) as [Hn Hl].
  rewrite !count_calls_app, Hn, Hl, IHn, IHl. split; reflexivity.
Qed.

(** In the calls of an epoch there are as many losses as forward
    passes, and as many as optimizer steps: one per batch. *)
Lemma epoch_steps_losses (loader : DataLoader_t) (self : Net) (tgt : tensor Z)
    (epoch : Z) (t : list event) :
  epoch_steps loader self tgt epoch t ->
  count_calls is_nll_loss t = count_calls is_log_softmax t
  /\ count_calls is_nll_loss t = count_steps t.
Proof.
  intros [v batches groups trs Hbatches].
  destruct (batches_losses Hbatches) as [Hn Hl].
  pose proof (batches_steps_count Hbatches) as Hs.
  change (count_calls is_nll_loss (concat trs) = count_calls is_log_softmax (concat trs)
          /\ count_calls is_nll_loss (concat trs) = count_steps (concat trs)).
  split; congruence.
Qed.

Lemma epochs_losses (loader : DataLoader_t) (self : Net) (tgt : tensor Z)
    (epochs : list Z) (trs : list (list event)) :
  Forall2 (epoch_steps loader self tgt) epochs trs ->
  count_calls is_nll_loss (concat trs) = count_calls is_log_softmax (concat trs)
  /\ count_calls is_nll_loss (concat trs) = count_steps (concat trs).
Proof.
  induction 1 as [| epoch t epochs trs Hepoch Hrest [IHl IHs]]; simpl;
    [split; reflexivity |].
  destruct (epoch_steps_losses Hepoch) as [Hl Hs].
  rewrite !count_calls_app, count_steps_app. split; congruence.
Qed.

(** C3: the training loss of every batch is the negative
    log-likelihood of the model's output against the fixed target in
    which the label of vertex [i] is [i].  Under every environment:
    - [torch.arange(n)] has the [n] labels 0, 1, ..., n-1, in order;
    - the cell that builds [target] builds [arange(num_nodes)];
    - along the 100 epochs of training every [nll_loss] call is given
      the output of the forward pass just before it, and the notebook's
      target.  When training returns, the target is what it was, and
      the run is made of the steps of the 100 epochs, in each of which
      every batch that the loader yields goes through a forward pass
      followed by [nll_loss] on the output of that pass and the target
      ([epoch_steps]): there is exactly one loss per forward pass;
    - [test] does not change the target either;
    - under an environment that honours the contract, on a training
      dataset of mesh samples with [n] vertices, training returns
      after exactly one loss per training sample and epoch, each
      against [arange(n)]. *)
Theorem training_loss_uses_identity_target {St} (E : env St) (s : St) :
  (forall n : nat,
      shape (Torch.arange n) = [n]
      /\ Forall2 (fun i label => label = Z.of_nat i) (seq 0 n) (data (Torch.arange n)))
  /\ match snd (run E setup s) with
     | Ok (nb, _) => target nb = Torch.arange (num_nodes nb)
     | Raised _ => True
     end
  /\ (forall nb : Notebook,
        let '(tr, res) := run E (train_all nb) s in
        (exists final, losses_ok (target nb) None tr final)
        /\ match res with
           | Ok (nb', _) =>
               losses_ok (target nb) None tr None /\ target nb' = target nb
               /\ (exists trs,
                      tr = concat trs
                      /\ Forall2 (epoch_steps (train_loader nb)
                                    (set_training true (model nb)) (target nb))
                           (Py.range 100) trs)
               /\ count_calls is_nll_loss tr = count_calls is_log_softmax tr
           | Raised _ => True
           end)
  /\ (forall nb : Notebook,
        match snd (run E (test nb) s) with
        | Ok ((_, nb'), _) => target nb' = target nb
        | Raised _ => True
        end)
  /\ (Contract.respects E ->
      forall train_set test_set n mode groups,
        Forall (vertices n) train_set ->
        exists tr nb' s',
          run E (train_all (state_of train_set test_set n mode groups)) s
          = (tr, Ok (nb', s'))
          /\ target nb' = Torch.arange n
          /\ losses_ok (Torch.arange n) None tr None
          /\ count_calls is_nll_loss tr = (100 * length train_set)%nat).
Proof.
  split; [| split; [| split; [| split]]].
  - intros n. split; [reflexivity |]. unfold Torch.arange. simpl.
    apply Forall2_fmap_r. apply Forall_Forall2_diag. apply List.Forall_forall.
    intros i _. reflexivity.
  - pose proof (setup_calls E s) as H.
    destruct (run E setup s) as [tr [[nb s'] | e]]; [| exact I].
    destruct H as [_ (train_set & test_set & n & first & -> & _)]. reflexivity.
  - intros nb. pose proof (epoch_loop_losses (Py.range 100) nb eq_refl E s) as H.
    unfold train_all. destruct (run E (epoch_loop (Py.range 100) nb) s)
      as [tr [[nb' s'] | e]] eqn:Hrun.
    + destruct H as [Hgood Htarget]. split; [exists None; exact Hgood |].
      split; [exact Hgood |]. split; [exact Htarget |].
      apply epoch_loop_inv in Hrun. destruct Hrun as (trs & -> & Hepochs).
      split; [exists trs; split; [reflexivity | exact Hepochs] |].
      apply (epochs_losses Hepochs).
    + split; [exact H | exact I].
  - intros nb.
    assert (H : always (fun _ => True) (test nb)
                  (fun r => target (snd r) = target nb)).
    { unfold test.
      eapply always_bind; [apply always_call; intros; exact I |]. intros batches _.
      eapply always_bind with (Q := fun _ => True).
      { eapply always_weaken.
        - apply always_for_fold with (I := fun _ => True); [| exact I].
          intros [i data] correct _ _. unfold test_batch.
          eapply always_bind; [apply always_call; intros; exact I |]. intros d _.
          eapply always_bind; [apply always_forward; intros; exact I |]. intros out _.
          eapply always_bind with (Q := fun _ => True); [apply always_lift; auto |].
          intros m _.
          eapply always_bind with (Q := fun _ => True); [apply always_lift; auto |].
          intros mask _. apply always_ret. exact I.
        - auto. }
      intros correct _.
      eapply always_bind with (Q := fun _ => True); [apply always_lift; auto |].
      intros acc _. apply always_ret. reflexivity. }
    specialize (H St E s).
    destruct (run E (test nb) s) as [tr [[[acc nb'] s'] | e]]; [| exact I].
    destruct H as [_ H]. exact H.
  - intros HE train_set test_set n mode groups Hall. unfold train_all.
    destruct (@epoch_loop_steps St E train_set test_set n (Py.range 100) HE Hall
                mode groups s) as (tr & mode' & groups' & s' & Hrun & Hcount).
    pose proof (epoch_loop_losses (Py.range 100)
                  (state_of train_set test_set n mode groups) eq_refl E s) as Hlosses.
    rewrite Hrun in Hlosses. destruct Hlosses as [Hgood _].
    exists tr, (state_of train_set test_set n mode' groups'), s'.
    split; [exact Hrun |]. split; [reflexivity |]. split; [exact Hgood |].
    apply epoch_loop_inv in Hrun. destruct Hrun as (trs & -> & Hepochs).
    destruct (epochs_losses Hepochs) as [_ Hsteps].
    rewrite Hsteps, Hcount, length_range. reflexivity.
Qed.

Lemma training_loss_uses_identity_target_witness :
  Contract.respects (Reference.environment [Reference.sample 2; Reference.sample 2] [])
  /\ Forall (vertices 2) [Reference.sample 2; Reference.sample 2]
  /\ exists tr nb' s',
       run (Reference.environment [Reference.sample 2; Reference.sample 2] [])
         (train_all (state_of [Reference.sample 2; Reference.sample 2] [] 2 true
                       (Adam (1 # 100)))) 0%nat
       = (tr, Ok (nb', s'))
       /\ target nb' = Torch.arange 2
       /\ losses_ok (Torch.arange 2) None tr None
       /\ count_calls is_nll_loss tr
          = (100 * length [Reference.sample 2; Reference.sample 2])%nat.
Proof.
  assert (Hres : Contract.respects
                   (Reference.environment [Reference.sample 2; Reference.sample 2] []))
    by (apply reference_respects; repeat constructor; apply sample_mesh).
  assert (Hall : Forall (vertices 2) [Reference.sample 2; Reference.sample 2])
    by (repeat constructor; apply sample_vertices).
  split; [exact Hres |]. split; [exact Hall |].
  destruct (training_loss_uses_identity_target
              (Reference.environment [Reference.sample 2; Reference.sample 2] [])
              0%nat) as (_ & _ & _ & _ & Hcontract).
  exact (Hcontract Hres [Reference.sample 2; Reference.sample 2] [] 2%nat true
           (Adam (1 # 100)) Hall).
Defined.

(** ** The number of parameter updates *)

(** X9: The number of parameter updates.  Under every environment that
    honours the contract, on a training dataset of mesh samples with
    [num_nodes] vertices: one call of [train] returns after exactly one
    [optimizer.step()] per training sample (the loader, with batch
    size 1, yields every sample once), and the 100 epochs return after
    100 times as many. *)
Theorem one_step_per_training_sample {St} (E : env St) (s : St)
    (train_set test_set : list Data) (num_nodes : nat) (mode : bool)
    (groups : list param_group) :
  Contract.respects E -> Forall (vertices num_nodes) train_set ->
  (forall epoch : Z,
      exists tr nb' s',
        run E (train epoch (state_of train_set test_set num_nodes mode groups)) s
        = (tr, Ok (nb', s'))
        /\ count_steps tr = length train_set)
  /\ exists tr nb' s',
       run E (train_all (state_of train_set test_set num_nodes mode groups)) s
       = (tr, Ok (nb', s'))
       /\ count_steps tr = (100 * length train_set)%nat.
Proof.
  intros HE Hall. split.
  - intros epoch.
    destruct (@train_steps St E epoch train_set test_set num_nodes mode groups s HE Hall)
      as (tr & s' & Hrun & Hcount).
    eexists _, _, _. split; [exact Hrun | exact Hcount].
  - destruct (@epoch_loop_steps St E train_set test_set num_nodes (Py.range 100) HE Hall
                mode groups s) as (tr & mode' & groups' & s' & Hrun & Hcount).
    eexists tr, _, s'. split; [exact Hrun |].
    rewrite Hcount, length_range. reflexivity.
Qed.

Lemma one_step_per_training_sample_witness :
  Contract.respects (Reference.environment [Reference.sample 2; Reference.sample 2] [])
  /\ Forall (vertices 2) [Reference.sample 2; Reference.sample 2]
  /\ exists tr nb' s',
       run (Reference.environment [Reference.sample 2; Reference.sample 2] [])
         (train_all (state_of [Reference.sample 2; Reference.sample 2] [] 2 true
                       (Adam (1 # 100)))) 0%nat
       = (tr, Ok (nb', s'))
       /\ count_steps tr = (100 * length [Reference.sample 2; Reference.sample 2])%nat.
Proof.
  assert (Hres : Contract.respects
                   (Reference.environment [Reference.sample 2; Reference.sample 2] []))
    by (apply reference_respects; repeat constructor; apply sample_mesh).
  assert (Hall : Forall (vertices 2) [Reference.sample 2; Reference.sample 2])
    by (repeat constructor; apply sample_vertices).
  split; [exact Hres |]. split; [exact Hall |].
  exact (proj2 (one_step_per_training_sample 0%nat [] true (Adam (1 # 100)) Hres Hall)).
Defined.

(** ** Shapes along the forward pass *)

Lemma event_shape (o : Op) (r : tensor Q) (sh : list nat) :
  Contract.returns_tensor o = true -> Contract.out_shape o = Some sh ->
  (Contract.applicable o -> Contract.meets o (VTensor r)) ->
  shape r = sh.
Proof.
  intros Hret Hsh H.
  assert (Happ : Contract.applicable o).
  { destruct o; simpl in Hret; try discriminate;
      unfold Contract.applicable, Contract.returns_tensor; rewrite Hsh; eauto. }
  specialize (H Happ).
  destruct o; simpl in Hret; try discriminate;
    unfold Contract.meets, Contract.returns_tensor in H; rewrite Hsh in H;
    destruct H as (r' & Hr & Hshape & _); congruence.
Qed.

Ltac shape_of t sh :=
  let H := fresh "Hshape" in
  assert (H : shape t = sh);
  [ match goal with
    | Hm : Contract.applicable ?o -> Contract.meets ?o (VTensor t) |- _ =>
        apply (@event_shape o t sh eq_refl); [| exact Hm];
        cbn; use_shapes; eval_dims; cbn; use_shapes; cbn;
        repeat (rewrite bool_decide_eq_true_2 by (repeat split; reflexivity));
        reflexivity
    end
  | ].

(** X10: The layers of [Net] fit together, and the shapes show what each
    stage does.  Under every environment that honours the contract, on
    a mesh sample with [v] vertices, the forward pass returns and:
    [lin0] gives [nf[0]] = 16 features per vertex; stacking with zeros
    and unsqueezing gives one complex stream; the first stack gives two
    streams of 16 channels; pooling keeps streams and channels over
    [v'] vertices; the second and third stack have [nf[1]] = 32
    channels; unpooling is back on the [v] vertices; the last stack has
    16 channels; [magnitudes] drops the complex axis and the sum over
    dimension 1 drops the streams; [lin3] gives 256 features and
    dropout keeps them; the output has [num_nodes] scores per
    vertex. *)
Theorem forward_tensor_shapes {St} (E : env St) (num_nodes : nat) (mode : bool)
    (data : Data) (pos : tensor Q) (v : nat) (s : St) :
  Contract.respects E -> data !! "pos" = Some pos -> shape pos = [v; 3%nat] ->
  let self := set_training mode (Net_init num_nodes) in
  exists p s' v',
    run E (forward self data) s = (pass_trace self data p, Ok (p_out p, s'))
    /\ shape (p_lin0 p) = [v; 16]%nat
    /\ shape (p_stack p) = [v; 16; 2]%nat
    /\ shape (p_complex p) = [v; 1; 16; 2]%nat
    /\ shape (p_block11 p) = [v; 2; 16; 2]%nat
    /\ shape (p_prepool p) = [v; 2; 16; 2]%nat
    /\ shape (p_pooled p) = [v'; 2; 16; 2]%nat
    /\ shape (p_block21 p) = [v'; 2; 32; 2]%nat
    /\ shape (p_block22 p) = [v'; 2; 32; 2]%nat
    /\ shape (p_block31 p) = [v'; 2; 32; 2]%nat
    /\ shape (p_block32 p) = [v'; 2; 32; 2]%nat
    /\ shape (p_unpooled p) = [v; 2; 32; 2]%nat
    /\ shape (p_block41 p) = [v; 2; 16; 2]%nat
    /\ shape (p_block42 p) = [v; 2; 16; 2]%nat
    /\ shape (p_magnitudes p) = [v; 2; 16]%nat
    /\ shape (p_sum p) = [v; 16]%nat
    /\ shape (p_lin3 p) = [v; 256]%nat
    /\ shape (p_dropout p) = [v; 256]%nat
    /\ shape (p_lin4 p) = [v; num_nodes]
    /\ shape (p_out p) = [v; num_nodes].
Proof.
  intros HE Hpos Hshape self.
  destruct (forward_contract num_nodes mode data s HE Hpos Hshape)
    as (p & s' & Hrun & (Hread & _ & _) & Hout & _ & Hlin4 & Hpre & _ & Hunp & _).
  fold self in Hrun.
  pose proof (respects_run (forward self data) HE s) as Hm.
  rewrite Hrun in Hm. cbn [fst] in Hm.
  unfold pass_trace, block_event in Hm.
  repeat match goal with
         | H : Forall _ (_ :: _) |- _ => apply Forall_cons_iff in H; destruct H as [? H]
         end.
  clear Hm. cbn [fst snd] in *.
  rewrite Hpos in Hread. inversion Hread as [Hp]. rewrite Hp in Hshape.
  subst self. cbn [lin0 lin3 lin4 resnet_block11 resnet_block12 resnet_block21
                   resnet_block22 resnet_block31 resnet_block32 resnet_block41
                   resnet_block42 set_training Net_init] in *.
  shape_of (p_lin0 p) [v; 16]%nat.
  shape_of (p_relu0 p) [v; 16]%nat.
  shape_of (p_zeros p) [v; 16]%nat.
  shape_of (p_stack p) [v; 16; 2]%nat.
  shape_of (p_complex p) [v; 1; 16; 2]%nat.
  shape_of (p_block11 p) [v; 2; 16; 2]%nat.
  assert (Hpool : exists v', shape (p_pooled p) = [v'; 2; 16; 2]%nat).
  { match goal with
    | Hm : Contract.applicable (CallPool _ _ _) -> _ |- _ =>
        destruct Hm as (x' & d' & dp & v' & Heq & Hsh & _);
        [cbn; rewrite Hpre; eauto |]
    end.
    inversion Heq; subst. rewrite Hpre in Hsh. exists v'. exact Hsh. }
  destruct Hpool as [v' Hpool].
  shape_of (p_block21 p) [v'; 2; 32; 2]%nat.
  shape_of (p_block22 p) [v'; 2; 32; 2]%nat.
  shape_of (p_block31 p) [v'; 2; 32; 2]%nat.
  shape_of (p_block32 p) [v'; 2; 32; 2]%nat.
  shape_of (p_cat p) [v; 2; 48; 2]%nat.
  shape_of (p_block41 p) [v; 2; 16; 2]%nat.
  shape_of (p_block42 p) [v; 2; 16; 2]%nat.
  shape_of (p_magnitudes p) [v; 2; 16]%nat.
  shape_of (p_sum p) [v; 16]%nat.
  shape_of (p_lin3 p) [v; 256]%nat.
  shape_of (p_relu3 p) [v; 256]%nat.
  shape_of (p_dropout p) [v; 256]%nat.
  exists p, s', v'. repeat split; assumption.
Qed.

Lemma forward_tensor_shapes_witness :
  Contract.respects (Reference.environment [] [])
  /\ Reference.sample 5 !! "pos" = Some (Reference.fill [5; 3]%nat)
  /\ shape (Reference.fill [5; 3]%nat) = [5; 3]%nat
  /\ let self := set_training true (Net_init 5) in
     exists p s' v',
       run (Reference.environment [] []) (forward self (Reference.sample 5)) 0%nat
       = (pass_trace self (Reference.sample 5) p, Ok (p_out p, s'))
       /\ shape (p_lin0 p) = [5; 16]%nat
       /\ shape (p_stack p) = [5; 16; 2]%nat
       /\ shape (p_complex p) = [5; 1; 16; 2]%nat
       /\ shape (p_block11 p) = [5; 2; 16; 2]%nat
       /\ shape (p_prepool p) = [5; 2; 16; 2]%nat
       /\ shape (p_pooled p) = [v'; 2; 16; 2]%nat
       /\ shape (p_block21 p) = [v'; 2; 32; 2]%nat
       /\ shape (p_block22 p) = [v'; 2; 32; 2]%nat
       /\ shape (p_block31 p) = [v'; 2; 32; 2]%nat
       /\ shape (p_block32 p) = [v'; 2; 32; 2]%nat
       /\ shape (p_unpooled p) = [5; 2; 32; 2]%nat
       /\ shape (p_block41 p) = [5; 2; 16; 2]%nat
       /\ shape (p_block42 p) = [5; 2; 16; 2]%nat
       /\ shape (p_magnitudes p) = [5; 2; 16]%nat
       /\ shape (p_sum p) = [5; 16]%nat
       /\ shape (p_lin3 p) = [5; 256]%nat
       /\ shape (p_dropout p) = [5; 256]%nat
       /\ shape (p_lin4 p) = [5; 5]%nat
       /\ shape (p_out p) = [5; 5]%nat.
Proof.
  assert (Hres : Contract.respects (Reference.environment [] []))
    by (apply reference_respects; constructor).
  split; [exact Hres |]. split; [reflexivity |]. split; [reflexivity |].
  apply (@forward_tensor_shapes nat (Reference.environment [] []) 5 true
           (Reference.sample 5) (Reference.fill [5; 3]%nat) 5 0%nat Hres);
    reflexivity.
Defined.

(** ** The arg-max of a row *)

Lemma argmax_from_spec (l pre : list Q) :
  forall (best : Q) (besti : nat),
    (besti < length pre)%nat -> nth besti pre 0%Q = best ->
    (forall j, (j < length pre)%nat -> (nth j pre 0 <= best)%Q) ->
    (forall j, (j < besti)%nat -> (nth j pre 0 < best)%Q) ->
    let r := Torch.argmax_from best besti (length pre) l in
    (r < length (pre ++ l))%nat
    /\ (forall j, (j < length (pre ++ l))%nat ->
                  (nth j (pre ++ l) 0 <= nth r (pre ++ l) 0)%Q)
    /\ (forall j, (j < r)%nat -> (nth j (pre ++ l) 0 < nth r (pre ++ l) 0)%Q).
Proof.
  revert pre. induction l as [| x l IH]; intros pre best besti Hi Hbest Hle Hlt; simpl.
  - rewrite app_nil_r. rewrite Hbest. auto.
  - assert (Hpre : length (pre ++ [x]) = S (length pre))
      by (rewrite length_app; simpl; lia).
    replace (pre ++ x :: l) with ((pre ++ [x]) ++ l)
      by (rewrite <- app_assoc; reflexivity).
    destruct (Qle_bool x best) eqn:Hx.
    + apply Qle_bool_iff in Hx. rewrite <- Hpre.
      apply IH.
      * rewrite Hpre. lia.
      * rewrite app_nth1 by exact Hi. exact Hbest.
      * intros j Hj. rewrite Hpre in Hj.
        destruct (Nat.eq_dec j (length pre)) as [-> | Hne].
        -- rewrite app_nth2 by lia. rewrite Nat.sub_diag. exact Hx.
        -- rewrite app_nth1 by lia. apply Hle. lia.
      * intros j Hj. rewrite app_nth1 by lia. apply Hlt. exact Hj.
    + assert (Hgt : (best < x)%Q).
      { apply Qnot_le_lt. intros H. apply Qle_bool_iff in H. congruence. }
      rewrite <- Hpre. apply IH.
      * rewrite Hpre. lia.
      * rewrite app_nth2 by lia. rewrite Nat.sub_diag. reflexivity.
      * intros j Hj. rewrite Hpre in Hj.
        destruct (Nat.eq_dec j (length pre)) as [-> | Hne].
        -- rewrite app_nth2 by lia. rewrite Nat.sub_diag. apply Qle_refl.
        -- rewrite app_nth1 by lia. apply Qlt_le_weak.
           eapply Qle_lt_trans; [apply Hle; lia | exact Hgt].
      * intros j Hj. rewrite app_nth1 by lia.
        eapply Qle_lt_trans; [apply Hle; lia | exact Hgt].
Qed.

Lemma argmax_spec (l : list Q) :
  l <> [] ->
  (Torch.argmax l < length l)%nat
  /\ (forall j, (j < length l)%nat -> (nth j l 0 <= nth (Torch.argmax l) l 0)%Q)
  /\ (forall j, (j < Torch.argmax l)%nat -> (nth j l 0 < nth (Torch.argmax l) l 0)%Q).
Proof.
  destruct l as [| x l]; [contradiction |]. intros _.
  apply (@argmax_from_spec l [x] x 0%nat).
  - simpl. lia.
  - reflexivity.
  - intros j Hj. simpl in Hj. assert (j = 0%nat) as -> by lia. apply Qle_refl.
  - intros j Hj. lia.
Qed.

Lemma length_row (out : tensor Q) (v n i : nat) :
  shape out = [v; n] -> well_formed out -> (i < v)%nat -> length (row out i) = n.
Proof.
  intros Hshape Hwf Hi. unfold row, columns_of. rewrite Hshape. simpl nth.
  unfold well_formed in Hwf. rewrite Hshape in Hwf. simpl in Hwf.
  rewrite length_take, length_drop. nia.
Qed.

(** X11: [out.max(1)[1]] picks, for every row, the first index at which the
    row is maximal.  For a well-formed [v] by [n] matrix with [n]
    positive, [max(1)] returns, and its second result has one index
    per row; the index of row [i] lies below [n], no element of the
    row exceeds the element at that index, and every element before it
    is strictly smaller. *)
Theorem max1_picks_first_maximum (out : tensor Q) (v n : nat) :
  shape out = [v; n] -> well_formed out -> n <> 0%nat ->
  exists values indices,
    Torch.max1 out = Ok (values, indices)
    /\ shape indices = [v] /\ length (data indices) = v
    /\ forall i, (i < v)%nat ->
         exists k,
           data indices !! i = Some (Z.of_nat k)
           /\ (k < n)%nat
           /\ (forall j, (j < n)%nat -> (nth j (row out i) 0 <= nth k (row out i) 0)%Q)
           /\ (forall j, (j < k)%nat -> (nth j (row out i) 0 < nth k (row out i) 0)%Q).
Proof.
  intros Hshape Hwf Hn.
  destruct (max1_matrix out Hshape Hn) as [values Hmax].
  eexists _, _. split; [exact Hmax |]. cbn [shape data].
  split; [reflexivity |]. split; [rewrite length_map, length_seq; reflexivity |].
  intros i Hi. exists (Torch.argmax (row out i)).
  pose proof (length_row Hshape Hwf Hi) as Hlen.
  assert (Hne : row out i <> []).
  { intros H. rewrite H in Hlen. simpl in Hlen. lia. }
  destruct (argmax_spec Hne) as (Hlt & Hle & Hfirst). rewrite Hlen in *.
  split; [| split; [exact Hlt | split; [exact Hle | exact Hfirst]]].
  rewrite list_lookup_fmap, lookup_seq_lt by exact Hi. simpl.
  rewrite (lane_is_row Hshape Hwf Hi). reflexivity.
Qed.

Lemma max1_picks_first_maximum_witness :
  shape (Tensor [2; 3]%nat [1; 5; 5; 7; 7; 0]%Q) = [2; 3]%nat
  /\ well_formed (Tensor [2; 3]%nat [1; 5; 5; 7; 7; 0]%Q)
  /\ 3%nat <> 0%nat
  /\ exists values indices,
       Torch.max1 (Tensor [2; 3]%nat [1; 5; 5; 7; 7; 0]%Q) = Ok (values, indices)
       /\ shape indices = [2%nat] /\ length (data indices) = 2%nat
       /\ forall i, (i < 2)%nat ->
            exists k,
              data indices !! i = Some (Z.of_nat k)
              /\ (k < 3)%nat
              /\ (forall j, (j < 3)%nat ->
                    (nth j (row (Tensor [2; 3]%nat [1; 5; 5; 7; 7; 0]%Q) i) 0
                     <= nth k (row (Tensor [2; 3]%nat [1; 5; 5; 7; 7; 0]%Q) i) 0)%Q)
              /\ (forall j, (j < k)%nat ->
                    (nth j (row (Tensor [2; 3]%nat [1; 5; 5; 7; 7; 0]%Q) i) 0
                     < nth k (row (Tensor [2; 3]%nat [1; 5; 5; 7; 7; 0]%Q) i) 0)%Q).
Proof.
  split; [reflexivity |]. split; [reflexivity |]. split; [discriminate |].
  apply (@max1_picks_first_maximum (Tensor [2; 3]%nat [1; 5; 5; 7; 7; 0]%Q) 2 3);
    [reflexivity | reflexivity | discriminate].
Defined.

(** ** Broadcasting in the comparison *)

Lemma count_index (k n : nat) :
  forall a,
    length (List.filter (fun i => (k =? i)%nat) (seq a n))
    = if ((a <=? k) && (k <? a + n))%nat then 1%nat else 0%nat.
Proof.
  induction n as [| n IH]; intros a; cbn [seq List.filter].
  - cbn [length].
    destruct (Nat.leb_spec a k), (Nat.ltb_spec k (a + 0)); simpl; lia.
  - destruct (Nat.eqb_spec k a) as [-> | Hne]; cbn [length]; rewrite IH;
      destruct (Nat.leb_spec (S a) a), (Nat.ltb_spec a (S a + n)),
        (Nat.leb_spec a a), (Nat.ltb_spec a (a + S n));
      try destruct (Nat.leb_spec (S a) k); try destruct (Nat.ltb_spec k (S a + n));
      try destruct (Nat.leb_spec a k); try destruct (Nat.ltb_spec k (a + S n));
      simpl; lia.
Qed.

(** Comparing a single prediction with the labels [0 .. n-1]. *)
Lemma eq_single (k : Z) (n : nat) :
  n <> 1%nat ->
  Torch.eq (Tensor [1%nat] [k]) (Torch.arange n)
  = Ok (Tensor [n] (map (fun i => k =? Z.of_nat i) (seq 0 n))).
Proof.
  intros Hne. unfold Torch.eq, Torch.broadcast_shapes, Torch.arange.
  cbn [shape data rev app Torch.broadcast_rev].
  destruct (Nat.eqb_spec 1 n) as [<- | _]; [contradiction Hne; reflexivity |].
  cbn [Nat.eqb rev app numel fold_right Torch.source_index].
  rewrite Nat.mul_1_r. do 2 f_equal.
  apply map_ext_in. intros i Hi. apply in_seq in Hi.
  destruct (Nat.eqb_spec n 1) as [-> | _]; [contradiction Hne; reflexivity |].
  rewrite Nat.mod_small by lia. rewrite Nat.mul_0_r, Nat.add_0_r. cbn [nth Nat.add Nat.mul].
  rewrite (nth_indep _ 0 (Z.of_nat 0)) by (rewrite length_map, length_seq; lia).
  rewrite map_nth, seq_nth by lia. do 2 f_equal. lia.
Qed.

(** On an output with a single row, [pred.eq(target)] broadcasts the
    one prediction against all labels: exactly one label equals it. *)
Lemma batch_correct_single (out : tensor Q) (n : nat) :
  shape out = [1%nat; n] -> well_formed out -> n <> 0%nat ->
  batch_correct out (Torch.arange n) = Ok 1.
Proof.
  intros Hshape Hwf Hn.
  destruct (Nat.eq_dec n 1%nat) as [-> | Hne].
  { rewrite (batch_correct_spec Hshape Hwf Hn). f_equal.
    unfold correct_predictions, rows_of. rewrite Hshape. simpl.
    assert (Hlen : length (row out 0) = 1%nat)
      by (apply (@length_row out 1%nat 1%nat 0%nat Hshape Hwf); lia).
    destruct (row out 0) as [| x [| y l]]; try discriminate. reflexivity. }
  unfold batch_correct.
  destruct (max1_matrix out Hshape Hn) as [values ->].
  cbn [Py.bind snd seq map].
  rewrite (lane_is_row (i := 0%nat) Hshape Hwf) by lia.
  assert (Hk : (Torch.argmax (row out 0) < n)%nat).
  { pose proof (@length_row out 1%nat n 0%nat Hshape Hwf ltac:(lia)) as Hlen.
    assert (Hrow : row out 0 <> []).
    { intros H. rewrite H in Hlen. simpl in Hlen. lia. }
    destruct (argmax_spec Hrow) as (Hlt & _). rewrite Hlen in Hlt. exact Hlt. }
  set (k := Torch.argmax (row out 0)) in *.
  rewrite (eq_single _ Hne). cbn [Py.bind]. f_equal.
  unfold Torch.sum_item. cbn [data]. rewrite filter_true_map.
  rewrite (List.filter_ext_in _ (fun i => (k =? i)%nat)).
  - rewrite count_index. simpl.
    destruct (Nat.ltb_spec k n); [reflexivity | lia].
  - intros i Hi.
    destruct (Nat.eqb_spec k i) as [-> | Hki].
    + apply Z.eqb_refl.
    + apply Z.eqb_neq. lia.
Qed.

Lemma quotient_cancel (l n : Z) :
  0 < l -> 0 < n -> (inject_Z l / inject_Z (l * n) == 1 / inject_Z n)%Q.
Proof.
  intros Hl Hn. rewrite inject_Z_mult.
  field. split; intros H.
  - change 0%Q with (inject_Z 0) in H. rewrite inject_Z_injective in H. lia.
  - change 0%Q with (inject_Z 0) in H. rewrite inject_Z_injective in H. lia.
Qed.

Lemma test_loop_single {St} (E : env St) (nb : Notebook) (n : nat) (mode : bool) :
  Contract.respects E -> model nb = set_training mode (Net_init n) ->
  target nb = Torch.arange n -> n <> 0%nat ->
  forall (batches : list Data) (indices : list Z) (correct : Z) (s : St),
    Forall (vertices 1) batches -> length indices = length batches ->
    exists tr s',
      run E (for_fold (combine indices batches) (test_batch nb) correct) s
      = (tr, Ok (correct + Z.of_nat (length batches), s')).
Proof.
  intros HE Hmodel Htarget Hn.
  induction batches as [| data batches IH]; intros indices correct s Hall Hlen.
  - destruct indices; [| discriminate]. simpl. exists [], s.
    rewrite Z.add_0_r. reflexivity.
  - destruct indices as [| i indices]; [discriminate |]. simpl in Hlen.
    inversion Hall as [| ? ? Hdata Hrest]; subst.
    cbn [combine for_fold]. rewrite run_bind.
    destruct (test_batch_run nb i correct s HE Hmodel Hdata)
      as (p & s1 & Hout & Hwf & _ & Hrun).
    rewrite Hrun. rewrite Htarget. rewrite (batch_correct_single Hout Hwf Hn).
    destruct (IH indices (correct + 1) s1 Hrest) as (tr & s2 & Hloop); [lia |].
    rewrite Hloop. eexists _, s2. do 3 f_equal. cbn [length]. lia.
Qed.

(** X12: A test sample with a single vertex is not rejected: its one
    prediction is broadcast against the [num_nodes] labels of the
    target and matches exactly one of them, whatever the model
    returns.  Under every environment that honours the contract, on a
    non-empty test dataset of one-vertex samples, [num_nodes]
    positive, [test] returns 1 / [num_nodes]. *)
Theorem one_vertex_samples_score_one_each {St} (E : env St) (s : St)
    (train_set test_set : list Data) (num_nodes : nat) (mode : bool)
    (groups : list param_group) :
  Contract.respects E -> Forall (vertices 1) test_set -> test_set <> [] ->
  num_nodes <> 0%nat ->
  exists tr acc nb' s',
    run E (test (state_of train_set test_set num_nodes mode groups)) s
    = (tr, Ok ((acc, nb'), s'))
    /\ (acc == 1 / inject_Z (Z.of_nat num_nodes))%Q.
Proof.
  intros HE Hall Hne Hn. rename num_nodes into n. unfold test.
  change (with_model _ (state_of train_set test_set n mode groups))
    with (state_of train_set test_set n false groups).
  set (nb := state_of train_set test_set n false groups).
  unfold call_dataset. cbn [bind run].
  change (test_loader nb) with (DataLoader test_set batch_size false).
  destruct (test_loader_batches test_set s HE) as (batches & s1 & Hans & Hsame).
  rewrite Hans. cbn [bind]. rewrite run_bind.
  pose proof (batches_vertices Hsame Hall) as Hbatches.
  assert (Hlen : length batches = length test_set)
    by (eapply Forall2_length; eassumption).
  destruct (@test_loop_single St E nb n false HE eq_refl eq_refl Hn batches
              (Py.range (length batches)) 0 s1 Hbatches (length_range _))
    as (tr & s2 & Hloop).
  unfold Py.enumerate. rewrite Hloop. rewrite run_bind, run_lift.
  unfold Py.truediv.
  change (num_nodes nb) with n. change (test_dataset nb) with test_set.
  destruct (Z.eqb_spec (Z.of_nat (length test_set) * Z.of_nat n) 0) as [Hz | _].
  { destruct test_set; [contradiction | simpl in Hz; lia]. }
  cbn [run]. eexists _, _, _, _. split; [reflexivity |].
  rewrite Z.add_0_l, Hlen. apply quotient_cancel.
  - destruct test_set; [contradiction | simpl; lia].
  - lia.
Qed.

Lemma one_vertex_samples_score_one_each_witness :
  Contract.respects (Reference.environment [Reference.sample 3] [Reference.sample 1])
  /\ Forall (vertices 1) [Reference.sample 1]
  /\ [Reference.sample 1] <> []
  /\ 3%nat <> 0%nat
  /\ exists tr acc nb' s',
       run (Reference.environment [Reference.sample 3] [Reference.sample 1])
         (test (state_of [Reference.sample 3] [Reference.sample 1] 3 true
                  (Adam (1 # 100)))) 0%nat
       = (tr, Ok ((acc, nb'), s'))
       /\ (acc == 1 / inject_Z (Z.of_nat 3))%Q.
Proof.
  assert (Hres : Contract.respects
                   (Reference.environment [Reference.sample 3] [Reference.sample 1]))
    by (apply reference_respects; repeat constructor; apply sample_mesh).
  assert (Hall : Forall (vertices 1) [Reference.sample 1])
    by (repeat constructor; apply sample_vertices).
  split; [exact Hres |]. split; [exact Hall |].
  split; [discriminate |]. split; [discriminate |].
  apply (one_vertex_samples_score_one_each 0%nat [Reference.sample 3] true
           (Adam (1 # 100)) Hres Hall); discriminate.
Defined.

Lemma map_nth_indices {A} (l : list A) (d : A) :
  map (fun i => nth i l d) (seq 0 (length l)) = l.
Proof.
  induction l as [| x l IH]; simpl; [reflexivity |].
  f_equal. rewrite <- seq_shift, List.map_map. exact IH.
Qed.

(** Comparing [v] predictions with the single label of [arange(1)]. *)
Lemma eq_single_label (l : list Z) :
  Torch.eq (Tensor [length l] l) (Torch.arange 1)
  = Ok (Tensor [length l] (map (fun x => x =? 0) l)).
Proof.
  unfold Torch.eq, Torch.broadcast_shapes, Torch.arange.
  cbn [shape data rev app Torch.broadcast_rev seq map].
  assert (Hshape : (if (length l =? 1)%nat then Some [length l]
                    else if (length l =? 1)%nat then Some [1%nat]
                    else if (1 =? 1)%nat then Some [length l] else None)
                   = Some [length l]).
  { destruct (length l =? 1)%nat; reflexivity. }
  rewrite Hshape. cbn [rev app numel fold_right Torch.source_index].
  rewrite Nat.mul_1_r. do 2 f_equal.
  transitivity (map (fun x => x =? 0) (map (fun i => nth i l 0) (seq 0 (length l))));
    [| rewrite map_nth_indices; reflexivity].
  rewrite List.map_map. apply map_ext_in. intros i Hi. apply in_seq in Hi.
  cbn [Nat.add Nat.eqb nth Z.of_nat Nat.mul].
  rewrite Nat.mul_0_r, Nat.add_0_r.
  destruct (Nat.eqb_spec (length l) 1) as [Hone | _].
  - assert (i = 0%nat) as -> by lia. reflexivity.
  - rewrite Nat.mod_small by lia. reflexivity.
Qed.

Lemma argmax_singleton (l : list Q) : length l = 1%nat -> Torch.argmax l = 0%nat.
Proof. destruct l as [| x [| y l]]; try discriminate. reflexivity. Qed.

(** With a single label every row's prediction is that label: all
    [v] comparisons succeed. *)
Lemma batch_correct_single_label (out : tensor Q) (v : nat) :
  shape out = [v; 1%nat] -> well_formed out ->
  batch_correct out (Torch.arange 1) = Ok (Z.of_nat v).
Proof.
  intros Hshape Hwf. unfold batch_correct.
  destruct (@max1_matrix out v 1%nat Hshape ltac:(discriminate)) as [values ->].
  cbn [Py.bind snd].
  set (l := map (fun i => Z.of_nat (Torch.argmax (Torch.lane (data out) 1 1 i 0)))
              (seq 0 v)).
  assert (Hlen : length l = v) by (unfold l; rewrite length_map, length_seq; reflexivity).
  rewrite <- Hlen at 1. rewrite eq_single_label. cbn [Py.bind]. f_equal.
  unfold Torch.sum_item. cbn [data]. rewrite filter_true_map.
  transitivity (Z.of_nat (length l)); [| rewrite Hlen; reflexivity].
  f_equal. apply filter_all.
  unfold l. apply Forall_map. apply List.Forall_forall. intros i Hi.
  apply in_seq in Hi.
  rewrite (lane_is_row (i := i) Hshape Hwf) by lia.
  rewrite argmax_singleton; [reflexivity |].
  apply (@length_row out v 1%nat i Hshape Hwf). lia.
Qed.

Lemma test_loop_single_label {St} (E : env St) (nb : Notebook) (mode : bool) :
  Contract.respects E -> model nb = set_training mode (Net_init 1) ->
  target nb = Torch.arange 1 ->
  forall (batches : list Data) (counts : list nat) (indices : list Z)
         (correct : Z) (s : St),
    Forall2 vertices counts batches -> length indices = length batches ->
    exists tr s',
      run E (for_fold (combine indices batches) (test_batch nb) correct) s
      = (tr, Ok (correct + Z.of_nat (list_sum counts), s')).
Proof.
  intros HE Hmodel Htarget.
  induction batches as [| data batches IH]; intros counts indices correct s Hall Hlen.
  - inversion Hall; subst. destruct indices; [| discriminate]. simpl. exists [], s.
    rewrite Z.add_0_r. reflexivity.
  - destruct indices as [| i indices]; [discriminate |]. simpl in Hlen.
    inversion Hall as [| v ? counts' ? Hdata Hrest]; subst.
    cbn [combine for_fold]. rewrite run_bind.
    destruct (test_batch_run nb i correct s HE Hmodel Hdata)
      as (p & s1 & Hout & Hwf & _ & Hrun).
    rewrite Hrun. rewrite Htarget. rewrite (batch_correct_single_label Hout Hwf).
    destruct (IH counts' indices (correct + Z.of_nat v) s1 Hrest) as (tr & s2 & Hloop);
      [lia |].
    rewrite Hloop.
    replace (correct + Z.of_nat v + Z.of_nat (list_sum counts'))
      with (correct + Z.of_nat (list_sum (v :: counts')))
      by (change (list_sum (v :: counts')) with (v + list_sum counts')%nat; lia).
    eexists _, s2. reflexivity.
Qed.

(** X16: With [num_nodes] = 1 the comparison broadcasts the single label:
    every row of every output counts as correct, whatever the vertex
    counts of the test samples are.  Under every environment that
    honours the contract, on a non-empty test dataset of mesh samples,
    [test] returns the total number of test vertices divided by the
    number of test samples; when every test sample has two vertices or
    more, that "accuracy" is 2 or more. *)
Theorem single_label_accuracy_counts_vertices {St} (E : env St) (s : St)
    (train_set test_set : list Data) (mode : bool) (groups : list param_group)
    (counts : list nat) :
  Contract.respects E -> Forall2 vertices counts test_set -> test_set <> [] ->
  exists tr acc nb' s',
    run E (test (state_of train_set test_set 1 mode groups)) s
    = (tr, Ok ((acc, nb'), s'))
    /\ (acc == inject_Z (Z.of_nat (list_sum counts))
               / inject_Z (Z.of_nat (length test_set)))%Q
    /\ (Forall (fun v => (2 <= v)%nat) counts -> (2 <= acc)%Q).
Proof.
  intros HE Hcounts Hne. unfold test.
  change (with_model _ (state_of train_set test_set 1 mode groups))
    with (state_of train_set test_set 1 false groups).
  set (nb := state_of train_set test_set 1 false groups).
  unfold call_dataset. cbn [bind run].
  change (test_loader nb) with (DataLoader test_set batch_size false).
  destruct (test_loader_batches test_set s HE) as (batches & s1 & Hans & Hsame).
  rewrite Hans. cbn [bind]. rewrite run_bind.
  pose proof (batches_counts Hsame Hcounts) as Hbatches.
  destruct (@test_loop_single_label St E nb false HE eq_refl eq_refl batches counts
              (Py.range (length batches)) 0 s1 Hbatches (length_range _))
    as (tr & s2 & Hloop).
  unfold Py.enumerate. rewrite Hloop. rewrite run_bind, run_lift.
  unfold Py.truediv.
  change (num_nodes nb) with 1%nat. change (test_dataset nb) with test_set.
  assert (Hlen : 0 < Z.of_nat (length test_set)).
  { destruct test_set; [contradiction | simpl; lia]. }
  destruct (Z.eqb_spec (Z.of_nat (length test_set) * Z.of_nat 1) 0) as [Hz | _]; [lia |].
  cbn [run]. eexists _, _, _, _. split; [reflexivity |].
  rewrite Z.add_0_l, Z.mul_1_r. split; [reflexivity |].
  intros Hbig.
  assert (Hsum : 2 * Z.of_nat (length test_set) <= Z.of_nat (list_sum counts)).
  { rewrite <- (Forall2_length _ _ _ Hcounts). clear - Hbig.
    induction Hbig as [| v counts Hv Hrest IH]; [simpl; lia |].
    change (list_sum (v :: counts)) with (v + list_sum counts)%nat.
    cbn [length]. lia. }
  destruct (Z.of_nat (length test_set)) as [| d | d]; try lia.
  unfold Qle, Qdiv, Qmult, Qinv, inject_Z. simpl. lia.
Qed.

Lemma single_label_accuracy_counts_vertices_witness :
  Contract.respects (Reference.environment [Reference.sample 1] [Reference.sample 3])
  /\ Forall2 vertices [3%nat] [Reference.sample 3]
  /\ [Reference.sample 3] <> []
  /\ exists tr acc nb' s',
       run (Reference.environment [Reference.sample 1] [Reference.sample 3])
         (test (state_of [Reference.sample 1] [Reference.sample 3] 1 true
                  (Adam (1 # 100)))) 0%nat
       = (tr, Ok ((acc, nb'), s'))
       /\ (acc == inject_Z (Z.of_nat (list_sum [3%nat]))
                  / inject_Z (Z.of_nat (length [Reference.sample 3])))%Q
       /\ (Forall (fun v => (2 <= v)%nat) [3%nat] -> (2 <= acc)%Q).
Proof.
  assert (Hres : Contract.respects
                   (Reference.environment [Reference.sample 1] [Reference.sample 3]))
    by (apply reference_respects; repeat constructor; apply sample_mesh).
  assert (Hcounts : Forall2 vertices [3%nat] [Reference.sample 3])
    by (repeat constructor; apply sample_vertices).
  split; [exact Hres |]. split; [exact Hcounts |]. split; [discriminate |].
  apply (single_label_accuracy_counts_vertices 0%nat [Reference.sample 1] true
           (Adam (1 # 100)) Hres Hcounts).
  discriminate.
Defined.

(** ** Console output *)

Lemma printed_app (a b : list event) : printed (a ++ b) = printed a ++ printed b.
Proof.
  induction a as [| [o v] a IH]; simpl; [reflexivity |].
  destruct o; try exact IH. simpl. f_equal. exact IH.
Qed.

Lemma printed_quiet (tr : list event) :
  Forall (fun ev => forall m, fst ev <> Print m) tr -> printed tr = [].
Proof.
  induction 1 as [| [o v] tr Hev Htr IH]; simpl; [reflexivity |].
  simpl in Hev. destruct o; try exact IH. contradiction (Hev m). reflexivity.
Qed.

Lemma train_prints_nothing {St} (E : env St) (epoch : Z) (nb : Notebook) (s : St) :
  printed (fst (run E (train epoch nb) s)) = [].
Proof.
  apply printed_quiet. pose proof (train_calls epoch nb E s) as H.
  assert (Hq : forall tr, Forall (training_call (after_train epoch nb)) tr ->
                          Forall (fun ev => forall m, fst ev <> Print m) tr).
  { intros tr Htr. eapply Forall_impl; [exact Htr |].
    intros [o v] Hev m. unfold training_call, layer_call in Hev. simpl in *.
    destruct o; try discriminate. contradiction. }
  destruct (run E (train epoch nb) s) as [tr [[nb' s'] | e]]; simpl.
  - apply Hq. apply H.
  - apply Hq. exact H.
Qed.

Lemma test_prints_nothing {St} (E : env St) (nb : Notebook) (s : St) :
  printed (fst (run E (test nb) s)) = [].
Proof.
  apply printed_quiet. pose proof (test_calls nb E s) as H.
  assert (Hq : forall tr, Forall (testing_call nb) tr ->
                          Forall (fun ev => forall m, fst ev <> Print m) tr).
  { intros tr Htr. eapply Forall_impl; [exact Htr |].
    intros [o v] Hev m. unfold testing_call, layer_call in Hev. simpl in *.
    destruct o; try discriminate. contradiction. }
  destruct (run E (test nb) s) as [tr [[r s'] | e]]; simpl.
  - apply Hq. apply H.
  - apply Hq. exact H.
Qed.

Lemma setup_prints_nothing {St} (E : env St) (s : St) :
  printed (fst (run E setup s)) = [].
Proof.
  apply printed_quiet. pose proof (setup_calls E s) as H.
  assert (Hq : forall tr, Forall setup_call tr ->
                          Forall (fun ev => forall m, fst ev <> Print m) tr).
  { intros tr Htr. eapply Forall_impl; [exact Htr |].
    intros [o v] Hev m. unfold setup_call in Hev. simpl in *.
    destruct o; try discriminate. contradiction. }
  destruct (run E setup s) as [tr [[r s'] | e]]; simpl.
  - apply Hq. apply H.
  - apply Hq. exact H.
Qed.

Lemma epoch_loop_prints {St} (E : env St) (epochs : list Z) :
  forall (nb : Notebook) (s : St),
    let '(tr, res) := run E (epoch_loop epochs nb) s in
    match res with
    | Ok _ => printed tr = map EpochMessage epochs
    | Raised _ => printed tr `prefix_of` map EpochMessage epochs
    end.
Proof.
  unfold epoch_loop.
  induction epochs as [| epoch epochs IH]; intros nb s; [reflexivity |].
  cbn [for_fold map]. rewrite !run_bind. cbn [call_unit run].
  destruct (answer E (Print (EpochMessage epoch)) s) as [[v s1] | e];
    [| apply prefix_nil].
  pose proof (train_prints_nothing E epoch nb s1) as Htrain.
  destruct (run E (train epoch nb) s1) as [tr1 [[nb1 s2] | e]]; simpl in Htrain.
  - specialize (IH nb1 s2).
    destruct (run E (for_fold epochs _ nb1) s2) as [tr2 [[nb2 s3] | e]];
      rewrite !printed_app, Htrain; simpl.
    + f_equal. exact IH.
    + apply prefix_cons. exact IH.
  - rewrite !printed_app, Htrain. apply prefix_cons, prefix_nil.
Qed.

(** X13: What the notebook prints.  Under every environment, a run of the
    whole notebook that returns has printed the lines [Epoch 0] to
    [Epoch 99], in order, and then the test line, whose number is the
    accuracy that [test] returned on the trained model; nothing else is
    printed.  A run that fails has printed the epoch lines up to the
    epoch it failed in, and no test line. *)
Theorem notebook_prints_epochs_then_accuracy {St} (E : env St) (s : St) :
  let '(tr, res) := run E notebook s in
  match res with
  | Ok _ =>
      exists tr1 nb1 s1 tr2 acc nb2 s2,
        run E (nb <- setup ;; train_all nb) s = (tr1, Ok (nb1, s1))
        /\ run E (test nb1) s1 = (tr2, Ok ((acc, nb2), s2))
        /\ printed tr = map EpochMessage (Py.range 100) ++ [TestMessage acc]
  | Raised _ => printed tr `prefix_of` map EpochMessage (Py.range 100)
  end.
Proof.
  unfold notebook, train_all. rewrite !run_bind.
  pose proof (setup_prints_nothing E s) as Hsetup.
  destruct (run E setup s) as [tr0 [[nb0 s0] | e]]; simpl in Hsetup;
    [| rewrite Hsetup; apply prefix_nil].
  rewrite !run_bind.
  pose proof (epoch_loop_prints E (Py.range 100) nb0 s0) as Hloop.
  destruct (run E (epoch_loop (Py.range 100) nb0) s0) as [tr1 [[nb1 s1] | e]];
    [| rewrite printed_app, Hsetup; exact Hloop].
  rewrite run_bind.
  pose proof (test_prints_nothing E nb1 s1) as Htest.
  destruct (run E (test nb1) s1) as [tr2 [[[acc nb2] s2] | e]] eqn:Hacc;
    simpl in Htest.
  - cbn [call_unit bind run].
    destruct (answer E (Print (TestMessage acc)) s2) as [[v s3] | e]; cbn [run].
    + exists (tr0 ++ tr1), nb1, s1, tr2, acc, nb2, s2.
      split; [reflexivity |]. split; [exact Hacc |].
      rewrite !printed_app, Hsetup, Hloop, Htest. reflexivity.
    + rewrite !printed_app, Hsetup, Hloop, Htest. simpl.
      rewrite ?app_nil_r. reflexivity.
  - rewrite !printed_app, Hsetup, Hloop, Htest. simpl.
    rewrite ?app_nil_r. reflexivity.
Qed.

(** ** The learning-rate decay *)

Lemma set_lr_lookup (lr : Q) (groups : list param_group) :
  Forall2 (fun g g' : param_group =>
             g' !! "lr" = Some (HFloat lr)
             /\ forall k : string, k <> "lr" -> g' !! k = g !! k)
    groups (set_lr lr groups).
Proof.
  unfold set_lr. induction groups as [| g groups IH]; simpl; constructor; [| exact IH].
  split; [apply lookup_insert_eq |].
  intros k Hk. apply lookup_insert_ne. congruence.
Qed.

Lemma set_lr_twice (lr lr' : Q) (groups : list param_group) :
  set_lr lr (set_lr lr' groups) = set_lr lr groups.
Proof.
  unfold set_lr. rewrite List.map_map. apply List.map_ext.
  intros g. apply insert_insert_eq.
Qed.

(** X14: The decay at epoch 60 writes the learning rate and nothing else.
    [param_group['lr'] = 0.001] overwrites the entry [lr] of every
    parameter group and leaves every other entry (betas, eps, weight
    decay, ...) and the number of groups as they are; assigning again
    changes nothing more.  Under every environment, when [train(60)]
    returns, the optimizer's groups are the old ones with that one
    entry rewritten, the model is in training mode, and the target,
    the datasets, the loaders and [num_nodes] are what they were. *)
Theorem lr_decay_writes_only_lr {St} (E : env St) (s : St) (nb : Notebook) :
  (forall (lr lr' : Q) (groups : list param_group),
      Forall2 (fun g g' : param_group =>
                 g' !! "lr" = Some (HFloat lr)
                 /\ forall k : string, k <> "lr" -> g' !! k = g !! k)
        groups (set_lr lr groups)
      /\ set_lr lr (set_lr lr' groups) = set_lr lr groups)
  /\ match snd (run E (train 60 nb) s) with
     | Ok (nb', _) =>
         Forall2 (fun g g' : param_group =>
                    g' !! "lr" = Some (HFloat (1 # 1000))
                    /\ forall k : string, k <> "lr" -> g' !! k = g !! k)
           (optimizer nb) (optimizer nb')
         /\ model nb' = set_training true (model nb)
         /\ target nb' = target nb /\ num_nodes nb' = num_nodes nb
         /\ train_dataset nb' = train_dataset nb /\ test_dataset nb' = test_dataset nb
         /\ train_loader nb' = train_loader nb /\ test_loader nb' = test_loader nb
     | Raised _ => True
     end.
Proof.
  split.
  - intros lr lr' groups. split; [apply set_lr_lookup | apply set_lr_twice].
  - pose proof (train_calls 60 nb E s) as H.
    destruct (run E (train 60 nb) s) as [tr [[nb' s'] | e]]; [| exact I].
    destruct H as [_ ->]. simpl. split; [apply set_lr_lookup |]. repeat split.
Qed.

(** ** The notebook from top to bottom *)

(** The dataset and optimizer cells, when the dataset calls return
    [train_set] and [test_set] and the first training sample has [n]
    vertices. *)
Lemma setup_run {St} (E : env St) (s s1 s2 : St)
    (first : Data) (rest test_set : list Data) (n : nat) :
  Contract.respects E ->
  answer E (FAUST path true pre_transform) s = Ok (VDataset (first :: rest), s1) ->
  answer E (FAUST path false pre_transform) s1 = Ok (VDataset test_set, s2) ->
  vertices n first ->
  exists v s3,
    run E setup s
    = ([ (FAUST path true pre_transform, VDataset (first :: rest));
         (FAUST path false pre_transform, VDataset test_set);
         (ModuleTo device, v) ],
       Ok (state_of (first :: rest) test_set n true (Adam (1 # 100)), s3)).
Proof.
  intros HE Htrain Htest (pos & Hpos & Hshape).
  destruct (respects_unit (ModuleTo device) s2 HE I) as (v & s3 & Hto).
  exists v, s3.
  unfold setup, call_dataset, call_unit. cbn [bind run]. rewrite Htrain.
  cbn [bind run]. rewrite Htest. simpl.
  unfold data_num_nodes. rewrite Hpos, Hshape. simpl.
  rewrite Hto. reflexivity.
Qed.

Lemma test_takes_no_step {St} (E : env St) (nb : Notebook) (s : St) :
  count_steps (fst (run E (test nb) s)) = 0%nat.
Proof.
  pose proof (test_calls nb E s) as H.
  assert (Hq : forall tr, Forall (testing_call nb) tr -> count_steps tr = 0%nat).
  { intros tr Htr. unfold count_steps.
    induction Htr as [| [o w] tr Hev Htr IH]; [reflexivity |].
    unfold testing_call, layer_call in Hev. simpl in *.
    destruct o; try contradiction; exact IH. }
  destruct (run E (test nb) s) as [tr [[r s'] | e]]; simpl.
  - apply Hq. apply H.
  - apply Hq. exact H.
Qed.

(** X15: The notebook runs to its end.  Under every environment that
    honours the contract, if the dataset calls return a non-empty
    training dataset and a non-empty test dataset of mesh samples that
    all have [n] vertices, [n] positive, then the whole notebook
    returns: [num_nodes] is [n], the 100 epochs are trained with one
    step per training sample and epoch, the learning rate ends at
    0.001, the model ends in evaluation mode, and the last call prints
    a test accuracy that lies in [[0, 1]]. *)
Theorem notebook_completes {St} (E : env St) (s s1 s2 : St)
    (train_set test_set : list Data) (n : nat) :
  Contract.respects E ->
  answer E (FAUST path true pre_transform) s = Ok (VDataset train_set, s1) ->
  answer E (FAUST path false pre_transform) s1 = Ok (VDataset test_set, s2) ->
  train_set <> [] -> test_set <> [] -> n <> 0%nat ->
  Forall (vertices n) train_set -> Forall (vertices n) test_set ->
  exists tr acc v nb s',
    run E notebook s = (tr ++ [(Print (TestMessage acc), v)], Ok (nb, s'))
    /\ (0 <= acc <= 1)%Q
    /\ num_nodes nb = n
    /\ training (model nb) = false
    /\ has_lr (1 # 1000) (optimizer nb)
    /\ count_steps tr = (100 * length train_set)%nat.
Proof.
  intros HE Htrain Htest Hne1 Hne2 Hn Hall1 Hall2.
  destruct train_set as [| first rest]; [contradiction |].
  assert (Hfirst : vertices n first) by (inversion Hall1; assumption).
  destruct (@setup_run St E s s1 s2 first rest test_set n HE Htrain Htest Hfirst)
    as (v0 & s3 & Hsetup).
  set (train_set := first :: rest) in *.
  destruct (@epoch_loop_steps St E train_set test_set n (Py.range 100) HE Hall1
              true (Adam (1 # 100)) s3)
    as (tr1 & mode' & groups' & s4 & Hloop & Hcount).
  pose proof (@epoch_loop_schedule St E 100 0
                (state_of train_set test_set n true (Adam (1 # 100))) s3 None
                (Adam_has_lr (1 # 100))) as Hlr.
  change (map Z.of_nat (seq 0 100)) with (Py.range 100) in Hlr.
  rewrite Hloop in Hlr. destruct Hlr as [_ Hlr]. simpl optimizer in Hlr.
  destruct (test_run_equal_counts s4 train_set mode' groups' HE Hall2 Hne2 Hn)
    as (batches & outs & tr2 & s5 & Hrun & Hsame & Hsteps & Hshapes).
  destruct (respects_unit
              (Print (TestMessage (spec_accuracy outs (length test_set) n))) s5 HE I)
    as (v & s6 & Hprint).
  pose proof (test_takes_no_step E (state_of train_set test_set n mode' groups') s4)
    as Hquiet.
  rewrite Hrun in Hquiet. cbn [fst] in Hquiet.
  eexists _, (spec_accuracy outs (length test_set) n), v,
    (state_of train_set test_set n false groups'), s6.
  split; [| split; [| split; [| split; [| split]]]].
  - unfold notebook, train_all. rewrite run_bind, Hsetup, run_bind, Hloop, run_bind, Hrun.
    cbn [call_unit bind run]. rewrite Hprint. cbn [run].
    rewrite !app_assoc. reflexivity.
  - unfold spec_accuracy. apply quotient_in_unit_interval.
    + pose proof (total_correct_bounds Hshapes) as Hb.
      rewrite (test_steps_length Hsteps) in Hb.
      rewrite (Forall2_length _ _ _ Hsame) in Hb. exact Hb.
    + destruct test_set; [contradiction | simpl; lia].
  - reflexivity.
  - reflexivity.
  - exact Hlr.
  - rewrite !count_steps_app, Hcount, Hquiet, length_range. simpl. lia.
Qed.

Lemma notebook_completes_witness :
  Contract.respects (Reference.environment [Reference.sample 2] [Reference.sample 2])
  /\ answer (Reference.environment [Reference.sample 2] [Reference.sample 2])
       (FAUST path true pre_transform) 0%nat
     = Ok (VDataset [Reference.sample 2], 1%nat)
  /\ answer (Reference.environment [Reference.sample 2] [Reference.sample 2])
       (FAUST path false pre_transform) 1%nat
     = Ok (VDataset [Reference.sample 2], 2%nat)
  /\ [Reference.sample 2] <> []
  /\ 2%nat <> 0%nat
  /\ Forall (vertices 2) [Reference.sample 2]
  /\ exists tr acc v nb s',
       run (Reference.environment [Reference.sample 2] [Reference.sample 2]) notebook 0%nat
       = (tr ++ [(Print (TestMessage acc), v)], Ok (nb, s'))
       /\ (0 <= acc <= 1)%Q
       /\ num_nodes nb = 2%nat
       /\ training (model nb) = false
       /\ has_lr (1 # 1000) (optimizer nb)
       /\ count_steps tr = (100 * length [Reference.sample 2])%nat.
Proof.
  assert (Hres : Contract.respects
                   (Reference.environment [Reference.sample 2] [Reference.sample 2]))
    by (apply reference_respects; repeat constructor; apply sample_mesh).
  assert (Hall : Forall (vertices 2) [Reference.sample 2])
    by (repeat constructor; apply sample_vertices).
  split; [exact Hres |]. split; [reflexivity |]. split; [reflexivity |].
  split; [discriminate |]. split; [discriminate |]. split; [exact Hall |].
  apply (@notebook_completes nat
           (Reference.environment [Reference.sample 2] [Reference.sample 2])
           0%nat 1%nat 2%nat [Reference.sample 2] [Reference.sample 2] 2 Hres);
    try reflexivity; try discriminate; exact Hall.
Defined.

(** ** Examples *)

Example max1_example :
  Torch.max1 (Tensor [2; 3]%nat [1; 5; 2; 7; 7; 0]%Q)
  = Ok (Tensor [2]%nat [5; 7]%Q, Tensor [2]%nat [1; 0]).
Proof. reflexivity. Qed.

Example max1_needs_two_dimensions :
  Torch.max1 (Tensor [3]%nat [1; 5; 2]%Q) = Raised Py.IndexError.
Proof. reflexivity. Qed.

Example eq_same_length :
  Torch.eq (Tensor [3]%nat [0; 2; 2]) (Torch.arange 3)
  = Ok (Tensor [3]%nat [true; false; true]).
Proof. reflexivity. Qed.

Example eq_broadcasts_single_element :
  Torch.eq (Tensor [1]%nat [1]) (Torch.arange 3)
  = Ok (Tensor [3]%nat [false; true; false]).
Proof. reflexivity. Qed.

Example eq_rejects_other_lengths :
  Torch.eq (Tensor [2]%nat [0; 1]) (Torch.arange 3) = Raised Py.RuntimeError.
Proof. reflexivity. Qed.

Example truediv_by_zero : Py.truediv 0 0 = Raised Py.ZeroDivisionError.
Proof. reflexivity. Qed.

Example enumerate_example : Py.enumerate [true; false] = [(0, true); (1, false)].
Proof. reflexivity. Qed.

(** An unpooling call that no pooling call precedes, or that is given
    another sample than the one the pooling call returned, breaks the
    hand-over. *)
Example handed_over_needs_a_pool (l : ParallelTransportUnpool_t) (x : tensor Q)
    (d : Data) (v : value) (final : option Data) :
  ~ handed_over None [(CallUnpool l x d, v)] final.
Proof. simpl. intros [H _]. discriminate H. Qed.

Example handed_over_needs_the_same_sample (lp : ParallelTransportPool_t)
    (lu : ParallelTransportUnpool_t) (x y z : tensor Q) (d dp : Data) (v : value)
    (final : option Data) :
  ~ handed_over None
      [ (CallPool lp x d, VPooled y (Reference.sample 1) dp);
        (CallUnpool lu z (Reference.sample 2), v) ] final.
Proof.
  simpl. intros [H _]. inversion H.
Qed.

(** A loss against another target, or on another tensor than the
    output of the forward pass, breaks [losses_ok]. *)
Example losses_ok_needs_the_target (x out : tensor Q) (v : value)
    (final : option (tensor Q)) :
  ~ losses_ok (Torch.arange 3) None
      [(LogSoftmax x 1, VTensor out); (NllLoss out (Torch.arange 2), v)] final.
Proof. simpl. intros [H _]. discriminate H. Qed.

(** The notebook's test on two samples of three vertices, under the
    reference environment: 2 of the 6 predictions are correct. *)
Example reference_accuracy :
  match run (Reference.environment [Reference.sample 3]
               [Reference.sample 3; Reference.sample 3])
          (nb <- setup ;; test nb) 0%nat with
  | (_, Ok ((acc, _), _)) => acc = (2 # 6)%Q
  | (_, Raised _) => False
  end.
Proof. vm_compute. reflexivity. Qed.

(** A step without a [backward] before it, or a [backward] on another
    tensor than the loss just computed, breaks the protocol. *)
Example optimizer_protocol_needs_backward (groups : list param_group)
    (x loss : tensor Q) (t : tensor Z) (v1 v2 : value) (final : phase) :
  ~ optimizer_protocol Idle
      [(ZeroGrad groups, v1); (NllLoss x t, VTensor loss); (Step groups, v2)] final.
Proof. simpl. intros (_ & _ & H & _). discriminate H. Qed.

Example optimizer_protocol_needs_the_loss (groups : list param_group)
    (x : tensor Q) (t : tensor Z) (v1 v2 : value) (final : phase) :
  ~ optimizer_protocol Idle
      [(ZeroGrad groups, v1); (NllLoss x t, VTensor (Tensor [] [1%Q]));
       (Backward (Tensor [] [2%Q]), v2)] final.
Proof. simpl. intros (_ & _ & H & _). inversion H. Qed.

(** A layer that is given the batch as the loader yielded it, not the
    one that [.to(device)] returned, is not [on_device]. *)
Example on_device_needs_the_moved_batch (t : scale_transform_t) (v : value) :
  ~ on_device None
      [(DataTo (Reference.sample 1) device, VData (Reference.sample 2));
       (Transform t (Reference.sample 1), v)].
Proof. simpl. intros [H _]. inversion H. Qed.

Example printed_example (v : value) (groups : list param_group) :
  printed [(Print (EpochMessage 0), v); (Step groups, v); (Print (TestMessage (1 # 2)), v)]
  = [EpochMessage 0; TestMessage (1 # 2)].
Proof. reflexivity. Qed.
